(** * DataReady.io: the interview session model and its orchestrator

    A shallow embedding of
      - [src/models/interview.py]   (session model, question normalisation),
      - [src/models/evaluation.py]  (score breakdown, response evaluation),
      - [src/core/evaluation_engine.py] (heuristic evaluation),
      - [src/core/audio_processor.py]   (text-to-speech fallback chain),
      - [src/core/interview_orchestrator.py] (state machine and flow control),
    followed by the properties of the interview state machine.

    Conventions.  Python [int] is [Z]; [float] is the binary64 [float] of
    the kernel; [str] is [string], read as ASCII text; [set[str]] is
    [gset string]; the insertion-ordered [dict] [skill_scores] is an
    association list; [list] is [list].  A call either returns or raises,
    and what it changed before raising stays changed: the orchestrator
    runs in a state-and-exception monad over the session store.  The
    [await]s of the source are sequential calls (one owner per session). *)

From Stdlib Require Import ZArith String Ascii List Floats Lia Bool.
From stdpp Require Import base option list gmap sets strings pretty.
Import ListNotations.

Set Warnings "-inexact-float".
Local Open Scope string_scope.

(** ** Python strings (ASCII) *)

Module PyStr.

Definition code (c : ascii) : nat := nat_of_ascii c.

(** [str.isspace] on ASCII: tab..carriage return, the four separators
    0x1c..0x1f, and the blank. *)
Definition is_space (c : ascii) : bool :=
  let n := code c in
  ((9 <=? n)%nat && (n <=? 13)%nat) || ((28 <=? n)%nat && (n <=? 32)%nat).

Definition is_upper (c : ascii) : bool :=
  let n := code c in (65 <=? n)%nat && (n <=? 90)%nat.

Definition is_lower (c : ascii) : bool :=
  let n := code c in (97 <=? n)%nat && (n <=? 122)%nat.

Definition is_digit (c : ascii) : bool :=
  let n := code c in (48 <=? n)%nat && (n <=? 57)%nat.

(** The class [\w] of [re] on ASCII: letters, digits and the underscore. *)
Definition is_word (c : ascii) : bool :=
  is_upper c || is_lower c || is_digit c || (code c =? 95)%nat.

Definition lower_char (c : ascii) : ascii :=
  if is_upper c then ascii_of_nat (code c + 32) else c.

Fixpoint map_chars (f : ascii -> ascii) (s : string) : string :=
  match s with
  | EmptyString => EmptyString
  | String c r => String (f c) (map_chars f r)
  end.

Fixpoint filter_chars (p : ascii -> bool) (s : string) : string :=
  match s with
  | EmptyString => EmptyString
  | String c r => if p c then String c (filter_chars p r) else filter_chars p r
  end.

(** [s.lower()] *)
Definition lower (s : string) : string := map_chars lower_char s.

(** [re.sub(r'[^\w\s]', '', s)] *)
Definition strip_non_word (s : string) : string :=
  filter_chars (fun c => is_word c || is_space c) s.

Definition is_empty (s : string) : bool :=
  match s with EmptyString => true | _ => false end.

(** [s.split()]: the maximal runs of non-space characters, in order.
    [cur] is the run being read, reversed. *)
Fixpoint split_go (cur : string) (s : string) : list string :=
  match s with
  | EmptyString => if is_empty cur then [] else [String.rev cur]
  | String c r =>
      if is_space c
      then (if is_empty cur then split_go EmptyString r
            else String.rev cur :: split_go EmptyString r)
      else split_go (String c cur) r
  end.

Definition split (s : string) : list string := split_go EmptyString s.

(** [sep.join(l)] *)
Fixpoint join (sep : string) (l : list string) : string :=
  match l with
  | [] => EmptyString
  | [w] => w
  | w :: r => w ++ sep ++ join sep r
  end.

Fixpoint lstrip (s : string) : string :=
  match s with
  | String c r => if is_space c then lstrip r else s
  | EmptyString => EmptyString
  end.

(** [s.strip()] *)
Definition strip (s : string) : string :=
  String.rev (lstrip (String.rev (lstrip s))).

(** [s.startswith(p)] *)
Definition startswith (p s : string) : bool := String.prefix p s.

(** [len(s)] *)
Definition len (s : string) : Z := Z.of_nat (String.length s).

(** Truth value of a [str | None]: [None] and the empty string are false. *)
Definition truthy (o : option string) : bool :=
  match o with
  | Some s => negb (is_empty s)
  | None => false
  end.

(** [o or d] for an [o : str | None]. *)
Definition or_else (o : option string) (d : string) : string :=
  if truthy o then default d o else d.

End PyStr.

(** ** Enumerations ([src/models/interview.py], [src/models/roles.py]) *)

Inductive InterviewMode := STRUCTURED | STRUCTURED_FOLLOWUP | STRESS.

Definition mode_value (m : InterviewMode) : string :=
  match m with
  | STRUCTURED => "structured"
  | STRUCTURED_FOLLOWUP => "structured_followup"
  | STRESS => "stress"
  end.

Inductive InterviewState :=
  | SETUP | READY
  | ASKING | LISTENING | PROCESSING | EVALUATING | DECIDING
  | COMPLETE | GENERATING_REPORT | FINISHED
  | PAUSED | ERROR | CANCELLED.

#[global] Instance InterviewState_eq_dec : EqDecision InterviewState.
Proof. solve_decision. Defined.

#[global] Instance InterviewMode_eq_dec : EqDecision InterviewMode.
Proof. solve_decision. Defined.

Definition state_value (s : InterviewState) : string :=
  match s with
  | SETUP => "setup" | READY => "ready"
  | ASKING => "asking" | LISTENING => "listening"
  | PROCESSING => "processing" | EVALUATING => "evaluating"
  | DECIDING => "deciding"
  | COMPLETE => "complete" | GENERATING_REPORT => "generating_report"
  | FINISHED => "finished"
  | PAUSED => "paused" | ERROR => "error" | CANCELLED => "cancelled"
  end.

Definition state_name (s : InterviewState) : string :=
  match s with
  | SETUP => "SETUP" | READY => "READY"
  | ASKING => "ASKING" | LISTENING => "LISTENING"
  | PROCESSING => "PROCESSING" | EVALUATING => "EVALUATING"
  | DECIDING => "DECIDING"
  | COMPLETE => "COMPLETE" | GENERATING_REPORT => "GENERATING_REPORT"
  | FINISHED => "FINISHED"
  | PAUSED => "PAUSED" | ERROR => "ERROR" | CANCELLED => "CANCELLED"
  end.

(** [str(s)] of a member of the [str]-mixed enumeration, as an f-string
    formats it: the class and member name (an interpreter older than
    3.12 formats the value, [state_value], instead). *)
Definition state_str (s : InterviewState) : string :=
  "InterviewState." ++ state_name s.

(** [repr(s)], as the formatting of a list of members shows each one. *)
Definition state_repr (s : InterviewState) : string :=
  "<InterviewState." ++ state_name s ++ ": '" ++ state_value s ++ "'>".

(** [str(l)] of a list of states. *)
Definition states_str (l : list InterviewState) : string :=
  "[" ++ PyStr.join ", " (map state_repr l) ++ "]".

Inductive Role := JUNIOR_DE | MID_DE | SENIOR_DE | STAFF_DE | PRINCIPAL_DE.

Definition role_value (r : Role) : string :=
  match r with
  | JUNIOR_DE => "junior_data_engineer"
  | MID_DE => "mid_data_engineer"
  | SENIOR_DE => "senior_data_engineer"
  | STAFF_DE => "staff_data_engineer"
  | PRINCIPAL_DE => "principal_data_engineer"
  end.

Inductive CloudPreference := AWS | GCP | AZURE | MULTI | AGNOSTIC.

(** ** Evaluation records ([src/models/evaluation.py]) *)

Record ScoreBreakdown := mkScoreBreakdown {
  technical_correctness : float;
  depth_of_understanding : float;
  practical_experience : float;
  communication_clarity : float;
  confidence : float
}.

(** The weighted overall score, summed left to right as the source does. *)
Definition overall_score (s : ScoreBreakdown) : float :=
  (technical_correctness s * 0.30 +
   depth_of_understanding s * 0.25 +
   practical_experience s * 0.20 +
   communication_clarity s * 0.15 +
   confidence s * 0.10)%float.

Record EvaluationFeedback := mkEvaluationFeedback {
  what_went_well : list string;
  what_was_missing : list string;
  fb_red_flags : list string;
  seniority_signals : list string;
  improvement_suggestions : list string
}.

Record ResponseEvaluation := mkResponseEvaluation {
  ev_question_id : string;
  ev_skill_id : string;
  ev_transcript : string;
  response_duration_seconds : float;
  scores : ScoreBreakdown;
  feedback : EvaluationFeedback;
  needs_followup : bool;
  ev_followup_reason : option string;
  followup_type : option string;
  difficulty_delta : Z;
  evaluator_notes : option string
}.

(** ** Questions ([src/models/question.py]) *)

Inductive QuestionCategory :=
  | CAT_SQL | CAT_PYTHON | CAT_ETL | CAT_SPARK | CAT_STREAMING | CAT_CLOUD
  | CAT_ORCHESTRATION | CAT_DATA_MODELING | CAT_SYSTEM_DESIGN
  | CAT_DISTRIBUTED | CAT_PERFORMANCE | CAT_GOVERNANCE | CAT_OBSERVABILITY.

Inductive QuestionDifficulty := EASY | MEDIUM | HARD | EXPERT.

Inductive QuestionType :=
  | CONCEPTUAL | SCENARIO | DESIGN | TROUBLESHOOTING | BEHAVIORAL | TRADEOFF.

Record Question := mkQuestion {
  q_id : string;
  q_text : string;
  q_category : QuestionCategory;
  q_skill_id : string;
  q_question_type : QuestionType;
  q_difficulty : QuestionDifficulty;
  q_difficulty_score : Z;
  q_target_roles : list Role;
  q_expected_points : list string
}.

Record FollowUpDecision := mkFollowUpDecision {
  should_followup : bool;
  fu_reason : string;
  fu_followup_type : option string;
  followup_question : option string;
  difficulty_adjustment : Z
}.

(** ** The session model ([src/models/interview.py]) *)

Record InterviewSetup := mkInterviewSetup {
  years_of_experience : Z;
  target_role : Role;
  cloud_preference : CloudPreference;
  include_skills : list string;
  exclude_skills : list string;
  mode : InterviewMode;
  max_questions : Z
}.

(** Instants ([datetime]) are readings of a clock, as integers. *)
Definition datetime := Z.

Record QuestionResponse := mkQuestionResponse {
  question_id : string;
  question_text : string;
  question_audio_url : option string;
  skill_id : option string;
  expected_points : list string;
  red_flags : list string;
  asked_at : datetime;
  response_started_at : option datetime;
  response_completed_at : option datetime;
  response_audio_chunks : list string;
  response_transcript : option string;
  evaluation : option ResponseEvaluation;
  is_followup : bool;
  parent_question_id : option string;
  followup_reason : option string
}.

(** [QuestionResponse(question_id=.., question_text=.., skill_id=..,
    asked_at=..)] with every other field at its default. *)
Definition new_question_response
    (qid text : string) (skill : option string) (at_ : datetime)
    (followup : bool) (parent reason : option string) : QuestionResponse :=
  {| question_id := qid; question_text := text; question_audio_url := None;
     skill_id := skill; expected_points := []; red_flags := [];
     asked_at := at_; response_started_at := None;
     response_completed_at := None; response_audio_chunks := [];
     response_transcript := None; evaluation := None;
     is_followup := followup; parent_question_id := parent;
     followup_reason := reason |}.

Definition set_question_audio_url (v : option string) (q : QuestionResponse) :=
  let 'mkQuestionResponse a b _ d e f g h i j k l m n o := q in
  mkQuestionResponse a b v d e f g h i j k l m n o.

Definition set_response_transcript (v : option string) (q : QuestionResponse) :=
  let 'mkQuestionResponse a b c d e f g h i j _ l m n o := q in
  mkQuestionResponse a b c d e f g h i j v l m n o.

Definition set_response_completed_at (v : option datetime) (q : QuestionResponse) :=
  let 'mkQuestionResponse a b c d e f g h _ j k l m n o := q in
  mkQuestionResponse a b c d e f g h v j k l m n o.

Definition set_evaluation (v : option ResponseEvaluation) (q : QuestionResponse) :=
  let 'mkQuestionResponse a b c d e f g h i j k _ m n o := q in
  mkQuestionResponse a b c d e f g h i j k v m n o.

(** One utterance of the conversation buffer: the dictionary
    [{"role": .., "content": ..}]. *)
Record ContextEntry := mkContextEntry { role : string; content : string }.

Record InterviewSession := mkInterviewSession {
  session_id : string;
  setup : InterviewSetup;
  state : InterviewState;
  created_at : datetime;
  started_at : option datetime;
  completed_at : option datetime;
  questions : list QuestionResponse;
  current_question_index : Z;
  total_core_questions_asked : Z;
  total_followups_asked : Z;
  current_question_followups : Z;
  asked_question_hashes : gset string;
  asked_skills : gset string;
  current_question_context : list ContextEntry;
  current_difficulty : Z;
  difficulty_history : list Z;
  running_score : float;
  skill_scores : list (string * list float);
  error_message : option string
}.

(** [InterviewSession(setup=setup)]: the defaults of the model, with the
    identifier and the creation instant supplied by the caller. *)
Definition new_session (sid : string) (st : InterviewSetup) (at_ : datetime)
  : InterviewSession :=
  {| session_id := sid; setup := st; state := SETUP; created_at := at_;
     started_at := None; completed_at := None; questions := [];
     current_question_index := 0; total_core_questions_asked := 0;
     total_followups_asked := 0; current_question_followups := 0;
     asked_question_hashes := ∅; asked_skills := ∅;
     current_question_context := []; current_difficulty := 5;
     difficulty_history := []; running_score := 0%float;
     skill_scores := []; error_message := None |}.

(** Attribute assignments [session.x = v]. *)
Definition set_state (v : InterviewState) (s : InterviewSession) :=
  let 'mkInterviewSession a b _ d e f g h i j k l m n o p q r t := s in
  mkInterviewSession a b v d e f g h i j k l m n o p q r t.

Definition set_started_at (v : option datetime) (s : InterviewSession) :=
  let 'mkInterviewSession a b c d _ f g h i j k l m n o p q r t := s in
  mkInterviewSession a b c d v f g h i j k l m n o p q r t.

Definition set_completed_at (v : option datetime) (s : InterviewSession) :=
  let 'mkInterviewSession a b c d e _ g h i j k l m n o p q r t := s in
  mkInterviewSession a b c d e v g h i j k l m n o p q r t.

Definition set_questions (v : list QuestionResponse) (s : InterviewSession) :=
  let 'mkInterviewSession a b c d e f _ h i j k l m n o p q r t := s in
  mkInterviewSession a b c d e f v h i j k l m n o p q r t.

Definition set_current_question_index (v : Z) (s : InterviewSession) :=
  let 'mkInterviewSession a b c d e f g _ i j k l m n o p q r t := s in
  mkInterviewSession a b c d e f g v i j k l m n o p q r t.

Definition set_total_core_questions_asked (v : Z) (s : InterviewSession) :=
  let 'mkInterviewSession a b c d e f g h _ j k l m n o p q r t := s in
  mkInterviewSession a b c d e f g h v j k l m n o p q r t.

Definition set_total_followups_asked (v : Z) (s : InterviewSession) :=
  let 'mkInterviewSession a b c d e f g h i _ k l m n o p q r t := s in
  mkInterviewSession a b c d e f g h i v k l m n o p q r t.

Definition set_current_question_followups (v : Z) (s : InterviewSession) :=
  let 'mkInterviewSession a b c d e f g h i j _ l m n o p q r t := s in
  mkInterviewSession a b c d e f g h i j v l m n o p q r t.

Definition set_asked_question_hashes (v : gset string) (s : InterviewSession) :=
  let 'mkInterviewSession a b c d e f g h i j k _ m n o p q r t := s in
  mkInterviewSession a b c d e f g h i j k v m n o p q r t.

Definition set_asked_skills (v : gset string) (s : InterviewSession) :=
  let 'mkInterviewSession a b c d e f g h i j k l _ n o p q r t := s in
  mkInterviewSession a b c d e f g h i j k l v n o p q r t.

Definition set_current_question_context (v : list ContextEntry) (s : InterviewSession) :=
  let 'mkInterviewSession a b c d e f g h i j k l m _ o p q r t := s in
  mkInterviewSession a b c d e f g h i j k l m v o p q r t.

Definition set_current_difficulty (v : Z) (s : InterviewSession) :=
  let 'mkInterviewSession a b c d e f g h i j k l m n _ p q r t := s in
  mkInterviewSession a b c d e f g h i j k l m n v p q r t.

Definition set_difficulty_history (v : list Z) (s : InterviewSession) :=
  let 'mkInterviewSession a b c d e f g h i j k l m n o _ q r t := s in
  mkInterviewSession a b c d e f g h i j k l m n o v q r t.

Definition set_running_score (v : float) (s : InterviewSession) :=
  let 'mkInterviewSession a b c d e f g h i j k l m n o p _ r t := s in
  mkInterviewSession a b c d e f g h i j k l m n o p v r t.

Definition set_skill_scores (v : list (string * list float)) (s : InterviewSession) :=
  let 'mkInterviewSession a b c d e f g h i j k l m n o p q _ t := s in
  mkInterviewSession a b c d e f g h i j k l m n o p q v t.

Definition set_error_message (v : option string) (s : InterviewSession) :=
  let 'mkInterviewSession a b c d e f g h i j k l m n o p q r _ := s in
  mkInterviewSession a b c d e f g h i j k l m n o p q r v.

(** *** Exceptions and outcomes *)

Inductive exn :=
  | ValueError (msg : string)
  | StateTransitionError (msg : string)
  | AttributeError (msg : string)
  | IndexError (msg : string)
  | ImportError (msg : string)
  | ValidationError (msg : string)
  | RuntimeError (msg : string).

(** [str(e)] *)
Definition exn_message (e : exn) : string :=
  match e with
  | ValueError m | StateTransitionError m | AttributeError m
  | IndexError m | ImportError m | ValidationError m | RuntimeError m => m
  end.

Inductive outcome (A : Type) :=
  | Returned (a : A)
  | Raised (e : exn).
Arguments Returned {A} a.
Arguments Raised {A} e.

(** *** Methods of [InterviewSession] *)

(** [l[i]] with Python's indexing: a negative index counts from the end. *)
Definition py_index {A} (l : list A) (i : Z) : outcome A :=
  let n := Z.of_nat (length l) in
  let j := if (i <? 0)%Z then (n + i)%Z else i in
  if ((0 <=? j)%Z && (j <? n)%Z)%bool
  then match l !! Z.to_nat j with
       | Some x => Returned x
       | None => Raised (IndexError "list index out of range")
       end
  else Raised (IndexError "list index out of range").

(** The position [py_index] reads, for writing through the same reference. *)
Definition py_position {A} (l : list A) (i : Z) : nat :=
  let n := Z.of_nat (length l) in
  Z.to_nat (if (i <? 0)%Z then (n + i)%Z else i).

Definition get_current_question (s : InterviewSession)
  : outcome (option QuestionResponse) :=
  match questions s with
  | [] => Returned None
  | _ :: _ =>
      if (current_question_index s <? Z.of_nat (length (questions s)))%Z
      then match py_index (questions s) (current_question_index s) with
           | Returned q => Returned (Some q)
           | Raised e => Raised e
           end
      else Returned None
  end.

Definition stop_words : list string :=
  ["the"; "a"; "an"; "is"; "are"; "was"; "were"; "be"; "been";
   "being"; "have"; "has"; "had"; "do"; "does"; "did"; "will";
   "would"; "could"; "should"; "may"; "might"; "can"; "you";
   "your"; "me"; "my"; "how"; "what"; "when"; "where"; "why";
   "which"; "this"; "that"; "these"; "those"; "tell"; "explain";
   "describe"; "about"; "give"; "example"; "walk"; "through"].

Definition _normalize_question (text : string) : string :=
  let text := PyStr.lower text in
  let text := PyStr.strip_non_word text in
  let words :=
    filter (fun w => (w ∉ stop_words) ∧ (2 < PyStr.len w)%Z) (PyStr.split text) in
  PyStr.join " " (take 15 words).

Definition add_question (question : QuestionResponse) (s : InterviewSession)
  : InterviewSession :=
  let s := set_questions (questions s ++ [question]) s in
  let s := set_current_question_index (Z.of_nat (length (questions s)) - 1) s in
  let question_hash := _normalize_question (question_text question) in
  let s := set_asked_question_hashes ({[ question_hash ]} ∪ asked_question_hashes s) s in
  let s :=
    if PyStr.truthy (skill_id question)
    then set_asked_skills ({[ default "" (skill_id question) ]} ∪ asked_skills s) s
    else s in
  let s :=
    if negb (is_followup question)
    then
      let s := set_total_core_questions_asked (total_core_questions_asked s + 1) s in
      let s := set_current_question_context [] s in
      set_current_question_followups 0 s
    else
      let s := set_total_followups_asked (total_followups_asked s + 1) s in
      set_current_question_followups (current_question_followups s + 1) s in
  set_current_question_context
    (current_question_context s ++
       [ {| role := "interviewer"; content := question_text question |} ]) s.

Definition add_response_to_context (response : string) (s : InterviewSession)
  : InterviewSession :=
  set_current_question_context
    (current_question_context s ++
       [ {| role := "candidate"; content := response |} ]) s.

Definition is_question_asked (question_text : string) (s : InterviewSession) : bool :=
  let question_hash := _normalize_question question_text in
  bool_decide (question_hash ∈ asked_question_hashes s).

Definition is_skill_asked (skill : string) (s : InterviewSession) : bool :=
  bool_decide (skill ∈ asked_skills s).

Definition get_asked_question_count (s : InterviewSession) : Z :=
  Z.of_nat (size (asked_question_hashes s)).

Definition should_end_interview (s : InterviewSession) : bool :=
  (max_questions (setup s) <=? total_core_questions_asked s)%Z
  || bool_decide (state s ∈ [COMPLETE; CANCELLED; ERROR]).

(** ** The skill catalogue ([src/models/roles.py])

    [SKILL_CATALOG], in its order of definition, reduced to what the
    orchestrator reads: the identifier and the applicable roles. *)

#[global] Instance Role_eq_dec : EqDecision Role.
Proof. solve_decision. Defined.

Definition SKILL_CATALOG : list (string * list Role) :=
  [
   ("sql_basics", [JUNIOR_DE]);
   ("sql_joins", [JUNIOR_DE; MID_DE]);
   ("sql_aggregations", [JUNIOR_DE; MID_DE]);
   ("sql_subqueries", [JUNIOR_DE; MID_DE]);
   ("sql_window_functions", [MID_DE; SENIOR_DE]);
   ("sql_ctes", [MID_DE; SENIOR_DE]);
   ("sql_optimization_basics", [MID_DE; SENIOR_DE]);
   ("query_optimization", [SENIOR_DE; STAFF_DE]);
   ("etl_concepts", [JUNIOR_DE]);
   ("etl_pipeline_design", [MID_DE; SENIOR_DE]);
   ("batch_processing", [MID_DE; SENIOR_DE]);
   ("incremental_loads", [MID_DE; SENIOR_DE]);
   ("spark_fundamentals", [MID_DE]);
   ("spark_dataframes", [MID_DE; SENIOR_DE]);
   ("spark_tuning", [SENIOR_DE; STAFF_DE]);
   ("data_skew_handling", [SENIOR_DE; STAFF_DE]);
   ("stream_processing", [SENIOR_DE; STAFF_DE]);
   ("kafka_architecture", [SENIOR_DE; STAFF_DE]);
   ("exactly_once_semantics", [SENIOR_DE; STAFF_DE]);
   ("airflow_basics", [MID_DE; SENIOR_DE]);
   ("dag_design", [MID_DE; SENIOR_DE]);
   ("distributed_computing", [SENIOR_DE; STAFF_DE]);
   ("cap_theorem", [SENIOR_DE; STAFF_DE]);
   ("data_platform_design", [SENIOR_DE; STAFF_DE]);
   ("lakehouse_architecture", [SENIOR_DE; STAFF_DE]);
   ("enterprise_data_architecture", [STAFF_DE; PRINCIPAL_DE]);
   ("data_governance", [STAFF_DE; PRINCIPAL_DE]);
   ("data_security", [SENIOR_DE; STAFF_DE]);
   ("data_observability", [SENIOR_DE; STAFF_DE]);
   ("pipeline_monitoring", [MID_DE; SENIOR_DE]);
   ("lineage_tracking", [SENIOR_DE; STAFF_DE]);
   ("data_quality_concepts", [MID_DE; SENIOR_DE]);
   ("data_testing", [MID_DE; SENIOR_DE]);
   ("data_contracts", [STAFF_DE; PRINCIPAL_DE]);
   ("cloud_fundamentals", [JUNIOR_DE]);
   ("cloud_data_services", [MID_DE; SENIOR_DE]);
   ("cloud_cost_optimization", [SENIOR_DE; STAFF_DE]);
   ("multi_cloud_strategy", [STAFF_DE; PRINCIPAL_DE]);
   ("git_basics", [JUNIOR_DE]);
   ("linux_cli_basics", [JUNIOR_DE]);
   ("python_fundamentals", [JUNIOR_DE; MID_DE])
  ].

Definition get_skills_for_role (r : Role) : list string :=
  map fst (filter (fun sk => r ∈ snd sk) SKILL_CATALOG).

(** ** The decision context ([InterviewContext]) *)

Record InterviewContext := mkInterviewContext {
  session : InterviewSession;
  recent_responses : list QuestionResponse;
  skills_covered : list string;
  skills_remaining : list string;
  performance_trend : string
}.

(** [l[-n:]] *)
Definition last_n {A} (n : nat) (l : list A) : list A :=
  drop (length l - n) l.

Definition dict_keys {V} (d : list (string * V)) : list string := map fst d.

(** [k in d] *)
Definition dict_mem {V} (k : string) (d : list (string * V)) : bool :=
  bool_decide (k ∈ dict_keys d).

(** [d[k].append(x)] for a key of [d]; nothing changes when [k] is absent. *)
Fixpoint dict_append {V} (k : string) (x : V) (d : list (string * list V))
  : list (string * list V) :=
  match d with
  | [] => []
  | (k', v) :: r =>
      if decide (k' = k) then (k', (v ++ [x])%list) :: r
      else (k', v) :: dict_append k x r
  end.

(** [{k: [] for k in keys}]: a repeated key keeps its first position. *)
Fixpoint dict_from_keys {V} (seen : list string) (keys : list string)
  : list (string * list V) :=
  match keys with
  | [] => []
  | k :: r =>
      if decide (k ∈ seen) then dict_from_keys seen r
      else (k, []) :: dict_from_keys (k :: seen) r
  end.

Definition is_nil {A} (l : list A) : bool :=
  match l with [] => true | _ => false end.

Definition _build_context (s : InterviewSession) : InterviewContext :=
  let scored : gset string :=
    list_to_set (dict_keys (filter (fun kv => negb (is_nil (snd kv))) (skill_scores s))) in
  let skills_covered := elements (asked_skills s ∪ scored) in
  let skills_remaining :=
    filter (fun k => k ∉ skills_covered) (dict_keys (skill_scores s)) in
  let trend :=
    if (3 <=? length (difficulty_history s))%nat
    then
      match last_n 3 (difficulty_history s) with
      | [first; _; last] =>
          if (first <? last)%Z then "improving"
          else if (last <? first)%Z then "declining"
          else "stable"
      | _ => "stable"
      end
    else "stable" in
  {| session := s;
     recent_responses := if is_nil (questions s) then [] else last_n 3 (questions s);
     skills_covered := skills_covered;
     skills_remaining := skills_remaining;
     performance_trend := trend |}.

(** ** Collaborators

    The orchestrator is handed its collaborators as objects of any type.
    Each method is modelled by its outcome on its arguments: it returns
    a value or raises. *)

Record AIReasoningLayer := mkAIReasoningLayer {
  generate_question : InterviewContext -> outcome Question;
  generate_followup : InterviewContext -> ResponseEvaluation -> outcome FollowUpDecision;
  ai_evaluate_response :
    Question -> string -> InterviewContext -> outcome ResponseEvaluation
}.

(** ** The evaluation engine ([src/core/evaluation_engine.py]) *)

Module EvaluationEngine.

Local Open Scope float_scope.

Definition float_of_nat (n : nat) : float :=
  PrimFloat.of_uint63 (Uint63.of_Z (Z.of_nat n)).

(** [min(a, b)] and [max(a, b)] of Python: the first argument unless
    the second is strictly smaller (larger). *)
Definition fmin (a b : float) : float := if PrimFloat.ltb b a then b else a.
Definition fmax (a b : float) : float := if PrimFloat.ltb a b then b else a.

(** [p in s] for strings *)
Fixpoint contains (p s : string) : bool :=
  String.prefix p s ||
  match s with
  | EmptyString => false
  | String _ r => contains p r
  end.

(** [s.count(c)] for a one-character [c] *)
Fixpoint count_char (c : ascii) (s : string) : nat :=
  match s with
  | EmptyString => 0
  | String d r => (if decide (c = d) then 1 else 0) + count_char c r
  end%nat.

(** [sum(1 for x in l if p x)] *)
Definition count_if {A} (p : A -> bool) (l : list A) : nat :=
  length (List.filter p l).

Definition technical_keywords : list string :=
  ["architecture"; "system"; "design"; "pipeline"; "data";
   "performance"; "scalability"; "distributed"; "consistency";
   "availability"; "latency"; "throughput"; "batch"; "streaming";
   "partition"; "replication"; "fault-tolerant"; "redundancy";
   "optimization"; "index"; "query"; "transformation"; "etl";
   "spark"; "kafka"; "airflow"; "sql"; "python"; "cloud"]%string.

Definition experience_keywords : list string :=
  ["experience"; "worked"; "implemented"; "built"; "designed";
   "led"; "managed"; "optimized"; "improved"; "solved";
   "production"; "deployed"; "migrated"; "scaled"]%string.

Definition structure_keywords : list string :=
  ["first"; "second"; "third"; "finally"; "additionally";
   "however"; "therefore"; "because"; "in my experience";
   "for example"; "specifically"; "in conclusion"]%string.

Definition hedging_words : list string :=
  ["maybe"; "perhaps"; "might"; "possibly"; "i think"; "i guess"]%string.

Record Analysis := mkAnalysis {
  word_count : nat;
  sentence_count : nat;
  an_technical_keywords : nat;
  an_experience_keywords : nat;
  an_structure_keywords : nat;
  technical_score : float;
  depth_score : float;
  practical_score : float;
  clarity_score : float;
  confidence_score : float;
  estimated_duration : float
}.

Definition _analyze_response (transcript : string) : Analysis :=
  let words := PyStr.split transcript in
  let word_count := length words in
  let sentence_count :=
    (count_char "." transcript + count_char "?" transcript
     + count_char "!" transcript)%nat in
  let lowered := PyStr.lower transcript in
  let tech_count :=
    count_if (fun w => bool_decide (PyStr.lower w ∈ technical_keywords)) words in
  let exp_count :=
    count_if (fun kw => contains (PyStr.lower kw) lowered) experience_keywords in
  let struct_count :=
    count_if (fun kw => contains (PyStr.lower kw) lowered) structure_keywords in
  let length_score :=
    if (word_count <? 30)%nat then 3.0
    else if (word_count <? 50)%nat then 4.0
    else if (word_count <? 100)%nat then 5.0
    else if (word_count <? 200)%nat then 6.5
    else if (word_count <? 300)%nat then 7.0
    else if (word_count <? 500)%nat then 6.5
    else 5.5 in
  let tech_ratio :=
    float_of_nat tech_count / float_of_nat (Nat.max word_count 1) * 100 in
  let tech_score :=
    if PrimFloat.ltb 5 tech_ratio
    then fmin 9.0 (6.0 + tech_ratio / 2)
    else fmax 3.0 (5.0 + tech_ratio) in
  let practical_score := fmin 8.0 (4.0 + float_of_nat exp_count * 0.8) in
  let clarity_score :=
    fmin 8.0 (5.0 + float_of_nat struct_count * 0.5
              + fmin (float_of_nat sentence_count / 3) 2) in
  let hedge_count := count_if (fun hw => contains hw lowered) hedging_words in
  let confidence_score := fmax 4.0 (7.0 - float_of_nat hedge_count * 0.5) in
  let depth_score := (tech_score + length_score) / 2 in
  {| word_count := word_count;
     sentence_count := sentence_count;
     an_technical_keywords := tech_count;
     an_experience_keywords := exp_count;
     an_structure_keywords := struct_count;
     technical_score := fmin 10.0 tech_score;
     depth_score := fmin 10.0 depth_score;
     practical_score := fmin 10.0 practical_score;
     clarity_score := fmin 10.0 clarity_score;
     confidence_score := fmin 10.0 confidence_score;
     estimated_duration := float_of_nat word_count / 2.5 |}.

(** [l or d] for lists *)
Definition list_or {A} (l d : list A) : list A := if is_nil l then d else l.

Definition when_ (b : bool) (x : string) : list string := if b then [x] else [].

Definition _generate_heuristic_feedback (analysis : Analysis) : EvaluationFeedback :=
  let what_went_well :=
    (when_ (5 <? an_technical_keywords analysis)%nat "Good use of technical terminology"
     ++ when_ (2 <? an_experience_keywords analysis)%nat "Drew from practical experience"
     ++ when_ (2 <? an_structure_keywords analysis)%nat "Well-structured response"
     ++ when_ ((100 <=? word_count analysis)%nat && (word_count analysis <=? 300)%nat)
          "Appropriate level of detail")%list in
  let what_was_missing :=
    (when_ (an_technical_keywords analysis <? 3)%nat "Could include more technical details"
     ++ when_ (an_experience_keywords analysis <? 2)%nat "Limited evidence of hands-on experience"
     ++ when_ (word_count analysis <? 50)%nat "Response was too brief"
     ++ when_ (400 <? word_count analysis)%nat "Response was too verbose"
     ++ when_ (an_structure_keywords analysis <? 2)%nat "Could be better structured")%list in
  let improvement_suggestions :=
    (when_ (an_technical_keywords analysis <? 3)%nat "Use specific technical terms and concepts"
     ++ when_ (an_experience_keywords analysis <? 2)%nat "Include specific examples from your work"
     ++ when_ (word_count analysis <? 50)%nat "Elaborate on your points with examples"
     ++ when_ (400 <? word_count analysis)%nat "Be more concise and focused"
     ++ when_ (an_structure_keywords analysis <? 2)%nat "Organize your answer with clear sections")%list in
  {| what_went_well := list_or what_went_well ["Response provided"%string];
     what_was_missing := what_was_missing;
     fb_red_flags := [];
     seniority_signals := [];
     improvement_suggestions := improvement_suggestions |}.

Definition _calculate_difficulty_delta (overall : float) : Z :=
  if PrimFloat.leb 8.5 overall then 2%Z
  else if PrimFloat.leb 7.0 overall then 1%Z
  else if PrimFloat.leb 5.0 overall then 0%Z
  else if PrimFloat.leb 3.0 overall then (-1)%Z
  else (-2)%Z.

Definition _heuristic_evaluation
    (question_id transcript : string) (context : InterviewContext)
  : ResponseEvaluation :=
  let analysis := _analyze_response transcript in
  let scores :=
    {| technical_correctness := technical_score analysis;
       depth_of_understanding := depth_score analysis;
       practical_experience := practical_score analysis;
       communication_clarity := clarity_score analysis;
       confidence := confidence_score analysis |} in
  let feedback := _generate_heuristic_feedback analysis in
  let needs_followup := PrimFloat.ltb (overall_score scores) 6.0 in
  {| ev_question_id := question_id;
     ev_skill_id :=
       match skills_remaining context with
       | first :: _ => first
       | [] => "general"%string
       end;
     ev_transcript := transcript;
     response_duration_seconds := estimated_duration analysis;
     scores := scores;
     feedback := feedback;
     needs_followup := needs_followup;
     ev_followup_reason :=
       if needs_followup then Some "Response could use more depth"%string else None;
     followup_type := None;
     difficulty_delta := _calculate_difficulty_delta (overall_score scores);
     evaluator_notes := None |}.

(** The engine holds the AI layer it was built with, if any. *)
Record t := mk { ai_reasoning : option AIReasoningLayer }.

Definition evaluate_response
    (self : t) (question_id transcript : string)
    (context : InterviewContext) (question : option Question)
  : outcome ResponseEvaluation :=
  match ai_reasoning self, question with
  | Some ai, Some q => ai_evaluate_response ai q transcript context
  | _, _ => Returned (_heuristic_evaluation question_id transcript context)
  end.

End EvaluationEngine.

(** ** The audio processor ([src/core/audio_processor.py])

    The dictionary a synthesis returns.  The payload is kept as the bytes
    the engine produced (the source stores their base64 text). *)

Record AudioData := mkAudioData {
  audio_data : string;
  format : string;
  sample_rate : Z;
  duration_seconds : float;
  url : option string;
  error : option string
}.

(** What the orchestrator asks of the audio collaborator it is handed. *)
Record AudioCollaborator := mkAudioCollaborator {
  text_to_speech : string -> outcome AudioData;
  speech_to_text : string -> outcome string
}.

Module AudioProcessor.

Record Settings := mkSettings {
  tts_model : string;
  tts_voice : string;
  tts_rate : Z;
  use_local_whisper : bool
}.

(** The processor with the engines it drives.  An engine call returns
    the synthesised bytes (the transcribed text) or raises: a missing
    package raises [ImportError] at the [import] that opens each path. *)
Record t := mk {
  settings : Settings;
  kokoro : string -> string -> outcome string;
  piper : string -> string -> outcome string;
  edge_tts : string -> string -> outcome string;
  whisper_local : string -> string -> outcome string;
  whisper_api : string -> string -> outcome string
}.

(** [len(text.split()) / 150 * 60] *)
Definition estimate_duration (text : string) : float :=
  (EvaluationEngine.float_of_nat (length (PyStr.split text)) / 150 * 60)%float.

Definition edge_voice (voice : string) : string :=
  if decide (voice = "male") then "en-US-GuyNeural"
  else if decide (voice = "female") then "en-US-JennyNeural"
  else if decide (voice = "professional") then "en-US-AriaNeural"
  else if decide (voice = "default") then "en-US-GuyNeural"
  else "en-US-GuyNeural".

Definition _tts_edge (self : t) (text voice : string) : AudioData :=
  match edge_tts self text (edge_voice voice) with
  | Returned bytes =>
      {| audio_data := bytes; format := "mp3"; sample_rate := 24000;
         duration_seconds := estimate_duration text;
         url := None; error := None |}
  | Raised (ImportError _) =>
      {| audio_data := ""; format := "wav";
         sample_rate := tts_rate (settings self);
         duration_seconds := 0%float;
         url := None; error := Some "TTS not available" |}
  | Raised e =>
      {| audio_data := ""; format := "wav";
         sample_rate := tts_rate (settings self);
         duration_seconds := 0%float;
         url := None; error := Some (exn_message e) |}
  end.

Definition _tts_kokoro (self : t) (text voice : string) : AudioData :=
  match kokoro self text voice with
  | Returned bytes =>
      {| audio_data := bytes; format := "wav";
         sample_rate := tts_rate (settings self);
         duration_seconds := estimate_duration text;
         url := None; error := None |}
  | Raised _ => _tts_edge self text voice
  end.

Definition _tts_piper (self : t) (text voice : string) : AudioData :=
  match piper self text voice with
  | Returned bytes =>
      {| audio_data := bytes; format := "wav";
         sample_rate := tts_rate (settings self);
         duration_seconds := estimate_duration text;
         url := None; error := None |}
  | Raised _ => _tts_edge self text voice
  end.

Definition text_to_speech (self : t) (text : string) (voice : option string)
  : AudioData :=
  let tts_model := PyStr.lower (tts_model (settings self)) in
  let voice := PyStr.or_else voice (tts_voice (settings self)) in
  if decide (tts_model = "kokoro") then _tts_kokoro self text voice
  else if decide (tts_model = "piper") then _tts_piper self text voice
  else if decide (tts_model = "edge-tts") then _tts_edge self text voice
  else _tts_edge self text voice.

(** Both transcription paths log the failure and raise it again. *)
Definition speech_to_text (self : t) (audio language : string) : outcome string :=
  let engine :=
    if use_local_whisper (settings self) then whisper_local self
    else whisper_api self in
  match engine audio language with
  | Returned text => Returned (PyStr.strip text)
  | Raised e => Raised e
  end.

(** The processor as the orchestrator calls it:
    [text_to_speech(text)] and [speech_to_text(audio)], other arguments
    at their defaults. *)
Definition as_collaborator (self : t) : AudioCollaborator :=
  mkAudioCollaborator
    (fun text => Returned (text_to_speech self text None))
    (fun audio => speech_to_text self audio "en").

End AudioProcessor.

(** ** Reports ([src/models/report.py]), as far as the orchestrator
    builds them itself *)

Record InterviewReport := mkInterviewReport {
  rp_session_id : string;
  rp_target_role : Role;
  rp_years_of_experience : Z;
  interview_duration_minutes : float;
  rp_overall_score : float;
  overall_score_interpretation : string;
  hiring_verdict : string;
  role_readiness : string;
  role_readiness_explanation : string;
  top_strengths : list string;
  areas_for_improvement : list string;
  missed_concepts : list string;
  communication_feedback : string
}.

Record ReportGenerator := mkReportGenerator {
  generate : InterviewSession -> outcome InterviewReport
}.

(** ** The orchestrator's world

    [_sessions] is the dictionary of the orchestrator.  A session object
    is named by the key it is stored under: an attribute assignment on
    the object is an update at that key.  The clock, the random source
    and the log are the environment the source reads and writes. *)

Inductive Event :=
  | TraceStarted (sid : string)
  | TraceEnded (sid : string) (final_state : string)
  | Logged (level : string) (msg : string).

Record Env := mkEnv {
  _sessions : gmap string InterviewSession;
  clock : Z;
  entropy : list nat;
  journal : list Event
}.

Definition M (A : Type) : Type := Env -> Env * outcome A.

Definition ret {A} (a : A) : M A := fun w => (w, Returned a).

Definition raise {A} (e : exn) : M A := fun w => (w, Raised e).

Definition bind {A B} (m : M A) (k : A -> M B) : M B :=
  fun w =>
    match m w with
    | (w', Returned a) => k a w'
    | (w', Raised e) => (w', Raised e)
    end.

Definition lift {A} (o : outcome A) : M A := fun w => (w, o).

Declare Scope orch_scope.
Delimit Scope orch_scope with orch.
Notation "x <- m ;; k" := (bind m (fun x => k))
  (at level 20, m at level 99, k at level 200, only parsing) : orch_scope.
Notation "m ;; k" := (bind m (fun _ => k))
  (at level 100, k at level 200, right associativity, only parsing) : orch_scope.
Local Open Scope orch_scope.

Definition with_sessions (f : gmap string InterviewSession -> gmap string InterviewSession)
    (w : Env) : Env :=
  {| _sessions := f (_sessions w); clock := clock w;
     entropy := entropy w; journal := journal w |}.

(** [self._sessions.get(session_id)] *)
Definition get_session (session_id : string) : M (option InterviewSession) :=
  fun w => (w, Returned (_sessions w !! session_id)).

(** The object behind a reference the caller holds. *)
Definition the_session (h : string) : M InterviewSession :=
  fun w =>
    match _sessions w !! h with
    | Some s => (w, Returned s)
    | None => (w, Raised (RuntimeError "dangling session reference"))
    end.

(** An assignment to (or a mutating method of) the session object [h]. *)
Definition modify_session (h : string) (f : InterviewSession -> InterviewSession)
  : M unit :=
  fun w => (with_sessions (alter f h) w, Returned tt).

(** [self._sessions[session.session_id] = session] for the object [h]. *)
Definition update_session (h : string) : M unit :=
  fun w =>
    match _sessions w !! h with
    | Some s => (with_sessions (insert (session_id s) s) w, Returned tt)
    | None => (w, Raised (RuntimeError "dangling session reference"))
    end.

(** [datetime.utcnow()]: the clock is read and moves on. *)
Definition utcnow : M datetime :=
  fun w =>
    ({| _sessions := _sessions w; clock := (clock w + 1)%Z;
        entropy := entropy w; journal := journal w |},
     Returned (clock w)).

(** The next draw of the random source ([0] once it is exhausted). *)
Definition draw : M nat :=
  fun w =>
    match entropy w with
    | [] => (w, Returned 0%nat)
    | n :: r =>
        ({| _sessions := _sessions w; clock := clock w;
            entropy := r; journal := journal w |}, Returned n)
    end.

Definition emit (e : Event) : M unit :=
  fun w =>
    ({| _sessions := _sessions w; clock := clock w;
        entropy := entropy w; journal := (journal w ++ [e])%list |},
     Returned tt).

(** [for callback in callbacks: try: await callback(..) except Exception
    as e: logger.error(..)] *)
Fixpoint notify {X} (label : string) (callbacks : list (X -> outcome unit)) (x : X)
  : M unit :=
  match callbacks with
  | [] => ret tt
  | callback :: rest =>
      match callback x with
      | Returned _ => ret tt
      | Raised e => emit (Logged "error" (label ++ exn_message e))
      end ;;
      notify label rest x
  end.

(** ** The orchestrator ([src/core/interview_orchestrator.py]) *)

Definition VALID_TRANSITIONS (s : InterviewState) : list InterviewState :=
  match s with
  | SETUP => [READY; CANCELLED]
  | READY => [ASKING; CANCELLED; COMPLETE]
  | ASKING => [LISTENING; PAUSED; ERROR; COMPLETE]
  | LISTENING => [PROCESSING; PAUSED; ERROR; COMPLETE]
  | PROCESSING => [EVALUATING; ERROR; COMPLETE]
  | EVALUATING => [DECIDING; ERROR; COMPLETE]
  | DECIDING => [ASKING; COMPLETE; ERROR]
  | COMPLETE => [GENERATING_REPORT]
  | GENERATING_REPORT => [FINISHED; ERROR]
  | PAUSED => [ASKING; LISTENING; CANCELLED; COMPLETE]
  | ERROR => [CANCELLED]
  | FINISHED => []
  | CANCELLED => []
  end.

Record InterviewOrchestrator := mkInterviewOrchestrator {
  ai_reasoning : option AIReasoningLayer;
  audio_processor : option AudioCollaborator;
  evaluation_engine : option EvaluationEngine.t;
  report_generator : option ReportGenerator;
  _state_change_callbacks :
    list (string * InterviewState * InterviewState -> outcome unit);
  _question_callbacks : list (string * Question -> outcome unit);
  _evaluation_callbacks : list (string * ResponseEvaluation -> outcome unit)
}.

(** What an operation of the flow returns: the dictionaries keyed by
    ["action"]. *)
Inductive Action :=
  | ActComplete (message : string)
  | ActQuestion (question_id question_text : string)
                (question_number total_questions difficulty : Z)
                (audio : option AudioData)
  | ActFollowup (question_id question_text followup_reason : string)
                (audio : option AudioData)
  | ActEnded (reason : string) (questions_completed : Z).

(** Modelled from the spec: [start_interview_trace] and
    [end_interview_trace] are called on the AI layer but defined nowhere
    under [src/]; following the tracing sink of the specification they
    are fire-and-forget: the call is recorded and never raises. *)
Definition start_interview_trace (session_id : string) : M unit :=
  emit (TraceStarted session_id).

(** Modelled from the spec: the closing call of the same sink, with the
    final state of its metadata. *)
Definition end_interview_trace (session_id final_state : string) : M unit :=
  emit (TraceEnded session_id final_state).

Definition is_some {A} (o : option A) : bool :=
  match o with Some _ => true | None => false end.

Section Orchestrator.

Variable self : InterviewOrchestrator.

(** The session [create_session] builds from the drawn token and the
    instant of creation.  The identifier [str(uuid4())] is a token of
    the random source. *)
Definition created_session (token : nat) (now : datetime)
    (setup : InterviewSetup) : InterviewSession :=
  let sid := "session-" ++ pretty token in
  let session := new_session sid setup now in
  let skill_ids := get_skills_for_role (target_role setup) in
  let skill_ids :=
    if is_nil (include_skills setup) then skill_ids
    else filter (fun s => s ∈ include_skills setup) skill_ids in
  let skill_ids :=
    if is_nil (exclude_skills setup) then skill_ids
    else filter (fun s => s ∉ exclude_skills setup) skill_ids in
  let session := set_skill_scores (dict_from_keys [] skill_ids) session in
  set_current_difficulty
    (match target_role setup with
     | JUNIOR_DE => 3 | MID_DE => 5 | SENIOR_DE => 7
     | STAFF_DE => 8 | PRINCIPAL_DE => 9
     end)%Z session.

Definition create_session (setup : InterviewSetup) : M InterviewSession :=
  token <- draw ;;
  now <- utcnow ;;
  let session := created_session token now setup in
  (fun w => (with_sessions (insert (session_id session) session) w, Returned tt)) ;;
  emit (Logged "info" ("Created interview session: " ++ session_id session)) ;;
  ret session.

Definition transition_state
    (session_id : string) (new_state : InterviewState)
    (error_message : option string) : M InterviewSession :=
  found <- get_session session_id ;;
  match found with
  | None => raise (ValueError ("Session not found: " ++ session_id))
  | Some session =>
      let old_state := state session in
      let valid_next_states := VALID_TRANSITIONS old_state in
      if negb (bool_decide (new_state ∈ valid_next_states))
      then
        raise (StateTransitionError
                 ("Invalid transition from " ++ state_str old_state
                  ++ " to " ++ state_str new_state ++ ". "
                  ++ "Valid transitions: " ++ states_str valid_next_states))
      else
        modify_session session_id (set_state new_state) ;;
        match new_state with
        | READY =>
            now <- utcnow ;;
            modify_session session_id (set_started_at (Some now))
        | COMPLETE =>
            now <- utcnow ;;
            modify_session session_id (set_completed_at (Some now)) ;;
            if is_some (ai_reasoning self)
            then end_interview_trace session_id "complete"
            else ret tt
        | ERROR =>
            modify_session session_id (set_error_message error_message) ;;
            if is_some (ai_reasoning self)
            then end_interview_trace session_id "error"
            else ret tt
        | _ => ret tt
        end ;;
        update_session session_id ;;
        notify "State change callback error: " (_state_change_callbacks self)
          (session_id, old_state, new_state) ;;
        emit (Logged "info"
                ("Session " ++ session_id ++ ": " ++ state_str old_state
                 ++ " → " ++ state_str new_state)) ;;
        the_session session_id
  end.

Definition question_pool : list (string * QuestionCategory * string) :=
 [
  ("How would you optimize a complex SQL query that's running slowly on a large dataset?",
   CAT_SQL, "sql_optimization_basics");
  ("Explain window functions and provide an example of when you'd use them.",
   CAT_SQL, "sql_window_functions");
  ("How do you handle NULL values in SQL aggregations?",
   CAT_SQL, "sql_aggregations");
  ("Design an ETL pipeline for processing 10 million records daily.",
   CAT_ETL, "etl_pipeline_design");
  ("What's your approach to handling schema changes in a production pipeline?",
   CAT_ETL, "schema_evolution");
  ("How would you implement idempotent data loading?",
   CAT_ETL, "incremental_loads");
  ("How would you optimize a slow-running Spark job?",
   CAT_SPARK, "spark_tuning");
  ("Explain how Spark handles data partitioning and why it matters.",
   CAT_SPARK, "spark_partitioning");
  ("What strategies do you use for handling data skew in Spark?",
   CAT_SPARK, "data_skew_handling");
  ("Design a real-time analytics system for an e-commerce platform.",
   CAT_SYSTEM_DESIGN, "data_platform_design");
  ("How would you architect a data platform that scales from 100GB to 10TB daily?",
   CAT_SYSTEM_DESIGN, "data_platform_design");
  ("What are the key considerations when choosing between batch and streaming?",
   CAT_SYSTEM_DESIGN, "stream_processing");
  ("Explain the CAP theorem and how it applies to data systems.",
   CAT_DISTRIBUTED, "cap_theorem");
  ("How do you ensure data consistency in an event-driven architecture?",
   CAT_DISTRIBUTED, "distributed_computing");
  ("Describe strategies for handling failures in distributed pipelines.",
   CAT_DISTRIBUTED, "distributed_computing");
  ("Describe your approach to data quality validation in production.",
   CAT_DATA_MODELING, "data_quality_concepts");
  ("How would you implement data lineage tracking?",
   CAT_OBSERVABILITY, "lineage_tracking");
  ("What factors do you consider when optimizing cloud costs for data workloads?",
   CAT_CLOUD, "cloud_cost_optimization");
  ("Compare data lakes and data warehouses - when would you use each?",
   CAT_CLOUD, "cloud_data_services");
  ("How do you design reliable DAGs in Airflow?",
   CAT_ORCHESTRATION, "dag_design");
  ("What's your approach to monitoring and alerting for data pipelines?",
   CAT_OBSERVABILITY, "pipeline_monitoring")
 ].

(** [random.choice(l)] on a non-empty list. *)
Definition random_choice {A} (d : A) (l : list A) : M A :=
  n <- draw ;;
  ret (nth (n mod length l) l d).

Definition _generate_mock_question (h : string) : M Question :=
  session <- the_session h ;;
  let available_questions :=
    filter (fun e => negb (is_question_asked (fst (fst e)) session)) question_pool in
  let available_questions :=
    if is_nil available_questions then question_pool else available_questions in
  choice <- random_choice ("", CAT_SQL, "") available_questions ;;
  let '(q_text, category, skill_id) := choice in
  token <- draw ;;
  ret {| q_id := "q_" ++ pretty token;
         q_text := q_text;
         q_category := category;
         q_skill_id := skill_id;
         q_question_type := SCENARIO;
         q_difficulty := MEDIUM;
         q_difficulty_score := current_difficulty session;
         q_target_roles := [target_role (setup session)];
         q_expected_points :=
           ["Clear explanation"; "Practical considerations"; "Trade-offs"] |}.

(** The audio of a question: [audio_data] and the record with its
    [question_audio_url] set from it. *)
Definition synthesize (text : string) (record : QuestionResponse)
  : M (option AudioData * QuestionResponse) :=
  match audio_processor self with
  | Some processor =>
      audio_data <- lift (text_to_speech processor text) ;;
      ret (Some audio_data, set_question_audio_url (url audio_data) record)
  | None => ret (None, record)
  end.

Definition ask_next_question (session_id : string) : M Action :=
  found <- get_session session_id ;;
  match found with
  | None => raise (ValueError ("Session not found: " ++ session_id))
  | Some session =>
      if should_end_interview session
      then
        transition_state session_id COMPLETE None ;;
        ret (ActComplete "Interview complete")
      else
        transition_state session_id ASKING None ;;
        session <- the_session session_id ;;
        let context := _build_context session in
        question <-
          match ai_reasoning self with
          | Some ai => lift (generate_question ai context)
          | None => _generate_mock_question session_id
          end ;;
        now <- utcnow ;;
        let question_response :=
          new_question_response (q_id question) (q_text question)
            (Some (q_skill_id question)) now false None None in
        spoken <- synthesize (q_text question) question_response ;;
        let '(audio_data, question_response) := spoken in
        modify_session session_id (add_question question_response) ;;
        update_session session_id ;;
        notify "Question callback error: " (_question_callbacks self)
          (session_id, question) ;;
        transition_state session_id LISTENING None ;;
        session <- the_session session_id ;;
        ret (ActQuestion (q_id question) (q_text question)
               (total_core_questions_asked session)
               (max_questions (setup session))
               (current_difficulty session)
               audio_data)
  end.

Definition start_interview (session_id : string) : M Action :=
  found <- get_session session_id ;;
  match found with
  | None => raise (ValueError ("Session not found: " ++ session_id))
  | Some session =>
      (if is_some (ai_reasoning self)
       then start_interview_trace session_id
       else ret tt) ;;
      transition_state session_id READY None ;;
      ask_next_question session_id
  end.

Definition _generate_mock_followup (evaluation : ResponseEvaluation)
  : FollowUpDecision :=
  {| should_followup := true;
     fu_reason := PyStr.or_else (ev_followup_reason evaluation) "Need more depth";
     fu_followup_type := Some "probe";
     followup_question :=
       Some "Can you provide a specific example from your experience?";
     difficulty_adjustment := 0 |}.

Definition _ask_followup (h : string) (evaluation : ResponseEvaluation)
  : M Action :=
  followup <-
    match ai_reasoning self with
    | Some ai =>
        session <- the_session h ;;
        lift (generate_followup ai (_build_context session) evaluation)
    | None => ret (_generate_mock_followup evaluation)
    end ;;
  session <- the_session h ;;
  current <- lift (get_current_question session) ;;
  let followup_text :=
    PyStr.or_else (followup_question followup) "Can you elaborate on that?" in
  let looks_like_json :=
    PyStr.startswith "{" (PyStr.strip followup_text)
    || PyStr.startswith "[" (PyStr.strip followup_text) in
  (if looks_like_json
   then emit (Logged "warning" "Follow-up question looks like JSON, using fallback")
   else ret tt) ;;
  let followup_text :=
    if looks_like_json
    then "Can you provide a specific example from your experience?"
    else followup_text in
  match current with
  | None =>
      raise (AttributeError "'NoneType' object has no attribute 'question_id'")
  | Some current_question =>
      now <- utcnow ;;
      let followup_response :=
        new_question_response
          (question_id current_question ++ "_followup_"
           ++ pretty (total_followups_asked session + 1)%Z)
          followup_text
          (skill_id current_question)
          now true
          (Some (question_id current_question))
          (Some (fu_reason followup)) in
      spoken <- synthesize (question_text followup_response) followup_response ;;
      let '(audio_data, followup_response) := spoken in
      modify_session h (add_question followup_response) ;;
      update_session h ;;
      transition_state (session_id session) ASKING None ;;
      transition_state (session_id session) LISTENING None ;;
      ret (ActFollowup (question_id followup_response)
             (question_text followup_response)
             (fu_reason followup)
             audio_data)
  end.

Definition float_of_Z (z : Z) : float :=
  if (z <? 0)%Z
  then PrimFloat.opp (PrimFloat.of_uint63 (Uint63.of_Z (- z)))
  else PrimFloat.of_uint63 (Uint63.of_Z z).

Definition _generate_mock_evaluation
    (question : QuestionResponse) (transcript : option string)
  : ResponseEvaluation :=
  let length := PyStr.len (default "" transcript) in
  let base_score :=
    EvaluationEngine.fmin 8 (EvaluationEngine.fmax 3 (float_of_Z length / 100))%float in
  {| ev_question_id := question_id question;
     ev_skill_id := "data_platform_design";
     ev_transcript := default "" transcript;
     response_duration_seconds := 30.0%float;
     scores :=
       {| technical_correctness := base_score;
          depth_of_understanding := (base_score - 0.5)%float;
          practical_experience := (base_score - 1)%float;
          communication_clarity := (base_score + 0.5)%float;
          confidence := base_score |};
     feedback :=
       {| what_went_well := ["Clear communication"];
          what_was_missing := ["Could elaborate more on trade-offs"];
          fb_red_flags := [];
          seniority_signals := ["Shows practical experience"];
          improvement_suggestions := [] |};
     needs_followup := PrimFloat.ltb base_score 6;
     ev_followup_reason :=
       if PrimFloat.ltb base_score 6
       then Some "Response could use more depth" else None;
     followup_type := None;
     difficulty_delta :=
       if PrimFloat.ltb 7 base_score then 1
       else if PrimFloat.ltb base_score 4 then (-1) else 0;
     evaluator_notes := None |}.

(** [sum(l)], adding from the left. *)
Definition fsum (l : list float) : float :=
  fold_left PrimFloat.add l 0%float.

Definition _update_running_scores
    (evaluation : ResponseEvaluation) (session : InterviewSession)
  : InterviewSession :=
  let session :=
    if dict_mem (ev_skill_id evaluation) (skill_scores session)
    then set_skill_scores
           (dict_append (ev_skill_id evaluation)
              (overall_score (scores evaluation)) (skill_scores session))
           session
    else session in
  let all_scores := concat (map snd (skill_scores session)) in
  if is_nil all_scores then session
  else set_running_score
         (fsum all_scores / EvaluationEngine.float_of_nat (length all_scores))%float
         session.

(** An assignment to an attribute of the question object at position
    [i] of the session's list. *)
Definition modify_question (h : string) (i : nat)
    (f : QuestionResponse -> QuestionResponse) : M unit :=
  modify_session h (fun s => set_questions (alter f i (questions s)) s).

(** The difficulty adaptation of the decision policy. *)
Definition adapt_difficulty (delta : Z) (s : InterviewSession) : InterviewSession :=
  let s :=
    set_current_difficulty
      (Z.max 1 (Z.min 10 (current_difficulty s + delta))) s in
  set_difficulty_history (difficulty_history s ++ [current_difficulty s]) s.

(** The test that opens [_decide_next_action]. *)
Definition wants_followup (evaluation : ResponseEvaluation)
    (session : InterviewSession) : bool :=
  needs_followup evaluation
  && bool_decide (mode_value (mode (setup session)) = "structured_followup")
  && (total_followups_asked session <? max_questions (setup session) * 2)%Z.

(** What [_decide_next_action] does when it asks no follow-up: adapt
    the difficulty, then end the interview or ask the next question. *)
Definition adapt_and_continue (h : string) (evaluation : ResponseEvaluation)
  : M Action :=
  modify_session h (adapt_difficulty (difficulty_delta evaluation)) ;;
  update_session h ;;
  session <- the_session h ;;
  if should_end_interview session
  then
    transition_state (session_id session) COMPLETE None ;;
    ret (ActComplete "Interview complete")
  else ask_next_question (session_id session).

Definition _decide_next_action (h : string) (evaluation : ResponseEvaluation)
  : M Action :=
  session <- the_session h ;;
  if wants_followup evaluation session
  then _ask_followup h evaluation
  else adapt_and_continue h evaluation.

Definition submit_response
    (session_id : string) (audio_data transcript : option string) : M Action :=
  found <- get_session session_id ;;
  match found with
  | None => raise (ValueError ("Session not found: " ++ session_id))
  | Some session =>
      current <- lift (get_current_question session) ;;
      match current with
      | None => raise (ValueError "No active question")
      | Some current_question =>
          let i := py_position (questions session) (current_question_index session) in
          transition_state session_id PROCESSING None ;;
          transcript <-
            (if negb (PyStr.truthy transcript) && PyStr.truthy audio_data
             then
               match audio_processor self with
               | Some processor =>
                   text <- lift (speech_to_text processor (default "" audio_data)) ;;
                   ret (Some text)
               | None => ret (Some "[Transcription unavailable]")
               end
             else ret transcript) ;;
          modify_question session_id i (set_response_transcript transcript) ;;
          now <- utcnow ;;
          modify_question session_id i (set_response_completed_at (Some now)) ;;
          modify_session session_id
            (add_response_to_context (PyStr.or_else transcript "")) ;;
          transition_state session_id EVALUATING None ;;
          evaluation <-
            match evaluation_engine self with
            | Some engine =>
                session <- the_session session_id ;;
                lift (EvaluationEngine.evaluate_response engine
                        (question_id current_question)
                        (PyStr.or_else transcript "")
                        (_build_context session) None)
            | None => ret (_generate_mock_evaluation current_question transcript)
            end ;;
          modify_question session_id i (set_evaluation (Some evaluation)) ;;
          modify_session session_id (_update_running_scores evaluation) ;;
          update_session session_id ;;
          notify "Evaluation callback error: " (_evaluation_callbacks self)
            (session_id, evaluation) ;;
          transition_state session_id DECIDING None ;;
          _decide_next_action session_id evaluation
      end
  end.

Definition end_interview (session_id reason : string) : M Action :=
  found <- get_session session_id ;;
  match found with
  | None => raise (ValueError ("Session not found: " ++ session_id))
  | Some _ =>
      now <- utcnow ;;
      modify_session session_id (set_completed_at (Some now)) ;;
      update_session session_id ;;
      transition_state session_id COMPLETE None ;;
      session <- the_session session_id ;;
      ret (ActEnded reason (Z.of_nat (length (questions session))))
  end.

(** [session.get_duration_seconds()], instants counted in seconds. *)
Definition get_duration_seconds (h : string) : M float :=
  session <- the_session h ;;
  match started_at session with
  | None => ret 0%float
  | Some started =>
      finish <-
        match completed_at session with
        | Some t => ret t
        | None => utcnow
        end ;;
      ret (float_of_Z (finish - started))
  end.

Definition _generate_mock_report (h : string) : M InterviewReport :=
  session <- the_session h ;;
  duration <- get_duration_seconds h ;;
  let overall := (running_score session * 10)%float in
  if PrimFloat.leb 0 overall && PrimFloat.leb overall 100
  then
    ret {| rp_session_id := session_id session;
           rp_target_role := target_role (setup session);
           rp_years_of_experience := years_of_experience (setup session);
           interview_duration_minutes := (duration / 60)%float;
           rp_overall_score := overall;
           overall_score_interpretation :=
             "Good performance with room for improvement";
           hiring_verdict := "HIRE";
           role_readiness := "ALMOST_READY";
           role_readiness_explanation :=
             "Shows solid fundamentals with some gaps in advanced topics.";
           top_strengths := ["Clear communication"; "Good practical examples"];
           areas_for_improvement :=
             ["Deeper understanding of distributed systems"];
           missed_concepts := ["CAP theorem nuances"];
           communication_feedback := "Communicates clearly and concisely." |}
  else raise (ValidationError "overall_score").

Definition generate_report (session_id : string) : M InterviewReport :=
  found <- get_session session_id ;;
  match found with
  | None => raise (ValueError ("Session not found: " ++ session_id))
  | Some session =>
      if negb (bool_decide (state session ∈ [COMPLETE; GENERATING_REPORT]))
      then raise (ValueError "Interview must be complete to generate report")
      else
        transition_state session_id GENERATING_REPORT None ;;
        report <-
          match report_generator self with
          | Some generator =>
              session <- the_session session_id ;;
              lift (generate generator session)
          | None => _generate_mock_report session_id
          end ;;
        transition_state session_id FINISHED None ;;
        ret report
  end.

End Orchestrator.

(** * Notions the properties are stated with *)

(** ** What can happen to a session

    Every assignment the orchestrator makes to a stored session object,
    one constructor per kind.  [api_call_evolves] shows that the
    operations of the orchestrator change stored sessions by these steps
    only. *)

Inductive question_step : QuestionResponse -> QuestionResponse -> Prop :=
  | qstep_transcript v q : question_step q (set_response_transcript v q)
  | qstep_completed_at v q : question_step q (set_response_completed_at v q)
  | qstep_evaluation v q : question_step q (set_evaluation v q).

Inductive session_step : InterviewSession -> InterviewSession -> Prop :=
  | step_add_question q s : session_step s (add_question q s)
  | step_add_response r s : session_step s (add_response_to_context r s)
  | step_state v s : session_step s (set_state v s)
  | step_started_at v s : session_step s (set_started_at v s)
  | step_completed_at v s : session_step s (set_completed_at v s)
  | step_error_message v s : session_step s (set_error_message v s)
  | step_question i f s :
      (forall q, question_step q (f q)) ->
      session_step s (set_questions (alter f i (questions s)) s)
  | step_scores ev s : session_step s (_update_running_scores ev s)
  | step_adapt delta s : session_step s (adapt_difficulty delta s).

(** The session evolves: any number of steps. *)
Definition evolves : InterviewSession -> InterviewSession -> Prop :=
  rtc session_step.

(** The number of core (non-follow-up) entries of a question list. *)
Definition count_core (l : list QuestionResponse) : Z :=
  Z.of_nat (length (List.filter (fun q => negb (is_followup q)) l)).

Definition counters_partition (s : InterviewSession) : Prop :=
  (total_core_questions_asked s + total_followups_asked s
   = Z.of_nat (length (questions s)))%Z
  /\ total_core_questions_asked s = count_core (questions s).

Definition difficulty_in_range (s : InterviewSession) : Prop :=
  (1 <= current_difficulty s <= 10)%Z.

(** ** The store under the operations of the orchestrator *)

(** A session is stored under its own identifier. *)
Definition well_keyed (w : Env) : Prop :=
  forall k s, _sessions w !! k = Some s -> session_id s = k.

(** From [w0] to [w] no session appeared or disappeared, and each one
    evolved. *)
Definition env_evolves (w0 w : Env) : Prop :=
  forall k, option_Forall2 evolves (_sessions w0 !! k) (_sessions w !! k).

(** A computation keeps the store when, returning or raising, it leaves
    a well-keyed store well keyed and every session evolved. *)
Definition keeps {A} (m : M A) : Prop :=
  forall w w' r, m w = (w', r) ->
    well_keyed w -> well_keyed w' /\ env_evolves w w'.

(** ** Flows that return

    [returns P m Q]: from a store satisfying [P] the computation [m]
    returns, with a value and a store satisfying [Q]. *)

Definition returns {A} (P : gmap string InterviewSession -> Prop) (m : M A) (Q : A -> gmap string InterviewSession -> Prop)
  : Prop :=
  forall w, P (_sessions w) ->
    exists w' a, m w = (w', Returned a) /\ Q a (_sessions w').

(** The session [s] is the one stored under [k]. *)
Definition holds (k : string) (s : InterviewSession)
  : gmap string InterviewSession -> Prop :=
  fun m => m !! k = Some s.

(** A computation that always returns and leaves the store alone. *)
Definition silent {A} (m : M A) : Prop :=
  forall w, exists w' a, m w = (w', Returned a) /\ _sessions w' = _sessions w.

(** The session after a legal transition to [T] stamped at [now]. *)
Definition after_transition (T : InterviewState) (err : option string)
    (now : datetime) (s : InterviewSession) : InterviewSession :=
  match T with
  | READY => set_started_at (Some now) (set_state T s)
  | COMPLETE => set_completed_at (Some now) (set_state T s)
  | ERROR => set_error_message err (set_state T s)
  | _ => set_state T s
  end.

(** The fields no transition touches. *)
Definition interview_of (s : InterviewSession) :=
  (session_id s, setup s, questions s, current_question_index s,
   total_core_questions_asked s, total_followups_asked s,
   current_question_followups s, asked_question_hashes s, asked_skills s,
   current_question_context s, current_difficulty s, difficulty_history s,
   running_score s, skill_scores s).

(** ** Calls of the orchestrator's interface *)

Inductive api_call :=
  | Create (setup : InterviewSetup)
  | Transition (sid : string) (new_state : InterviewState)
               (error_message : option string)
  | Start (sid : string)
  | AskNext (sid : string)
  | Submit (sid : string) (audio_data transcript : option string)
  | EndInterview (sid reason : string)
  | Report (sid : string).

(** The world after a call, whether it returned or raised. *)
Definition run_call (self : InterviewOrchestrator) (c : api_call) (w : Env) : Env :=
  match c with
  | Create setup => fst (create_session setup w)
  | Transition sid st err => fst (transition_state self sid st err w)
  | Start sid => fst (start_interview self sid w)
  | AskNext sid => fst (ask_next_question self sid w)
  | Submit sid audio transcript => fst (submit_response self sid audio transcript w)
  | EndInterview sid reason => fst (end_interview self sid reason w)
  | Report sid => fst (generate_report self sid w)
  end.

Definition run_calls (self : InterviewOrchestrator) (cs : list api_call) (w : Env)
  : Env :=
  fold_left (fun w c => run_call self c w) cs w.

(** A new orchestrator: no session yet. *)
Definition initial_env (clock : Z) (entropy : list nat) : Env :=
  {| _sessions := ∅; clock := clock; entropy := entropy; journal := [] |}.

Definition is_create (c : api_call) : bool :=
  match c with Create _ => true | _ => false end.

(** A session as [create_session] stores it. *)
Definition just_created (s : InterviewSession) : Prop :=
  questions s = [] /\ total_core_questions_asked s = 0%Z
  /\ total_followups_asked s = 0%Z /\ current_question_followups s = 0%Z
  /\ asked_question_hashes s = ∅ /\ current_question_context s = []
  /\ (3 <= current_difficulty s <= 9)%Z /\ state s = SETUP.

(** Every stored session satisfies [P], in a well-keyed store. *)
Definition all_sessions (P : InterviewSession -> Prop) (w : Env) : Prop :=
  well_keyed w /\ forall k s, _sessions w !! k = Some s -> P s.

(** ** The state machine, the decision policy and the scores *)



Definition invalid_transition_message (old_state new_state : InterviewState)
  : string :=
  "Invalid transition from " ++ state_str old_state
  ++ " to " ++ state_str new_state ++ ". "
  ++ "Valid transitions: " ++ states_str (VALID_TRANSITIONS old_state).

(** The number of follow-ups allowed over a whole interview. *)
Definition followup_cap (s : InterviewSession) : Z :=
  (max_questions (setup s) * 2)%Z.

(** The difficulty after the adaptations that a list of evaluations
    causes, in order. *)
Definition adapt_all (evs : list ResponseEvaluation) (s : InterviewSession)
  : InterviewSession :=
  fold_left (fun s ev => adapt_difficulty (difficulty_delta ev) s) evs s.


(** The running score recomputed from the scores already recorded. *)
Definition refresh_running_score (s : InterviewSession) : InterviewSession :=
  let all_scores := concat (map snd (skill_scores s)) in
  if is_nil all_scores then s
  else set_running_score
         (fsum all_scores / EvaluationEngine.float_of_nat (length all_scores))%float
         s.

(** The generators of questions and of follow-ups return: there is no
    AI layer (the built-in fallbacks are used), or its calls return. *)
Definition question_source_returns (self : InterviewOrchestrator) : Prop :=
  match ai_reasoning self with
  | Some ai => forall context, exists q, generate_question ai context = Returned q
  | None => True
  end.

Definition followup_source_returns (self : InterviewOrchestrator) : Prop :=
  match ai_reasoning self with
  | Some ai =>
      forall context ev, exists d, generate_followup ai context ev = Returned d
  | None => True
  end.

(** ** A small interview, for concrete instances *)

Definition example_setup : InterviewSetup :=
  {| years_of_experience := 3; target_role := MID_DE;
     cloud_preference := AGNOSTIC; include_skills := []; exclude_skills := [];
     mode := STRUCTURED_FOLLOWUP; max_questions := 5 |}.

(** No collaborator configured: every fallback of the orchestrator is used. *)
Definition bare_orchestrator : InterviewOrchestrator :=
  {| ai_reasoning := None; audio_processor := None;
     evaluation_engine := None; report_generator := None;
     _state_change_callbacks := []; _question_callbacks := [];
     _evaluation_callbacks := [] |}.

Definition example_entropy : list nat := [7; 3; 11; 5; 8; 2; 9; 4]%nat.

(** One session created, in state [SETUP]. *)
Definition env_created : Env :=
  run_calls bare_orchestrator [Create example_setup]
    (initial_env 100 example_entropy).

(** The same session with its first question asked, in state [LISTENING]. *)
Definition env_listening : Env :=
  run_calls bare_orchestrator [Create example_setup; Start "session-7"]
    (initial_env 100 example_entropy).

(** The session stored under [k], for a store known to hold one. *)
Definition session_at (k : string) (w : Env) : InterviewSession :=
  default (new_session k example_setup 0%Z) (_sessions w !! k).

(** An evaluation with the given follow-up flag and difficulty delta. *)
Definition example_evaluation (needs : bool) (delta : Z) : ResponseEvaluation :=
  {| ev_question_id := "q_11"; ev_skill_id := "etl_pipeline_design";
     ev_transcript := "We load in batches.";
     response_duration_seconds := 30.0%float;
     scores := {| technical_correctness := 5.0%float;
                  depth_of_understanding := 5.0%float;
                  practical_experience := 5.0%float;
                  communication_clarity := 5.0%float;
                  confidence := 5.0%float |};
     feedback := {| what_went_well := ["Response provided"];
                    what_was_missing := []; fb_red_flags := [];
                    seniority_signals := []; improvement_suggestions := [] |};
     needs_followup := needs; ev_followup_reason := None;
     followup_type := None; difficulty_delta := delta;
     evaluator_notes := None |}.

Definition example_followup_question : QuestionResponse :=
  new_question_response "q_11_followup_1"
    "Can you provide a specific example from your experience?"
    (Some "etl_pipeline_design") 200%Z true (Some "q_11") (Some "Need more depth").

Definition example_core_question : QuestionResponse :=
  new_question_response "q_2" "How do you design reliable DAGs in Airflow?"
    (Some "dag_design") 300%Z false None None.

(** The store of [env_listening] once the follow-up of the example has
    been added to its session. *)
Definition env_followup_added : Env :=
  fst (modify_session "session-7" (add_question example_followup_question)
         env_listening).

(** A report collaborator that is out of order. *)
Definition broken_report_generator : ReportGenerator :=
  {| generate := fun _ => Raised (RuntimeError "report backend unavailable") |}.

Definition orchestrator_with_reports (g : ReportGenerator) : InterviewOrchestrator :=
  {| ai_reasoning := None; audio_processor := None;
     evaluation_engine := None; report_generator := Some g;
     _state_change_callbacks := []; _question_callbacks := [];
     _evaluation_callbacks := [] |}.

(** The interview was ended and a first report request failed in the
    collaborator: the session is left in [GENERATING_REPORT]. *)
Definition env_report_failed : Env :=
  run_calls (orchestrator_with_reports broken_report_generator)
    [Create example_setup; Start "session-7";
     EndInterview "session-7" "user_ended"; Report "session-7"]
    (initial_env 100 example_entropy).

(** The evaluation engine without an AI layer, as the only collaborator. *)
Definition orchestrator_with_engine : InterviewOrchestrator :=
  {| ai_reasoning := None; audio_processor := None;
     evaluation_engine := Some (EvaluationEngine.mk None);
     report_generator := None;
     _state_change_callbacks := []; _question_callbacks := [];
     _evaluation_callbacks := [] |}.

(** A setup whose only skill is [sql_joins]. *)
Definition one_skill_setup : InterviewSetup :=
  {| years_of_experience := 3; target_role := MID_DE;
     cloud_preference := AGNOSTIC; include_skills := ["sql_joins"];
     exclude_skills := []; mode := STRUCTURED_FOLLOWUP; max_questions := 5 |}.

Definition orchestrator_with_audio (a : AudioCollaborator) : InterviewOrchestrator :=
  {| ai_reasoning := None; audio_processor := Some a;
     evaluation_engine := None; report_generator := None;
     _state_change_callbacks := []; _question_callbacks := [];
     _evaluation_callbacks := [] |}.

(** An audio collaborator whose calls raise. *)
Definition raising_audio : AudioCollaborator :=
  {| text_to_speech := fun _ => Raised (RuntimeError "synthesis unavailable");
     speech_to_text := fun _ => Raised (RuntimeError "transcription unavailable") |}.

(** The repository's processor with every engine out of order. *)
Definition processor_engines_down : AudioProcessor.t :=
  {| AudioProcessor.settings :=
       {| AudioProcessor.tts_model := "kokoro";
          AudioProcessor.tts_voice := "af_heart";
          AudioProcessor.tts_rate := 16000;
          AudioProcessor.use_local_whisper := true |};
     AudioProcessor.kokoro := fun _ _ => Raised (ImportError "No module named 'kokoro'");
     AudioProcessor.piper := fun _ _ => Raised (RuntimeError "piper: not found");
     AudioProcessor.edge_tts := fun _ _ => Raised (RuntimeError "connection refused");
     AudioProcessor.whisper_local := fun _ _ => Raised (ImportError "No module named 'whisper'");
     AudioProcessor.whisper_api := fun _ _ => Raised (RuntimeError "connection refused") |}.

(** The session of the example, ready to be asked its first question. *)
Definition env_ready : Env :=
  run_calls bare_orchestrator
    [Create example_setup; Transition "session-7" READY None]
    (initial_env 100 example_entropy).

(** The same session with an answer evaluated, about to decide. *)
Definition env_deciding : Env :=
  run_calls bare_orchestrator
    [Create example_setup; Start "session-7";
     Transition "session-7" PROCESSING None;
     Transition "session-7" EVALUATING None;
     Transition "session-7" DECIDING None]
    (initial_env 100 example_entropy).

(** An answer of 700 characters: long enough for the built-in
    evaluation to ask no follow-up. *)
Fixpoint repeat_string (n : nat) (s : string) : string :=
  match n with
  | O => ""
  | S n => s ++ repeat_string n s
  end.

Definition long_answer : string := repeat_string 70 "0123456789".

(** ** Characters of a string *)

(** Every character of the string satisfies [p]. *)
Fixpoint string_forall (p : ascii -> bool) (s : string) : bool :=
  match s with
  | EmptyString => true
  | String c r => p c && string_forall p r
  end.

(** A word as [str.split] produces them: not empty, no white space. *)
Definition is_token (w : string) : Prop :=
  w <> "" /\ string_forall (fun c => negb (PyStr.is_space c)) w = true.

(** What [_normalize_question] keeps of a word list. *)
Definition significant (w : string) : Prop :=
  (w ∉ stop_words) /\ (2 < PyStr.len w)%Z.

(** A character as [_normalize_question] leaves them: not upper case and,
    white space apart, a word character. *)
Definition normal_char (c : ascii) : bool :=
  bool_decide (PyStr.lower_char c = c) && (PyStr.is_word c || PyStr.is_space c).

(** The words [_normalize_question] keeps, before joining them. *)
Definition normal_words (text : string) : list string :=
  take 15 (filter (fun w => (w ∉ stop_words) ∧ (2 < PyStr.len w)%Z)
             (PyStr.split (PyStr.strip_non_word (PyStr.lower text)))).

(** ** What a session records of its questions *)

(** The skills [create_session] keeps of the catalogue for a setup: the
    skills of the role, restricted to [include_skills] when it is not
    empty, without [exclude_skills]. *)
Definition selected_skills (setup : InterviewSetup) : list string :=
  let skill_ids := get_skills_for_role (target_role setup) in
  let skill_ids :=
    if is_nil (include_skills setup) then skill_ids
    else filter (fun s => s ∈ include_skills setup) skill_ids in
  if is_nil (exclude_skills setup) then skill_ids
  else filter (fun s => s ∉ exclude_skills setup) skill_ids.

(** The skill [add_question] records for a question, if any. *)
Definition recorded_skill (q : QuestionResponse) : option string :=
  if PyStr.truthy (skill_id q) then skill_id q else None.

(** What is fixed of a question when it is asked. *)
Definition as_asked (q : QuestionResponse) :=
  (question_id q, question_text q, skill_id q, is_followup q,
   parent_question_id q, followup_reason q, asked_at q).

(** The bookkeeping of a session agrees with its question list. *)
Record bookkeeping (s : InterviewSession) : Prop := mkBookkeeping {
  index_at_last :
    current_question_index s = Z.max 0 (Z.of_nat (length (questions s)) - 1);
  hashes_of_questions :
    asked_question_hashes s
    = list_to_set (map (fun q => _normalize_question (question_text q)) (questions s));
  skills_of_questions :
    asked_skills s = list_to_set (omap recorded_skill (questions s));
  scores_of_selected :
    dict_keys (skill_scores s) = selected_skills (setup s)
}.

(** ** The steps with their guards

    What the operations of the orchestrator do to a stored session, with
    the test each one passes before it is done: a state change is an
    entry of the table, a core question is added in state [ASKING] below
    the limit of the setup, a follow-up in state [DECIDING], in the
    follow-up mode, below twice that limit. *)

Inductive guarded_step : InterviewSession -> InterviewSession -> Prop :=
  | gstep_transition T err now s :
      T ∈ VALID_TRANSITIONS (state s) ->
      guarded_step s (after_transition T err now s)
  | gstep_core q s :
      is_followup q = false ->
      state s = ASKING ->
      (total_core_questions_asked s < max_questions (setup s))%Z ->
      guarded_step s (add_question q s)
  | gstep_followup q s :
      is_followup q = true ->
      state s = DECIDING ->
      mode (setup s) = STRUCTURED_FOLLOWUP ->
      (total_followups_asked s < max_questions (setup s) * 2)%Z ->
      guarded_step s (add_question q s)
  | gstep_response r s : guarded_step s (add_response_to_context r s)
  | gstep_completed_at v s : guarded_step s (set_completed_at v s)
  | gstep_question i f s :
      (forall q, question_step q (f q)) ->
      guarded_step s (set_questions (alter f i (questions s)) s)
  | gstep_scores ev s : guarded_step s (_update_running_scores ev s)
  | gstep_adapt delta s : guarded_step s (adapt_difficulty delta s).

(** From [w] to [w'] no session appeared or disappeared, and each one
    moved by guarded steps. *)
Definition env_guarded (w w' : Env) : Prop :=
  forall k, option_Forall2 (rtc guarded_step) (_sessions w !! k) (_sessions w' !! k).

(** [tracks k P m Q]: run from a well-keyed store whose session [k], if
    there is one, satisfies [P], the computation [m] leaves a well-keyed
    store reached by guarded steps; if it returns [a], the session [k]
    satisfies [Q a]. *)
Definition tracks {A} (k : string) (P : InterviewSession -> Prop) (m : M A)
    (Q : A -> InterviewSession -> Prop) : Prop :=
  forall w w' r, m w = (w', r) ->
    well_keyed w ->
    (forall s, _sessions w !! k = Some s -> P s) ->
    well_keyed w' /\ env_guarded w w'
    /\ (forall a s', r = Returned a -> _sessions w' !! k = Some s' -> Q a s').

(** A computation that leaves the store alone, returning or raising. *)
Definition quiet {A} (m : M A) : Prop :=
  forall w, _sessions (fst (m w)) = _sessions w.

(** Every value the computation returns satisfies [phi]. *)
Definition yields {A} (m : M A) (phi : A -> Prop) : Prop :=
  forall w w' a, m w = (w', Returned a) -> phi a.


(** The limits of the setup on the counters of a session. *)
Definition within_limits (s : InterviewSession) : Prop :=
  (total_core_questions_asked s <= Z.max 0 (max_questions (setup s)))%Z
  /\ (total_followups_asked s <= Z.max 0 (max_questions (setup s) * 2))%Z
  /\ (mode (setup s) <> STRUCTURED_FOLLOWUP -> total_followups_asked s = 0%Z).

(** A session with a question has been started; one in [SETUP] has
    neither a question nor a start. *)
Definition started_before_asked (s : InterviewSession) : Prop :=
  (state s = SETUP /\ questions s = [] /\ started_at s = None)
  \/ (state s = CANCELLED /\ questions s = [] /\ started_at s = None)
  \/ (state s <> SETUP /\ is_Some (started_at s)).

(** The session of the example, ended by the candidate after the first
    question: in state [COMPLETE]. *)
Definition env_ended : Env :=
  run_calls bare_orchestrator
    [Create example_setup; Start "session-7";
     EndInterview "session-7" "user_ended"]
    (initial_env 100 example_entropy).

(** What holds of an action handed out, for the stored session [s] it
    was drawn for.  A question: the session listens, the numbers in the
    action are those of the session, the number of the question is within
    the total, and the question is the last of the list, a core question.
    A follow-up: the session listens and the follow-up is the last of the
    list.  The end of the interview: the session is [COMPLETE] and has
    had all its core questions. *)
Definition action_as_stored (a : Action) (s : InterviewSession) : Prop :=
  match a with
  | ActQuestion qid text n total d _ =>
      state s = LISTENING
      /\ n = total_core_questions_asked s
      /\ total = max_questions (setup s)
      /\ d = current_difficulty s
      /\ (n <= total)%Z
      /\ exists l q, questions s = (l ++ [q])%list
                     /\ is_followup q = false
                     /\ question_id q = qid /\ question_text q = text
  | ActFollowup qid text reason _ =>
      state s = LISTENING
      /\ exists l q, questions s = (l ++ [q])%list
                     /\ is_followup q = true
                     /\ question_id q = qid /\ question_text q = text
                     /\ followup_reason q = Some reason
  | ActComplete _ =>
      state s = COMPLETE
      /\ (max_questions (setup s) <= total_core_questions_asked s)%Z
  | ActEnded _ _ => False
  end.

(** What holds of the text of a follow-up handed out. *)
Definition followup_text_ok (a : Action) : Prop :=
  match a with
  | ActFollowup _ text _ _ =>
      text <> ""
      /\ PyStr.startswith "{" (PyStr.strip text) = false
      /\ PyStr.startswith "[" (PyStr.strip text) = false
  | _ => True
  end.

(** The action is no follow-up. *)
Definition no_followup (a : Action) : Prop :=
  match a with ActFollowup _ _ _ _ => False | _ => True end.

(** The operations that hand out questions, as calls of the interface. *)
Definition asks (self : InterviewOrchestrator) (c : api_call) : M Action :=
  match c with
  | Start sid => start_interview self sid
  | AskNext sid => ask_next_question self sid
  | Submit sid audio transcript => submit_response self sid audio transcript
  | _ => raise (ValueError "not an operation that asks")
  end.

(** The session a call is about. *)
Definition session_of (c : api_call) : string :=
  match c with
  | Create _ => ""
  | Transition sid _ _ | Start sid | AskNext sid | Submit sid _ _
  | EndInterview sid _ | Report sid => sid
  end.

(** The feedback the heuristic evaluation gives on a transcript. *)
Definition heuristic_feedback (transcript : string) : EvaluationFeedback :=
  EvaluationEngine._generate_heuristic_feedback
    (EvaluationEngine._analyze_response transcript).

(** The question the session of the example is listening for. *)
Definition session_at_question (w : Env) : QuestionResponse :=
  default (new_question_response "" "" None 0%Z false None None)
    (last (questions (session_at "session-7" w))).

(** * The REST endpoints ([src/api/endpoints/interview.py],
      [src/api/endpoints/report.py])

    An endpoint works on the orchestrator that [get_orchestrator] hands
    out, here [self] with its world, and either answers or raises
    [HTTPException] with a status code and a detail. *)

Inductive http (A : Type) :=
  | Ok (a : A)
  | HTTPException (status_code : Z) (detail : string).
Arguments Ok {A} a.
Arguments HTTPException {A} status_code detail.

Definition Endpoint (A : Type) : Type := Env -> Env * http A.

(** [try: result = await m; return k(result)
     except Exception as e: raise HTTPException(status_code=code, detail=str(e))] *)
Definition or_http {A B} (code : Z) (m : M A) (k : A -> B) : Endpoint B :=
  fun w =>
    match m w with
    | (w', Returned a) => (w', Ok (k a))
    | (w', Raised e) => (w', HTTPException code (exn_message e))
    end.

(** [result.get("action") == "question"] *)
Definition is_question_action (a : Action) : bool :=
  match a with ActQuestion _ _ _ _ _ _ => true | _ => false end.

Module InterviewApi.

Record SetupRequest := mkSetupRequest {
  req_years_of_experience : Z;
  req_target_role : string;
  req_cloud_preference : string;
  req_include_skills : list string;
  req_exclude_skills : list string;
  req_mode : string;
  req_max_questions : Z
}.

Record SetupResponse := mkSetupResponse {
  resp_session_id : string;
  resp_status : string;
  resp_message : string
}.

Record StartResponse := mkStartResponse {
  start_session_id : string;
  start_state : string;
  first_question : option Action
}.

(** What [/end] answers: the dictionary of an interview that had ended
    already, or the one the orchestrator returned. *)
Inductive EndResult :=
  | AlreadyEnded (sid : string)
  | Ended (result : Action).

Definition role_map (k : string) : option Role :=
  if decide (k = "junior_data_engineer") then Some JUNIOR_DE
  else if decide (k = "mid_data_engineer") then Some MID_DE
  else if decide (k = "senior_data_engineer") then Some SENIOR_DE
  else if decide (k = "staff_data_engineer") then Some STAFF_DE
  else if decide (k = "principal_data_engineer") then Some PRINCIPAL_DE
  else None.

Definition cloud_map (k : string) : option CloudPreference :=
  if decide (k = "aws") then Some AWS
  else if decide (k = "gcp") then Some GCP
  else if decide (k = "azure") then Some AZURE
  else if decide (k = "multi_cloud") then Some MULTI
  else if decide (k = "cloud_agnostic") then Some AGNOSTIC
  else None.

Definition mode_map (k : string) : option InterviewMode :=
  if decide (k = "structured") then Some STRUCTURED
  else if decide (k = "structured_followup") then Some STRUCTURED_FOLLOWUP
  else if decide (k = "stress") then Some STRESS
  else None.

Section Endpoints.

(** The text of the [ValidationError] the model library raises for the
    offending values of [years_of_experience] and [max_questions]. *)
Variable validation_text : Z -> Z -> string.

Variable self : InterviewOrchestrator.

(** [InterviewSetup(years_of_experience=.., .., max_questions=..)]
    ([src/models/interview.py]): the constructor checks [ge=0, le=30] on
    the years and [ge=5, le=15] on the number of questions, and raises
    [ValidationError] otherwise. *)
Definition InterviewSetup_validated
    (years : Z) (role : Role) (cloud : CloudPreference)
    (include exclude : list string) (mode : InterviewMode) (max_questions : Z)
  : outcome InterviewSetup :=
  if ((0 <=? years)%Z && (years <=? 30)%Z
      && (5 <=? max_questions)%Z && (max_questions <=? 15)%Z)%bool
  then Returned (mkInterviewSetup years role cloud include exclude mode max_questions)
  else Raised (ValidationError (validation_text years max_questions)).

Definition setup_interview (request : SetupRequest) : Endpoint SetupResponse :=
  or_http 400
    (setup <- lift (InterviewSetup_validated
                      (req_years_of_experience request)
                      (default MID_DE (role_map (req_target_role request)))
                      (default AGNOSTIC (cloud_map (req_cloud_preference request)))
                      (req_include_skills request)
                      (req_exclude_skills request)
                      (default STRUCTURED_FOLLOWUP (mode_map (req_mode request)))
                      (req_max_questions request)) ;;
     create_session setup)
    (fun session =>
       {| resp_session_id := session_id session;
          resp_status := "created";
          resp_message := "Interview session created. Call /start to begin." |}).

Definition start_interview (session_id : string) : Endpoint StartResponse :=
  fun w =>
    match _sessions w !! session_id with
    | None => (w, HTTPException 404 "Session not found")
    | Some session =>
        if negb (bool_decide (state session = SETUP))
        then (w, HTTPException 400
                   ("Cannot start interview in state: " ++ state_str (state session)))
        else
          or_http 500 (start_interview self session_id)
            (fun result =>
               {| start_session_id := session_id;
                  start_state := state_value LISTENING;
                  first_question :=
                    if is_question_action result then Some result else None |})
            w
    end.

Definition end_interview (session_id : string) : Endpoint EndResult :=
  fun w =>
    match _sessions w !! session_id with
    | None => (w, HTTPException 404 "Session not found")
    | Some session =>
        if bool_decide (state session ∈ [COMPLETE; FINISHED])
        then (w, Ok (AlreadyEnded session_id))
        else or_http 500 (end_interview self session_id "user_ended") Ended w
    end.

End Endpoints.

End InterviewApi.

Module ReportApi.

Record ReportSummaryResponse := mkReportSummaryResponse {
  sum_session_id : string;
  sum_overall_score : float;
  sum_hiring_verdict : string;
  sum_role_readiness : string;
  top_strength : string;
  top_improvement_area : string;
  sum_interview_duration_minutes : float
}.

(** [l[0] if l else "N/A"] *)
Definition first_or_na (l : list string) : string :=
  match l with
  | x :: _ => x
  | [] => "N/A"
  end.

Section Endpoints.

Variable self : InterviewOrchestrator.

Definition get_report_summary (session_id : string)
  : Endpoint ReportSummaryResponse :=
  fun w =>
    match _sessions w !! session_id with
    | None => (w, HTTPException 404 "Session not found")
    | Some session =>
        if negb (bool_decide
                   (state session ∈ [COMPLETE; GENERATING_REPORT; FINISHED]))
        then (w, HTTPException 400
                   ("Interview not complete. Current state: "
                    ++ state_value (state session)))
        else
          or_http 500 (generate_report self session_id)
            (fun report_data =>
               {| sum_session_id := rp_session_id report_data;
                  sum_overall_score := rp_overall_score report_data;
                  sum_hiring_verdict := hiring_verdict report_data;
                  sum_role_readiness := role_readiness report_data;
                  top_strength := first_or_na (top_strengths report_data);
                  top_improvement_area :=
                    first_or_na (areas_for_improvement report_data);
                  sum_interview_duration_minutes :=
                    interview_duration_minutes report_data |})
            w
    end.

End Endpoints.

End ReportApi.

(** * Properties *)

Example normalize_join_question :
  _normalize_question
    "Explain the difference between INNER JOIN and LEFT JOIN in SQL?"
  = "difference between inner join and left join sql".
Proof. vm_compute. reflexivity. Qed.

Example add_question_counts :
  let q := new_question_response "q1" "How do you design reliable DAGs in Airflow?"
             (Some "dag_design") 0%Z false None None in
  let s := add_question q (new_session "s" (mkInterviewSetup 3%Z MID_DE AGNOSTIC [] [] STRUCTURED_FOLLOWUP 5%Z) 0%Z) in
  (total_core_questions_asked s, current_question_index s,
   is_question_asked "how do you DESIGN reliable dags in airflow" s)
  = (1%Z, 0%Z, true).
Proof. vm_compute. reflexivity. Qed.

Example heuristic_short_answer :
  let a := EvaluationEngine._analyze_response "I think maybe we could use Spark." in
  (EvaluationEngine.word_count a, EvaluationEngine.sentence_count a,
   EvaluationEngine.an_technical_keywords a,
   PrimFloat.eqb (EvaluationEngine.confidence_score a) 6.0)
  = (7%nat, 1%nat, 0%nat, true).
Proof. vm_compute. reflexivity. Qed.

(** ** Steps of a session *)

Lemma count_core_app l1 l2 :
  count_core (l1 ++ l2) = (count_core l1 + count_core l2)%Z.
Proof.
  unfold count_core. rewrite List.filter_app, length_app. lia.
Qed.

Lemma question_step_is_followup q q' :
  question_step q q' -> is_followup q' = is_followup q.
Proof. intros H; destruct H; destruct q; reflexivity. Qed.

Lemma count_core_alter f i l :
  (forall q, question_step q (f q)) ->
  count_core (alter f i l) = count_core l.
Proof.
  intros Hf. unfold count_core. f_equal.
  revert i. induction l as [|q l IH]; intros [|i]; simpl; try reflexivity.
  - rewrite (question_step_is_followup _ _ (Hf q)).
    destruct (is_followup q); reflexivity.
  - specialize (IH i). unfold alter in IH.
    destruct (is_followup q); simpl in *; congruence.
Qed.

Lemma add_question_counters q s :
  counters_partition s -> counters_partition (add_question q s).
Proof.
  unfold counters_partition, add_question.
  destruct s; simpl. intros [H1 H2].
  destruct (PyStr.truthy (skill_id q)), (is_followup q) eqn:Hf; simpl;
    rewrite count_core_app, length_app; unfold count_core; simpl;
    rewrite Hf; simpl; unfold count_core in H2; split; lia.
Qed.

Lemma _update_running_scores_questions ev s :
  questions (_update_running_scores ev s) = questions s
  /\ total_core_questions_asked (_update_running_scores ev s)
     = total_core_questions_asked s
  /\ total_followups_asked (_update_running_scores ev s)
     = total_followups_asked s
  /\ asked_question_hashes (_update_running_scores ev s)
     = asked_question_hashes s
  /\ current_question_context (_update_running_scores ev s)
     = current_question_context s
  /\ current_question_followups (_update_running_scores ev s)
     = current_question_followups s
  /\ current_difficulty (_update_running_scores ev s) = current_difficulty s
  /\ session_id (_update_running_scores ev s) = session_id s.
Proof.
  unfold _update_running_scores. destruct s; simpl.
  destruct (dict_mem _ _); simpl;
    match goal with |- context [is_nil ?l] => destruct (is_nil l) end;
    simpl; repeat split; reflexivity.
Qed.

Lemma session_step_counters s s' :
  session_step s s' -> counters_partition s -> counters_partition s'.
Proof.
  intros Hstep. destruct Hstep; try (destruct s; simpl; tauto).
  - apply add_question_counters.
  - unfold counters_partition. destruct s; simpl.
    rewrite count_core_alter, length_alter by assumption. tauto.
  - unfold counters_partition.
    destruct (_update_running_scores_questions ev s) as (-> & -> & -> & _).
    tauto.
Qed.

Lemma session_step_session_id s s' :
  session_step s s' -> session_id s' = session_id s.
Proof.
  intros Hstep. destruct Hstep; try (destruct s; reflexivity).
  - unfold add_question. destruct s; simpl.
    destruct (PyStr.truthy _), (is_followup q); reflexivity.
  - apply _update_running_scores_questions.
Qed.


Lemma session_step_hashes s s' :
  session_step s s' -> asked_question_hashes s ⊆ asked_question_hashes s'.
Proof.
  intros Hstep. destruct Hstep; try (destruct s; simpl; set_solver).
  - unfold add_question. destruct s; simpl.
    destruct (PyStr.truthy _), (is_followup q); simpl; set_solver.
  - destruct (_update_running_scores_questions ev s) as (_ & _ & _ & -> & _).
    set_solver.
Qed.

Lemma evolves_ind_pred (P : InterviewSession -> Prop) :
  (forall s s', session_step s s' -> P s -> P s') ->
  forall s s', evolves s s' -> P s -> P s'.
Proof.
  intros Hstep s s' H. induction H; eauto.
Qed.

Lemma evolves_session_id s s' : evolves s s' -> session_id s' = session_id s.
Proof.
  intros H. induction H as [|x y z Hxy _ IH]; [reflexivity|].
  rewrite IH. eapply session_step_session_id; eassumption.
Qed.

Lemma evolves_hashes s s' :
  evolves s s' -> asked_question_hashes s ⊆ asked_question_hashes s'.
Proof.
  intros H. induction H as [|x y z Hxy _ IH]; [set_solver|].
  apply session_step_hashes in Hxy. set_solver.
Qed.

(** ** The operations keep the store *)

Lemma env_evolves_refl w : env_evolves w w.
Proof.
  intros k. destruct (_sessions w !! k); constructor. apply rtc_refl.
Qed.

Lemma env_evolves_trans w1 w2 w3 :
  env_evolves w1 w2 -> env_evolves w2 w3 -> env_evolves w1 w3.
Proof.
  intros H12 H23 k. specialize (H12 k). specialize (H23 k).
  destruct H12 as [s1 s2 E12|]; inversion H23; subst; constructor.
  eapply rtc_trans; eassumption.
Qed.

Lemma env_evolves_same_sessions w w' :
  _sessions w' = _sessions w -> env_evolves w w'.
Proof.
  intros E k. rewrite E. destruct (_sessions w !! k); constructor.
  apply rtc_refl.
Qed.

Lemma keeps_pure {A} (m : M A) :
  (forall w, _sessions (fst (m w)) = _sessions w) -> keeps m.
Proof.
  intros H w w' r E Hk. specialize (H w). rewrite E in H. simpl in H.
  split.
  - intros k s. rewrite H. apply Hk.
  - apply env_evolves_same_sessions. exact H.
Qed.

Lemma keeps_ret {A} (a : A) : keeps (ret a).
Proof. apply keeps_pure. reflexivity. Qed.

Lemma keeps_raise {A} (e : exn) : keeps (@raise A e).
Proof. apply keeps_pure. reflexivity. Qed.

Lemma keeps_lift {A} (o : outcome A) : keeps (lift o).
Proof. apply keeps_pure. reflexivity. Qed.

Lemma keeps_get_session k : keeps (get_session k).
Proof. apply keeps_pure. reflexivity. Qed.

Lemma keeps_the_session k : keeps (the_session k).
Proof.
  apply keeps_pure. intros w. unfold the_session.
  destruct (_sessions w !! k); reflexivity.
Qed.

Lemma keeps_utcnow : keeps utcnow.
Proof. apply keeps_pure. reflexivity. Qed.

Lemma keeps_draw : keeps draw.
Proof.
  apply keeps_pure. intros w. unfold draw. destruct (entropy w); reflexivity.
Qed.

Lemma keeps_emit e : keeps (emit e).
Proof. apply keeps_pure. reflexivity. Qed.

Lemma keeps_bind {A B} (m : M A) (k : A -> M B) :
  keeps m -> (forall a, keeps (k a)) -> keeps (bind m k).
Proof.
  intros Hm Hk w w' r E Hw. unfold bind in E.
  destruct (m w) as [w1 [a|e]] eqn:Em.
  - destruct (Hm _ _ _ Em Hw) as [Hw1 H1].
    destruct (Hk a _ _ _ E Hw1) as [Hw' H2].
    split; [assumption|]. eapply env_evolves_trans; eassumption.
  - inversion E; subst. eapply Hm; eassumption.
Qed.

Lemma keeps_modify h f :
  (forall s, evolves s (f s)) -> keeps (modify_session h f).
Proof.
  intros Hf w w' r E Hw. inversion E; subst; clear E. split.
  - intros k s. simpl. destruct (decide (k = h)) as [->|Hne].
    + rewrite lookup_alter_eq. destruct (_sessions w !! h) as [s0|] eqn:E0;
        simpl; [|discriminate].
      intros [= <-]. rewrite (evolves_session_id _ _ (Hf s0)). eauto.
    + rewrite lookup_alter_ne by congruence. apply Hw.
  - intros k. simpl. destruct (decide (k = h)) as [->|Hne].
    + rewrite lookup_alter_eq. destruct (_sessions w !! h); constructor.
      apply Hf.
    + rewrite lookup_alter_ne by congruence.
      destruct (_sessions w !! k); constructor. apply rtc_refl.
Qed.

Lemma keeps_update_session h : keeps (update_session h).
Proof.
  intros w w' r E Hw. unfold update_session in E.
  destruct (_sessions w !! h) as [s|] eqn:Es; inversion E; subst; clear E.
  - assert (Hid : <[session_id s := s]> (_sessions w) = _sessions w).
    { rewrite (Hw _ _ Es). apply insert_id. assumption. }
    split.
    + intros k s'. simpl. rewrite Hid. apply Hw.
    + apply env_evolves_same_sessions. simpl. exact Hid.
  - split; [assumption | apply env_evolves_refl].
Qed.

Lemma keeps_notify {X} label (cbs : list (X -> outcome unit)) x :
  keeps (notify label cbs x).
Proof.
  induction cbs as [|cb cbs IH]; simpl.
  - apply keeps_ret.
  - apply keeps_bind; [|intros _; exact IH].
    destruct (cb x); [apply keeps_ret | apply keeps_emit].
Qed.

Lemma question_setters_step f :
  (exists v, f = set_response_transcript v)
  \/ (exists v, f = set_response_completed_at v)
  \/ (exists v, f = set_evaluation v) ->
  forall q, question_step q (f q).
Proof.
  intros [[v ->]|[[v ->]|[v ->]]] q; constructor.
Qed.

Lemma keeps_modify_question h i f :
  (forall q, question_step q (f q)) -> keeps (modify_question h i f).
Proof.
  intros Hf. apply keeps_modify. intros s. apply rtc_once.
  apply step_question. exact Hf.
Qed.

Create HintDb keeps discriminated.
#[local] Hint Resolve keeps_ret keeps_raise keeps_lift keeps_get_session
  keeps_the_session keeps_utcnow keeps_draw keeps_emit keeps_update_session
  keeps_notify : keeps.

(** One step of the proof that a flow keeps the store: split a bind,
    close a primitive, or split on what the flow tests. *)
Ltac keeps_step :=
  lazymatch goal with
  | |- keeps (bind _ _) => apply keeps_bind; [| intros ?]
  | |- keeps (modify_session _ _) =>
      apply keeps_modify; intros ?; apply rtc_once; constructor
  | |- keeps (modify_question _ _ _) =>
      apply keeps_modify_question; intros ?; constructor
  | |- keeps (match ?x with _ => _ end) => destruct x
  | |- keeps _ => solve [auto with keeps]
  end.

Ltac keeps_tac := repeat keeps_step.

Section OrchestratorKeeps.

Variable self : InterviewOrchestrator.

Lemma keeps_end_interview_trace sid fs : keeps (end_interview_trace sid fs).
Proof. apply keeps_emit. Qed.

Lemma keeps_transition_state sid st err :
  keeps (transition_state self sid st err).
Proof.
  unfold transition_state, end_interview_trace. keeps_tac.
Qed.

Lemma keeps__generate_mock_question h : keeps (_generate_mock_question h).
Proof.
  unfold _generate_mock_question, random_choice. keeps_tac.
Qed.

Lemma keeps_synthesize text record : keeps (synthesize self text record).
Proof. unfold synthesize. keeps_tac. Qed.

Hint Resolve keeps_transition_state keeps__generate_mock_question
  keeps_synthesize : keeps.

Lemma keeps_ask_next_question sid : keeps (ask_next_question self sid).
Proof. unfold ask_next_question. keeps_tac. Qed.

Hint Resolve keeps_ask_next_question : keeps.

Lemma keeps_start_interview sid : keeps (start_interview self sid).
Proof. unfold start_interview, start_interview_trace. keeps_tac. Qed.

Lemma keeps__ask_followup h ev : keeps (_ask_followup self h ev).
Proof. unfold _ask_followup. keeps_tac. Qed.

Hint Resolve keeps__ask_followup : keeps.

Lemma keeps__decide_next_action h ev : keeps (_decide_next_action self h ev).
Proof. unfold _decide_next_action, adapt_and_continue. keeps_tac. Qed.

Hint Resolve keeps__decide_next_action : keeps.

Lemma keeps_submit_response sid audio transcript :
  keeps (submit_response self sid audio transcript).
Proof. unfold submit_response. keeps_tac. Qed.

Lemma keeps_end_interview sid reason : keeps (end_interview self sid reason).
Proof. unfold end_interview. keeps_tac. Qed.

Lemma keeps_get_duration_seconds h : keeps (get_duration_seconds h).
Proof. unfold get_duration_seconds. keeps_tac. Qed.

Hint Resolve keeps_get_duration_seconds : keeps.

Lemma keeps__generate_mock_report h : keeps (_generate_mock_report h).
Proof. unfold _generate_mock_report. keeps_tac. Qed.

Hint Resolve keeps__generate_mock_report : keeps.

Lemma keeps_generate_report sid : keeps (generate_report self sid).
Proof. unfold generate_report. keeps_tac. Qed.

End OrchestratorKeeps.

(** ** Flows that return *)

Lemma returns_bind {A B} P (m : M A) Q (k : A -> M B) R :
  returns P m Q -> (forall a, returns (Q a) (k a) R) -> returns P (bind m k) R.
Proof.
  intros Hm Hk w HP. destruct (Hm w HP) as (w1 & a & E & HQ).
  destruct (Hk a w1 HQ) as (w2 & b & E2 & HR).
  exists w2, b. split; [|assumption]. unfold bind. rewrite E. exact E2.
Qed.

Lemma returns_ret {A} (P : gmap string InterviewSession -> Prop) (a : A) (Q : A -> gmap string InterviewSession -> Prop) :
  (forall m, P m -> Q a m) -> returns P (ret a) Q.
Proof. intros H w HP. exists w, a. split; [reflexivity | auto]. Qed.

Lemma returns_weaken {A} (P P' : gmap string InterviewSession -> Prop) (m : M A)
    (Q Q' : A -> gmap string InterviewSession -> Prop) :
  returns P m Q -> (forall x, P' x -> P x) -> (forall a x, Q a x -> Q' a x) ->
  returns P' m Q'.
Proof.
  intros H HP HQ w Hw. destruct (H w (HP _ Hw)) as (w' & a & E & Ha).
  exists w', a. split; auto.
Qed.

Lemma returns_pure {A} (phi : Prop) P (m : M A) Q :
  (phi -> returns P m Q) -> returns (fun x => phi /\ P x) m Q.
Proof. intros H w [Hphi HP]. exact (H Hphi w HP). Qed.

Lemma returns_exists {A X} (P : X -> gmap string InterviewSession -> Prop) (m : M A) Q :
  (forall x, returns (P x) m Q) -> returns (fun g => exists x, P x g) m Q.
Proof. intros H w [x HP]. exact (H x w HP). Qed.

Lemma returns_silent {A} (m : M A) P :
  silent m -> returns P m (fun _ => P).
Proof.
  intros H w HP. destruct (H w) as (w' & a & E & Es).
  exists w', a. split; [assumption|]. rewrite Es. assumption.
Qed.

Lemma silent_utcnow : silent utcnow.
Proof. intros w. eexists _, _. split; reflexivity. Qed.

Lemma silent_emit e : silent (emit e).
Proof. intros w. eexists _, _. split; reflexivity. Qed.

Lemma silent_draw : silent draw.
Proof.
  intros w. unfold draw. destruct (entropy w); eexists _, _; split; reflexivity.
Qed.

Lemma silent_ret {A} (a : A) : silent (ret a).
Proof. intros w. eexists _, _. split; reflexivity. Qed.

Lemma silent_bind {A B} (m : M A) (k : A -> M B) :
  silent m -> (forall a, silent (k a)) -> silent (bind m k).
Proof.
  intros Hm Hk w. destruct (Hm w) as (w1 & a & E1 & Es1).
  destruct (Hk a w1) as (w2 & b & E2 & Es2).
  exists w2, b. unfold bind. rewrite E1. split; [assumption | congruence].
Qed.

Lemma silent_notify {X} label (cbs : list (X -> outcome unit)) x :
  silent (notify label cbs x).
Proof.
  induction cbs as [|cb cbs IH]; simpl.
  - apply silent_ret.
  - apply silent_bind; [|intros _; exact IH].
    destruct (cb x); [apply silent_ret | apply silent_emit].
Qed.

Lemma returns_get_session k s :
  returns (holds k s) (get_session k) (fun r m => r = Some s /\ holds k s m).
Proof. intros w H. exists w, (Some s). unfold get_session. rewrite H. auto. Qed.

Lemma returns_the_session k s :
  returns (holds k s) (the_session k) (fun r m => r = s /\ holds k s m).
Proof. intros w H. exists w, s. unfold the_session. rewrite H. auto. Qed.

Lemma returns_modify_session k f s :
  returns (holds k s) (modify_session k f) (fun _ => holds k (f s)).
Proof.
  intros w H. eexists _, tt. split; [reflexivity|].
  unfold holds in *. simpl. rewrite lookup_alter_eq, H. reflexivity.
Qed.

Lemma returns_update_session k s :
  returns (holds k s) (update_session k) (fun _ => holds k s).
Proof.
  intros w H. unfold update_session. rewrite H. eexists _, tt.
  split; [reflexivity|]. unfold holds in *. simpl.
  destruct (decide (session_id s = k)) as [->|Hne].
  - apply lookup_insert_eq.
  - rewrite lookup_insert_ne by assumption. assumption.
Qed.

Lemma returns_lift {A} P (a : A) :
  returns P (lift (Returned a)) (fun r m => r = a /\ P m).
Proof. intros w H. exists w, a. auto. Qed.

Lemma after_transition_state T err now s :
  state (after_transition T err now s) = T.
Proof. destruct s, T; reflexivity. Qed.

Lemma after_transition_interview T err now s :
  interview_of (after_transition T err now s) = interview_of s.
Proof. destruct s, T; reflexivity. Qed.

Lemma returns_transition_state self k T err s :
  T ∈ VALID_TRANSITIONS (state s) ->
  returns (holds k s) (transition_state self k T err)
    (fun r m => exists now, r = after_transition T err now s /\ holds k r m).
Proof.
  intros HT. unfold transition_state.
  eapply returns_bind; [apply returns_get_session|].
  intros found. apply returns_pure. intros E; subst found.
  rewrite bool_decide_eq_true_2 by assumption. simpl negb. cbv iota.
  eapply returns_bind; [apply returns_modify_session|]. intros ?.
  eapply returns_bind
    with (Q := fun _ m => exists now, holds k (after_transition T err now s) m).
  - destruct T;
      try (apply returns_ret; intros m Hm; exists 0%Z; exact Hm).
    + eapply returns_bind; [apply returns_silent, silent_utcnow|].
      intros now. eapply returns_weaken; [apply returns_modify_session| |].
      * intros x Hx; exact Hx.
      * intros ? m Hm. exists now. exact Hm.
    + eapply returns_bind; [apply returns_silent, silent_utcnow|].
      intros now.
      eapply returns_bind; [apply returns_modify_session|]. intros ?.
      eapply returns_weaken
        with (Q := fun _ => holds k (set_completed_at (Some now) (set_state COMPLETE s))).
      * destruct (is_some (ai_reasoning self));
          [apply returns_silent, silent_emit | apply returns_silent, silent_ret].
      * intros x Hx; exact Hx.
      * intros ? m Hm. exists now. exact Hm.
    + eapply returns_bind; [apply returns_modify_session|]. intros ?.
      eapply returns_weaken
        with (Q := fun _ => holds k (set_error_message err (set_state ERROR s))).
      * destruct (is_some (ai_reasoning self));
          [apply returns_silent, silent_emit | apply returns_silent, silent_ret].
      * intros x Hx; exact Hx.
      * intros ? m Hm. exists 0%Z. exact Hm.
  - intros ?. apply returns_exists. intros now.
    eapply returns_bind; [apply returns_update_session|]. intros ?.
    eapply returns_bind; [apply returns_silent, silent_notify|]. intros ?.
    eapply returns_bind; [apply returns_silent, silent_emit|]. intros ?.
    eapply returns_weaken; [apply returns_the_session|intros x Hx; exact Hx|].
    intros r m [-> Hm]. exists now. auto.
Qed.

(** ** Reachable stores *)

Lemma created_session_just_created token now setup :
  just_created (created_session token now setup).
Proof.
  unfold just_created, created_session. cbn.
  destruct (target_role setup); repeat split; lia.
Qed.

Lemma create_session_sessions setup w :
  exists s, _sessions (fst (create_session setup w))
            = <[session_id s := s]> (_sessions w)
            /\ just_created s.
Proof.
  unfold create_session, bind, draw, utcnow, emit, ret.
  destruct (entropy w) as [|n r];
    (eexists; split; [reflexivity | apply created_session_just_created]).
Qed.

Lemma api_call_evolves self c w :
  is_create c = false ->
  well_keyed w ->
  well_keyed (run_call self c w) /\ env_evolves w (run_call self c w).
Proof.
  intros Hc Hw. destruct c; try discriminate; simpl.
  - eapply (keeps_transition_state self); [apply surjective_pairing | assumption].
  - eapply (keeps_start_interview self); [apply surjective_pairing | assumption].
  - eapply (keeps_ask_next_question self); [apply surjective_pairing | assumption].
  - eapply (keeps_submit_response self); [apply surjective_pairing | assumption].
  - eapply (keeps_end_interview self); [apply surjective_pairing | assumption].
  - eapply (keeps_generate_report self); [apply surjective_pairing | assumption].
Qed.

(** A property of sessions that holds at creation and survives every
    step holds of every session of every reachable store. *)
Section Invariant.

Variable P : InterviewSession -> Prop.
Hypothesis P_created : forall s, just_created s -> P s.
Hypothesis P_step : forall s s', session_step s s' -> P s -> P s'.

Lemma all_sessions_run_call self c w :
  all_sessions P w -> all_sessions P (run_call self c w).
Proof.
  intros [Hw HP]. destruct (is_create c) eqn:Hc.
  - destruct c; try discriminate. unfold run_call.
    destruct (create_session_sessions setup0 w) as (s & Es & Hs).
    split.
    + intros k s'. rewrite Es.
      destruct (decide (session_id s = k)) as [<-|Hne].
      * rewrite lookup_insert_eq. congruence.
      * rewrite lookup_insert_ne by assumption. apply Hw.
    + intros k s'. rewrite Es.
      destruct (decide (session_id s = k)) as [<-|Hne].
      * rewrite lookup_insert_eq. intros [= <-]. auto.
      * rewrite lookup_insert_ne by assumption. apply HP.
  - destruct (api_call_evolves self c w Hc Hw) as [Hw' He].
    split; [assumption|]. intros k s' Hs'. specialize (He k).
    rewrite Hs' in He. inversion He as [s0 ? Hev E0 |]; subst.
    symmetry in E0. eapply evolves_ind_pred; eauto.
Qed.

Lemma all_sessions_run_calls self cs w :
  all_sessions P w -> all_sessions P (run_calls self cs w).
Proof.
  revert w. induction cs as [|c cs IH]; intros w Hw; [assumption|].
  simpl. apply IH. apply all_sessions_run_call. assumption.
Qed.

Lemma all_sessions_initial clock entropy :
  all_sessions P (initial_env clock entropy).
Proof.
  split; intros k s; simpl; rewrite lookup_empty; discriminate.
Qed.

Lemma reachable_sessions self cs clock entropy k s :
  _sessions (run_calls self cs (initial_env clock entropy)) !! k = Some s ->
  P s.
Proof.
  intros H.
  destruct (all_sessions_run_calls self cs _ (all_sessions_initial clock entropy))
    as [_ HP].
  eauto.
Qed.

End Invariant.


(** ** More about steps *)

Lemma add_question_frame q s :
  setup (add_question q s) = setup s
  /\ state (add_question q s) = state s
  /\ current_difficulty (add_question q s) = current_difficulty s
  /\ skill_scores (add_question q s) = skill_scores s
  /\ questions (add_question q s) = (questions s ++ [q])%list
  /\ (total_followups_asked s <= total_followups_asked (add_question q s))%Z.
Proof.
  unfold add_question. destruct s; simpl.
  destruct (PyStr.truthy _), (is_followup q); simpl; repeat split; lia.
Qed.

Lemma _update_running_scores_setup ev s :
  setup (_update_running_scores ev s) = setup s.
Proof.
  unfold _update_running_scores. destruct s; simpl.
  destruct (dict_mem _ _); simpl;
    match goal with |- context [is_nil ?l] => destruct (is_nil l) end;
    reflexivity.
Qed.

Lemma session_step_setup s s' : session_step s s' -> setup s' = setup s.
Proof.
  intros Hstep. destruct Hstep; try (destruct s; reflexivity).
  - apply add_question_frame.
  - apply _update_running_scores_setup.
Qed.

Lemma session_step_followups s s' :
  session_step s s' ->
  (total_followups_asked s <= total_followups_asked s')%Z.
Proof.
  intros Hstep. destruct Hstep; try (destruct s; simpl; lia).
  - apply add_question_frame.
  - destruct (_update_running_scores_questions ev s) as (_ & _ & -> & _). lia.
Qed.

Lemma evolves_setup s s' : evolves s s' -> setup s' = setup s.
Proof.
  intros H. induction H as [|x y z Hxy _ IH]; [reflexivity|].
  rewrite IH. apply session_step_setup. assumption.
Qed.

Lemma evolves_followups s s' :
  evolves s s' -> (total_followups_asked s <= total_followups_asked s')%Z.
Proof.
  intros H. induction H as [|x y z Hxy _ IH]; [lia|].
  apply session_step_followups in Hxy. lia.
Qed.

Lemma mode_value_inj m1 m2 : mode_value m1 = mode_value m2 -> m1 = m2.
Proof. destruct m1, m2; simpl; intros H; first [reflexivity | discriminate H]. Qed.

(** ** The example interview *)

Example env_listening_state :
  let s := session_at "session-7" env_listening in
  (state s, total_core_questions_asked s, map question_text (questions s))
  = (LISTENING, 1%Z,
     ["Design an ETL pipeline for processing 10 million records daily."]).
Proof. vm_compute. reflexivity. Qed.

(** Five long answers to five core questions: the fifth decision
    completes the interview; the report is then produced once, and a
    second request finds the session [FINISHED]. *)
Example five_questions_then_report :
  let answer := Submit "session-7" None (Some long_answer) in
  let w := run_calls bare_orchestrator
             [Create example_setup; Start "session-7";
              answer; answer; answer; answer; answer]
             (initial_env 100 example_entropy) in
  let s := session_at "session-7" w in
  let first := generate_report bare_orchestrator "session-7" w in
  let second := generate_report bare_orchestrator "session-7" (fst first) in
  (state s, total_core_questions_asked s, total_followups_asked s,
   difficulty_history s,
   state (session_at "session-7" (fst first)),
   snd second)
  = (COMPLETE, 5%Z, 0%Z, [5; 5; 5; 5; 5]%Z, FINISHED,
     Raised (ValueError "Interview must be complete to generate report")).
Proof. vm_compute. reflexivity. Qed.

(** ** The state machine *)


Lemma transition_state_rejects self sid s T err w :
  _sessions w !! sid = Some s ->
  T ∉ VALID_TRANSITIONS (state s) ->
  transition_state self sid T err w
  = (w, Raised (StateTransitionError (invalid_transition_message (state s) T))).
Proof.
  intros Hs HT. unfold transition_state, bind, get_session. rewrite Hs.
  rewrite bool_decide_eq_false_2 by assumption. reflexivity.
Qed.




(** ** The session model *)

(** C8.  [should_end_interview] is true exactly when the core-question
    count has reached the configured maximum or the state is one of
    COMPLETE, CANCELLED, ERROR; otherwise it is false. *)
Theorem should_end_interview_iff :
  forall s,
    (should_end_interview s = true
     <-> (max_questions (setup s) <= total_core_questions_asked s)%Z
         \/ state s = COMPLETE \/ state s = CANCELLED \/ state s = ERROR)
    /\ (should_end_interview s = false
        <-> (total_core_questions_asked s < max_questions (setup s))%Z
            /\ state s <> COMPLETE /\ state s <> CANCELLED /\ state s <> ERROR).
Proof.
  intros s. unfold should_end_interview. split.
  - rewrite orb_true_iff, Z.leb_le, bool_decide_eq_true.
    rewrite !elem_of_cons, elem_of_nil. tauto.
  - rewrite orb_false_iff, Z.leb_gt, bool_decide_eq_false.
    rewrite !elem_of_cons, elem_of_nil. tauto.
Qed.

Lemma wants_followup_iff ev s :
  wants_followup ev s = true
  <-> needs_followup ev = true
      /\ mode (setup s) = STRUCTURED_FOLLOWUP
      /\ (total_followups_asked s < followup_cap s)%Z.
Proof.
  unfold wants_followup, followup_cap.
  rewrite !andb_true_iff, bool_decide_eq_true, Z.ltb_lt.
  split.
  - intros [[H1 H2] H3]. repeat split; try assumption.
    apply mode_value_inj. exact H2.
  - intros (H1 & H2 & H3). rewrite H2. repeat split; assumption.
Qed.

(** C4.  For the stored session the decision policy is handed, the
    follow-up branch ([_ask_followup]) is taken exactly when the
    evaluation needs a follow-up, the mode is [structured_followup] and
    fewer than [max_questions * 2] follow-ups were asked; otherwise the
    policy adapts the difficulty and goes on.  Once the session has
    reached the cap, no later state of it (whatever happened in between)
    takes the follow-up branch, whatever the evaluation says. *)
Theorem followup_branch_iff :
  forall self h ev w s,
    _sessions w !! h = Some s ->
    (wants_followup ev s = true
     <-> needs_followup ev = true
         /\ mode (setup s) = STRUCTURED_FOLLOWUP
         /\ (total_followups_asked s < max_questions (setup s) * 2)%Z)
    /\ (wants_followup ev s = true ->
        _decide_next_action self h ev w = _ask_followup self h ev w)
    /\ (wants_followup ev s = false ->
        _decide_next_action self h ev w = adapt_and_continue self h ev w)
    /\ ((max_questions (setup s) * 2 <= total_followups_asked s)%Z ->
        forall s' ev' w',
          evolves s s' -> _sessions w' !! h = Some s' ->
          wants_followup ev' s' = false
          /\ _decide_next_action self h ev' w' = adapt_and_continue self h ev' w').
Proof.
  intros self h ev w s Hs.
  assert (Hbranch : forall ev0 w0 s0, _sessions w0 !! h = Some s0 ->
            _decide_next_action self h ev0 w0
            = if wants_followup ev0 s0 then _ask_followup self h ev0 w0
              else adapt_and_continue self h ev0 w0).
  { intros ev0 w0 s0 H0. unfold _decide_next_action, bind, the_session.
    rewrite H0. destruct (wants_followup ev0 s0); reflexivity. }
  split; [apply wants_followup_iff|].
  split; [intros H; rewrite (Hbranch _ _ _ Hs), H; reflexivity|].
  split; [intros H; rewrite (Hbranch _ _ _ Hs), H; reflexivity|].
  intros Hcap s' ev' w' Hev Hs'.
  assert (Hno : wants_followup ev' s' = false).
  { destruct (wants_followup ev' s') eqn:E; [|reflexivity].
    apply wants_followup_iff in E. destruct E as (_ & _ & E).
    unfold followup_cap in E. rewrite (evolves_setup _ _ Hev) in E.
    pose proof (evolves_followups _ _ Hev). lia. }
  split; [assumption|]. rewrite (Hbranch _ _ _ Hs'), Hno. reflexivity.
Qed.

Lemma adapt_difficulty_in_range delta s :
  difficulty_in_range (adapt_difficulty delta s).
Proof. unfold difficulty_in_range. destruct s; simpl. lia. Qed.

Lemma adapt_difficulty_value delta s :
  current_difficulty (adapt_difficulty delta s)
  = Z.max 1 (Z.min 10 (current_difficulty s + delta))
  /\ difficulty_history (adapt_difficulty delta s)
     = (difficulty_history s
        ++ [Z.max 1 (Z.min 10 (current_difficulty s + delta))])%list.
Proof. destruct s; split; reflexivity. Qed.

(** C6.  Start from a session whose difficulty is in [1,10] and adapt it
    after any sequence of evaluations, each with a difficulty delta in
    [-2,2].  After every adaptation step (every prefix of the sequence)
    the difficulty is in [1,10]; each step sets it to the clamped sum
    [max(1, min(10, difficulty + delta))]. *)
Theorem difficulty_stays_clamped :
  forall s evs n,
    (1 <= current_difficulty s <= 10)%Z ->
    Forall (fun ev => (-2 <= difficulty_delta ev <= 2)%Z) evs ->
    (1 <= current_difficulty (adapt_all (take n evs) s) <= 10)%Z
    /\ forall ev,
         current_difficulty (adapt_difficulty (difficulty_delta ev) s)
         = Z.max 1 (Z.min 10 (current_difficulty s + difficulty_delta ev)).
Proof.
  intros s evs n Hs _. split.
  - assert (H : forall l s0, difficulty_in_range s0 ->
                difficulty_in_range (adapt_all l s0)).
    { induction l as [|ev l IH]; intros s0 H0; [exact H0|].
      simpl. apply IH. apply adapt_difficulty_in_range. }
    apply H. exact Hs.
  - intros ev. apply adapt_difficulty_value.
Qed.

Lemma followup_branch_iff_witness :
  _decide_next_action bare_orchestrator "session-7"
    (example_evaluation true 0) env_listening
  = _ask_followup bare_orchestrator "session-7"
      (example_evaluation true 0) env_listening.
Proof.
  destruct (followup_branch_iff bare_orchestrator "session-7"
              (example_evaluation true 0) env_listening
              (session_at "session-7" env_listening))
    as (_ & H & _); [vm_compute; reflexivity|].
  apply H. vm_compute. reflexivity.
Defined.

Lemma difficulty_stays_clamped_witness :
  (1 <= current_difficulty
          (adapt_all
             (take 3 [example_evaluation false 2; example_evaluation false 2;
                      example_evaluation false 2; example_evaluation false (-2)])
             (session_at "session-7" env_listening)) <= 10)%Z.
Proof.
  apply (difficulty_stays_clamped (session_at "session-7" env_listening)
           [example_evaluation false 2; example_evaluation false 2;
            example_evaluation false 2; example_evaluation false (-2)] 3).
  - vm_compute. split; discriminate.
  - repeat constructor; vm_compute; discriminate.
Defined.

Example difficulty_reaches_the_ceiling :
  current_difficulty
    (adapt_all [example_evaluation false 2; example_evaluation false 2;
                example_evaluation false 2]
       (session_at "session-7" env_listening)) = 10%Z.
Proof. vm_compute. reflexivity. Qed.

(** C5.  Take any session the orchestrator can hold: one stored after
    any sequence of calls of its interface on a new orchestrator.  Then
    apply to it any sequence of [add_question]s.  The two counters sum
    to the length of the question list and the core counter is the
    number of entries that are not follow-ups.  (With the empty sequence:
    the invariant holds after every operation on the session.) *)
Theorem counters_partition_questions :
  forall self calls clock entropy sid s qs,
    _sessions (run_calls self calls (initial_env clock entropy)) !! sid = Some s ->
    let s' := fold_left (fun s q => add_question q s) qs s in
    (total_core_questions_asked s' + total_followups_asked s'
     = Z.of_nat (length (questions s')))%Z
    /\ total_core_questions_asked s'
       = Z.of_nat (length (List.filter (fun q => negb (is_followup q)) (questions s'))).
Proof.
  intros self calls clock entropy sid s qs Hs.
  assert (H0 : counters_partition s).
  { eapply (reachable_sessions counters_partition); [| |exact Hs].
    - intros s0 (Hq & Hc & Hf & _). unfold counters_partition, count_core.
      rewrite Hq, Hc, Hf. split; reflexivity.
    - apply session_step_counters. }
  clear Hs. revert s H0.
  induction qs as [|q qs IH]; intros s H0; [exact H0|].
  simpl. apply IH. apply add_question_counters. exact H0.
Qed.

Lemma counters_partition_questions_witness :
  let s' := fold_left (fun s q => add_question q s)
              [example_followup_question; example_core_question]
              (session_at "session-7" env_listening) in
  (total_core_questions_asked s' + total_followups_asked s'
   = Z.of_nat (length (questions s')))%Z
  /\ total_core_questions_asked s'
     = Z.of_nat (length (List.filter (fun q => negb (is_followup q)) (questions s'))).
Proof.
  apply (counters_partition_questions bare_orchestrator
           [Create example_setup; Start "session-7"] 100 example_entropy
           "session-7" (session_at "session-7" env_listening)
           [example_followup_question; example_core_question]).
  vm_compute. reflexivity.
Defined.

Example counters_after_two_more_questions :
  let s' := fold_left (fun s q => add_question q s)
              [example_followup_question; example_core_question]
              (session_at "session-7" env_listening) in
  (total_core_questions_asked s', total_followups_asked s', length (questions s'))
  = (2%Z, 1%Z, 3%nat).
Proof. vm_compute. reflexivity. Qed.

Lemma run_calls_evolves self calls w :
  forallb (fun c => negb (is_create c)) calls = true ->
  well_keyed w ->
  well_keyed (run_calls self calls w) /\ env_evolves w (run_calls self calls w).
Proof.
  revert w. induction calls as [|c calls IH]; intros w Hc Hw; simpl.
  - split; [assumption | apply env_evolves_refl].
  - simpl in Hc. apply andb_true_iff in Hc. destruct Hc as [Hc Hcs].
    apply negb_true_iff in Hc.
    destruct (api_call_evolves self c w Hc Hw) as [Hw1 H1].
    destruct (IH _ Hcs Hw1) as [Hw2 H2].
    split; [assumption|]. eapply env_evolves_trans; eassumption.
Qed.

Lemma reachable_well_keyed self calls clock entropy :
  well_keyed (run_calls self calls (initial_env clock entropy)).
Proof.
  apply (all_sessions_run_calls (fun _ => True)); auto.
  apply all_sessions_initial.
Qed.

Lemma is_question_asked_mono t s s' :
  asked_question_hashes s ⊆ asked_question_hashes s' ->
  is_question_asked t s = true -> is_question_asked t s' = true.
Proof.
  unfold is_question_asked. rewrite !bool_decide_eq_true. set_solver.
Qed.

Lemma is_question_asked_normalized t t' s :
  _normalize_question t = _normalize_question t' ->
  is_question_asked t s = is_question_asked t' s.
Proof. unfold is_question_asked. intros ->. reflexivity. Qed.

Lemma add_question_asked q s :
  is_question_asked (question_text q) (add_question q s) = true.
Proof.
  unfold is_question_asked, add_question. rewrite bool_decide_eq_true.
  destruct s; simpl.
  destruct (PyStr.truthy _), (is_followup q); simpl; set_solver.
Qed.

(** C7.  Add a question [q] to any session; let the session go through
    any further steps, up to a state [s1] stored under [k] (in a store
    keyed by session identifier).  Then [is_question_asked] of the text
    of [q] is true right after the addition and at [s1], and after any
    further calls of the interface (on this or any other stored session)
    the session is still stored, its hash set has only grown, and the
    text is still reported as asked. *)
Theorem asked_question_stays_asked :
  forall self calls w k s q s1,
    well_keyed w ->
    forallb (fun c => negb (is_create c)) calls = true ->
    evolves (add_question q s) s1 ->
    _sessions w !! k = Some s1 ->
    is_question_asked (question_text q) (add_question q s) = true
    /\ is_question_asked (question_text q) s1 = true
    /\ exists s',
         _sessions (run_calls self calls w) !! k = Some s'
         /\ asked_question_hashes s1 ⊆ asked_question_hashes s'
         /\ is_question_asked (question_text q) s' = true.
Proof.
  intros self calls w k s q s1 Hw Hc Hev Hs1.
  pose proof (add_question_asked q s) as H0.
  assert (H1 : is_question_asked (question_text q) s1 = true).
  { eapply is_question_asked_mono; [|exact H0]. apply evolves_hashes, Hev. }
  split; [assumption|]. split; [assumption|].
  destruct (run_calls_evolves self calls w Hc Hw) as [_ He].
  specialize (He k). rewrite Hs1 in He.
  inversion He as [? s' Hev' E0 E1 |]; subst.
  exists s'. split; [reflexivity|].
  pose proof (evolves_hashes _ _ Hev') as Hsub.
  split; [assumption|]. eapply is_question_asked_mono; eassumption.
Qed.

Lemma asked_question_stays_asked_witness :
  exists s',
    _sessions
      (run_calls bare_orchestrator
         [Submit "session-7" None (Some "We load the data in nightly batches.");
          EndInterview "session-7" "user_ended"]
         env_followup_added) !! "session-7" = Some s'
    /\ is_question_asked "can you provide a specific example from your experience"
         s' = true.
Proof.
  destruct (asked_question_stays_asked bare_orchestrator
              [Submit "session-7" None (Some "We load the data in nightly batches.");
               EndInterview "session-7" "user_ended"]
              env_followup_added "session-7"
              (session_at "session-7" env_listening)
              example_followup_question
              (add_question example_followup_question
                 (session_at "session-7" env_listening)))
    as (_ & _ & s' & Hs' & _ & Hasked).
  - eapply (keeps_modify "session-7" (add_question example_followup_question)).
    + intros s. apply rtc_once. constructor.
    + apply surjective_pairing.
    + apply reachable_well_keyed.
  - reflexivity.
  - apply rtc_refl.
  - vm_compute. reflexivity.
  - exists s'. split; [exact Hs'|].
    rewrite (is_question_asked_normalized _
               (question_text example_followup_question));
      [exact Hasked | vm_compute; reflexivity].
Defined.





Example followup_keeps_the_buffer :
  let s := session_at "session-7" env_followup_added in
  (map role (current_question_context s), current_question_followups s)
  = (["interviewer"; "interviewer"], 1%Z).
Proof. vm_compute. reflexivity. Qed.

(** ** Reports *)

Lemma bind_eq_returned {A B} (m : M A) (k : A -> M B) w w' a :
  m w = (w', Returned a) -> bind m k w = k a w'.
Proof. intros E. unfold bind. rewrite E. reflexivity. Qed.

Lemma bind_eq_raised {A B} (m : M A) (k : A -> M B) w w' e :
  m w = (w', Raised e) -> bind m k w = (w', Raised e).
Proof. intros E. unfold bind. rewrite E. reflexivity. Qed.

Lemma generate_report_not_complete self sid s w :
  _sessions w !! sid = Some s ->
  state s <> COMPLETE -> state s <> GENERATING_REPORT ->
  generate_report self sid w
  = (w, Raised (ValueError "Interview must be complete to generate report")).
Proof.
  intros Hs H1 H2. unfold generate_report, bind, get_session. rewrite Hs.
  rewrite bool_decide_eq_false_2; [reflexivity|].
  rewrite !elem_of_cons, elem_of_nil. tauto.
Qed.

(** From [COMPLETE], with a report collaborator that returns, the report
    is produced and the session ends in [FINISHED]. *)
Lemma generate_report_from_complete self generator sid s w :
  report_generator self = Some generator ->
  (forall s', exists report, generate generator s' = Returned report) ->
  _sessions w !! sid = Some s ->
  state s = COMPLETE ->
  exists w' report s',
    generate_report self sid w = (w', Returned report)
    /\ _sessions w' !! sid = Some s'
    /\ state s' = FINISHED
    /\ generate generator (set_state GENERATING_REPORT s) = Returned report.
Proof.
  intros Hg Htotal Hs Hst.
  assert (H : returns (holds sid s) (generate_report self sid)
                (fun report m =>
                   exists s', holds sid s' m /\ state s' = FINISHED
                     /\ generate generator (set_state GENERATING_REPORT s)
                        = Returned report)).
  { unfold generate_report.
    eapply returns_bind; [apply returns_get_session|].
    intros found. apply returns_pure. intros E; subst found.
    rewrite Hst. simpl negb. cbv iota.
    eapply returns_bind.
    { apply returns_transition_state. rewrite Hst. repeat constructor. }
    intros s1. apply returns_exists. intros now. apply returns_pure.
    intros E; subst s1. simpl after_transition.
    rewrite Hg.
    destruct (Htotal (set_state GENERATING_REPORT s)) as [report Hr].
    eapply returns_bind
      with (Q := fun r m => r = report /\ holds sid (set_state GENERATING_REPORT s) m).
    { eapply returns_bind; [apply returns_the_session|].
      intros s1. apply returns_pure. intros E; subst s1.
      rewrite Hr. apply returns_lift. }
    intros r. apply returns_pure. intros E; subst r.
    eapply returns_bind.
    { apply returns_transition_state. destruct s; simpl. repeat constructor. }
    intros s2. apply returns_exists. intros now2. apply returns_pure.
    intros E; subst s2.
    apply returns_ret. intros m Hm.
    eexists. split; [exact Hm|]. split; [|exact Hr].
    apply after_transition_state. }
  destruct (H w Hs) as (w' & report & E & s' & Hs' & Hf & Hr).
  exists w', report, s'. auto.
Qed.

(** C3 (where the code departs from it).  For a stored session in state
    [GENERATING_REPORT] the guard of [generate_report] lets the call
    pass, and the transition to [GENERATING_REPORT] that follows is
    rejected by the table: the call raises [StateTransitionError], no
    report is returned, and nothing has changed. *)
Theorem generate_report_while_generating :
  forall self w sid s,
    _sessions w !! sid = Some s ->
    state s = GENERATING_REPORT ->
    generate_report self sid w
    = (w, Raised (StateTransitionError
                    ("Invalid transition from InterviewState.GENERATING_REPORT"
                     ++ " to InterviewState.GENERATING_REPORT. Valid transitions: "
                     ++ "[<InterviewState.FINISHED: 'finished'>, "
                     ++ "<InterviewState.ERROR: 'error'>]"))).
Proof.
  intros self w sid s Hs Hst.
  unfold generate_report.
  rewrite (bind_eq_returned _ _ w w (Some s))
    by (unfold get_session; rewrite Hs; reflexivity).
  rewrite Hst. simpl negb. cbv iota.
  apply bind_eq_raised.
  rewrite (transition_state_rejects self sid s GENERATING_REPORT None w Hs).
  - rewrite Hst. reflexivity.
  - rewrite Hst. simpl. rewrite !elem_of_cons, elem_of_nil.
    intros [H|[H|[]]]; discriminate H.
Qed.

Example env_report_failed_state :
  state (session_at "session-7" env_report_failed) = GENERATING_REPORT.
Proof. vm_compute. reflexivity. Qed.

Lemma generate_report_while_generating_witness :
  generate_report (orchestrator_with_reports broken_report_generator)
    "session-7" env_report_failed
  = (env_report_failed,
     Raised (StateTransitionError
               ("Invalid transition from InterviewState.GENERATING_REPORT"
                ++ " to InterviewState.GENERATING_REPORT. Valid transitions: "
                ++ "[<InterviewState.FINISHED: 'finished'>, "
                ++ "<InterviewState.ERROR: 'error'>]"))).
Proof.
  apply (generate_report_while_generating
           (orchestrator_with_reports broken_report_generator) env_report_failed
           "session-7" (session_at "session-7" env_report_failed)).
  - vm_compute. reflexivity.
  - vm_compute. reflexivity.
Defined.

(** ** The heuristic evaluation and the running scores *)

Lemma _update_running_scores_unknown_skill ev s :
  dict_mem (ev_skill_id ev) (skill_scores s) = false ->
  _update_running_scores ev s = refresh_running_score s.
Proof.
  intros H. unfold _update_running_scores, refresh_running_score.
  rewrite H. reflexivity.
Qed.

Lemma _update_running_scores_known_skill ev s :
  dict_mem (ev_skill_id ev) (skill_scores s) = true ->
  skill_scores (_update_running_scores ev s)
  = dict_append (ev_skill_id ev) (overall_score (scores ev)) (skill_scores s).
Proof.
  intros H. unfold _update_running_scores. rewrite H.
  destruct s; simpl.
  match goal with |- context [is_nil ?l] => destruct (is_nil l) end;
    reflexivity.
Qed.

Lemma skills_remaining_not_asked s k :
  k ∈ skills_remaining (_build_context s) ->
  (k ∉ asked_skills s) /\ dict_mem k (skill_scores s) = true.
Proof.
  unfold _build_context. simpl. rewrite list_elem_of_filter.
  intros [Hn Hk]. split.
  - intros Ha. apply Hn. apply elem_of_elements, elem_of_union_l. exact Ha.
  - unfold dict_mem. apply bool_decide_eq_true. exact Hk.
Qed.

(** C10.  Without an AI layer, or without a [Question] object (and
    [submit_response] never passes one), [evaluate_response] returns the
    heuristic evaluation, whose skill is the first of the context's
    remaining skills, or ["general"] when none remains: not the skill of
    the question that was answered.  For the context [submit_response]
    builds from the session: a first remaining skill was never asked and
    is a key of [skill_scores], so the score is appended under it; and
    when none remains and ["general"] is no key, the score reaches
    neither [skill_scores] nor the running score, which is recomputed
    from the scores already there. *)
Theorem heuristic_evaluation_skill :
  forall engine question_id transcript question s,
    EvaluationEngine.ai_reasoning engine = None \/ question = None ->
    let context := _build_context s in
    let ev := EvaluationEngine._heuristic_evaluation question_id transcript context in
    EvaluationEngine.evaluate_response engine question_id transcript context question
    = Returned ev
    /\ ev_skill_id ev
       = match skills_remaining context with
         | first :: _ => first
         | [] => "general"
         end
    /\ match skills_remaining context with
       | first :: _ =>
           (first ∉ asked_skills s)
           /\ dict_mem first (skill_scores s) = true
           /\ skill_scores (_update_running_scores ev s)
              = dict_append first (overall_score (scores ev)) (skill_scores s)
       | [] =>
           dict_mem "general" (skill_scores s) = false ->
           _update_running_scores ev s = refresh_running_score s
           /\ skill_scores (_update_running_scores ev s) = skill_scores s
       end.
Proof.
  intros engine question_id transcript question s Hno context ev.
  split; [|split].
  - unfold EvaluationEngine.evaluate_response.
    destruct Hno as [-> | ->]; [reflexivity|].
    destruct (EvaluationEngine.ai_reasoning engine); reflexivity.
  - reflexivity.
  - assert (Hid : ev_skill_id ev
                  = match skills_remaining context with
                    | first :: _ => first
                    | [] => "general"
                    end) by reflexivity.
    destruct (skills_remaining context) as [|first rest] eqn:Hrem.
    + intros Hg.
      assert (Hu : _update_running_scores ev s = refresh_running_score s).
      { apply _update_running_scores_unknown_skill. rewrite Hid. exact Hg. }
      split; [exact Hu|]. rewrite Hu. unfold refresh_running_score.
      destruct s; simpl.
      match goal with |- context [is_nil ?l] => destruct (is_nil l) end;
        reflexivity.
    + destruct (skills_remaining_not_asked s first) as [Hna Hkey].
      { fold context. rewrite Hrem. apply list_elem_of_here. }
      split; [exact Hna|]. split; [exact Hkey|].
      rewrite <- Hid. apply _update_running_scores_known_skill.
        rewrite Hid. exact Hkey.
Qed.

Lemma heuristic_evaluation_skill_witness :
  let s := session_at "session-7" env_listening in
  let ev := EvaluationEngine._heuristic_evaluation "q_11"
              "We load the data in nightly batches." (_build_context s) in
  map skill_id (questions s) = [Some "etl_pipeline_design"]
  /\ ev_skill_id ev = "sql_joins"
  /\ ("sql_joins" ∉ asked_skills s)
  /\ skill_scores (_update_running_scores ev s)
     = dict_append "sql_joins" (overall_score (scores ev)) (skill_scores s).
Proof.
  intros s ev.
  destruct (heuristic_evaluation_skill (EvaluationEngine.mk None) "q_11"
              "We load the data in nightly batches." None s (or_introl eq_refl))
    as (_ & Hid & Hrec).
  assert (Hrem : exists rest,
             skills_remaining (_build_context s) = "sql_joins" :: rest).
  { eexists. vm_compute. reflexivity. }
  destruct Hrem as [rest Hrem]. rewrite Hrem in Hid, Hrec.
  destruct Hrec as (Hna & _ & Hsc).
  split; [vm_compute; reflexivity|]. auto.
Defined.

(** Through the whole flow: the answer to a question on
    [etl_pipeline_design] is scored under [sql_joins]. *)
Example score_recorded_under_another_skill :
  let w := run_call orchestrator_with_engine
             (Submit "session-7" None (Some "short answer")) env_listening in
  let s := session_at "session-7" w in
  (map skill_id (questions (session_at "session-7" env_listening)),
   option_map ev_skill_id
     (evaluation (default example_core_question (questions s !! 0%nat))),
   map (fun kv => (fst kv, length (snd kv))) (take 2 (skill_scores s)),
   filter (fun kv => fst kv = "etl_pipeline_design") (skill_scores s))
  = ([Some "etl_pipeline_design"], Some "sql_joins",
     [("sql_joins", 1%nat); ("sql_aggregations", 0%nat)],
     [("etl_pipeline_design", [])]).
Proof. vm_compute. reflexivity. Qed.

(** A session whose only skill is [sql_joins]: the first answer is
    scored under [sql_joins] (which no question targeted), after which no
    skill remains; the second answer is scored under ["general"] and
    lost: one score is recorded after two evaluated answers. *)
Example second_score_dropped :
  let w := run_calls orchestrator_with_engine
             [Create one_skill_setup; Start "session-7";
              Submit "session-7" None (Some "short answer");
              Submit "session-7" None (Some "another short answer")]
             (initial_env 100 example_entropy) in
  let s := session_at "session-7" w in
  (map (fun q => option_map ev_skill_id (evaluation q)) (questions s),
   map (fun kv => (fst kv, length (snd kv))) (skill_scores s))
  = ([Some "sql_joins"; Some "general"; None], [("sql_joins", 1%nat)]).
Proof. vm_compute. reflexivity. Qed.

(** ** Audio synthesis and question delivery *)

Lemma _tts_edge_no_url self text voice :
  url (AudioProcessor._tts_edge self text voice) = None.
Proof.
  unfold AudioProcessor._tts_edge.
  destruct (AudioProcessor.edge_tts self text _) as [bytes|[]]; reflexivity.
Qed.

(** Whatever its engines do, the processor returns a record, and the
    record carries no url. *)
Lemma text_to_speech_no_url self text voice :
  url (AudioProcessor.text_to_speech self text voice) = None.
Proof.
  unfold AudioProcessor.text_to_speech,
    AudioProcessor._tts_kokoro, AudioProcessor._tts_piper.
  repeat match goal with
         | |- context [decide ?P] => destruct (decide P)
         end;
    repeat match goal with
           | |- context [match ?o with Returned _ => _ | Raised _ => _ end] =>
               destruct o
           end;
    first [reflexivity | apply _tts_edge_no_url].
Qed.

(** When every engine is out of order the record is the empty audio
    with the error of the last engine tried. *)
Lemma text_to_speech_all_engines_down self text voice e :
  (forall t v, AudioProcessor.kokoro self t v = Raised e) ->
  (forall t v, AudioProcessor.piper self t v = Raised e) ->
  (forall t v, AudioProcessor.edge_tts self t v = Raised e) ->
  audio_data (AudioProcessor.text_to_speech self text voice) = ""
  /\ error (AudioProcessor.text_to_speech self text voice) <> None.
Proof.
  intros Hk Hp He.
  unfold AudioProcessor.text_to_speech,
    AudioProcessor._tts_kokoro, AudioProcessor._tts_piper,
    AudioProcessor._tts_edge.
  repeat match goal with
         | |- context [decide ?P] => destruct (decide P)
         end;
    rewrite ?Hk, ?Hp, ?He; destruct e; simpl; split; congruence.
Qed.

Lemma returns__generate_mock_question k s :
  returns (holds k s) (_generate_mock_question k) (fun _ => holds k s).
Proof.
  unfold _generate_mock_question.
  eapply returns_bind; [apply returns_the_session|].
  intros s0. apply returns_pure. intros E; subst s0.
  eapply returns_bind with (Q := fun _ => holds k s).
  { unfold random_choice. eapply returns_bind;
      [apply returns_silent, silent_draw|].
    intros n. apply returns_ret. intros m Hm. exact Hm. }
  intros [[text category] skill].
  eapply returns_bind; [apply returns_silent, silent_draw|].
  intros token. apply returns_ret. intros m Hm. exact Hm.
Qed.

Lemma returns_question_source self k s :
  question_source_returns self ->
  returns (holds k s)
    (match ai_reasoning self with
     | Some ai => lift (generate_question ai (_build_context s))
     | None => _generate_mock_question k
     end)
    (fun _ => holds k s).
Proof.
  unfold question_source_returns. intros H.
  destruct (ai_reasoning self) as [ai|].
  - destruct (H (_build_context s)) as [q ->].
    eapply returns_weaken
      with (P := holds k s) (Q := fun r m => r = q /\ holds k s m).
    + apply returns_lift.
    + intros x Hx. exact Hx.
    + intros a x [_ Hx]. exact Hx.
  - apply returns__generate_mock_question.
Qed.

Lemma returns_synthesize self processor text record P :
  audio_processor self = Some (AudioProcessor.as_collaborator processor) ->
  returns P (synthesize self text record)
    (fun r m =>
       r = (Some (AudioProcessor.text_to_speech processor text None),
            set_question_audio_url None record)
       /\ P m).
Proof.
  intros Ha. unfold synthesize. rewrite Ha. simpl.
  eapply returns_bind; [apply returns_lift|].
  intros a. apply returns_pure. intros E; subst a.
  rewrite text_to_speech_no_url.
  apply returns_ret. intros m Hm. auto.
Qed.

Lemma after_transition_questions T err now s :
  questions (after_transition T err now s) = questions s.
Proof. destruct s, T; reflexivity. Qed.

Lemma add_question_questions q s :
  questions (add_question q s) = (questions s ++ [q])%list.
Proof. apply add_question_frame. Qed.

Lemma add_question_state q s : state (add_question q s) = state s.
Proof. apply add_question_frame. Qed.

Ltac bind_with spec := eapply returns_bind; [spec | intros ?].
Ltac bind_silent lemma := bind_with ltac:(apply returns_silent, lemma).
Ltac known := repeat first [apply returns_exists; intros ? | apply returns_pure; intros ?]; subst.

Lemma ask_next_question_delivers self processor sid s :
  audio_processor self = Some (AudioProcessor.as_collaborator processor) ->
  question_source_returns self ->
  should_end_interview s = false ->
  ASKING ∈ VALID_TRANSITIONS (state s) ->
  returns (holds sid s) (ask_next_question self sid)
    (fun r m =>
       exists qid text n total d s' qr,
         r = ActQuestion qid text n total d
               (Some (AudioProcessor.text_to_speech processor text None))
         /\ holds sid s' m /\ state s' = LISTENING
         /\ questions s' = (questions s ++ [qr])%list
         /\ question_text qr = text /\ question_audio_url qr = None
         /\ is_followup qr = false).
Proof.
  intros Haudio Hsource Hend Hask. unfold ask_next_question.
  bind_with ltac:(apply returns_get_session). known.
  rewrite Hend.
  bind_with ltac:(apply returns_transition_state; exact Hask). known.
  bind_with ltac:(apply returns_the_session). known.
  cbv zeta.
  bind_with ltac:(apply returns_question_source; exact Hsource).
  bind_silent silent_utcnow.
  bind_with ltac:(apply returns_synthesize; exact Haudio). known.
  cbv beta iota.
  bind_with ltac:(apply returns_modify_session).
  bind_with ltac:(apply returns_update_session).
  bind_silent (@silent_notify (string * Question)).
  bind_with ltac:(apply returns_transition_state).
  { rewrite add_question_state, after_transition_state. repeat constructor. }
  known.
  bind_with ltac:(apply returns_the_session). known.
  apply returns_ret. intros m Hm.
  eexists _, _, _, _, _, _, _. split; [reflexivity|].
  split; [exact Hm|]. split; [apply after_transition_state|].
  split.
  { rewrite after_transition_questions, add_question_questions,
      after_transition_questions. reflexivity. }
  repeat split; reflexivity.
Qed.

Lemma returns_followup_source self k s ev :
  followup_source_returns self ->
  returns (holds k s)
    (match ai_reasoning self with
     | Some ai =>
         bind (the_session k)
           (fun session => lift (generate_followup ai (_build_context session) ev))
     | None => ret (_generate_mock_followup ev)
     end)
    (fun _ => holds k s).
Proof.
  unfold followup_source_returns. intros H.
  destruct (ai_reasoning self) as [ai|].
  - bind_with ltac:(apply returns_the_session). known.
    destruct (H (_build_context s) ev) as [d ->].
    eapply returns_weaken
      with (P := holds k s) (Q := fun r m => r = d /\ holds k s m).
    + apply returns_lift.
    + intros x Hx. exact Hx.
    + intros a x [_ Hx]. exact Hx.
  - apply returns_ret. intros m Hm. exact Hm.
Qed.

Lemma _ask_followup_delivers self processor sid s ev current_question :
  audio_processor self = Some (AudioProcessor.as_collaborator processor) ->
  followup_source_returns self ->
  session_id s = sid ->
  get_current_question s = Returned (Some current_question) ->
  ASKING ∈ VALID_TRANSITIONS (state s) ->
  returns (holds sid s) (_ask_followup self sid ev)
    (fun r m =>
       exists qid text reason s' qr,
         r = ActFollowup qid text reason
               (Some (AudioProcessor.text_to_speech processor text None))
         /\ holds sid s' m /\ state s' = LISTENING
         /\ questions s' = (questions s ++ [qr])%list
         /\ question_text qr = text /\ question_audio_url qr = None
         /\ is_followup qr = true
         /\ parent_question_id qr = Some (question_id current_question)).
Proof.
  intros Haudio Hsource Hid Hcur Hask. subst sid. unfold _ask_followup.
  bind_with ltac:(apply returns_followup_source; exact Hsource).
  bind_with ltac:(apply returns_the_session). known.
  rewrite Hcur.
  bind_with ltac:(apply returns_lift). known.
  cbv zeta.
  eapply returns_bind with (Q := fun _ => holds (session_id s) s).
  { match goal with
    | |- returns _ (if ?b then _ else _) _ => destruct b
    end; [apply returns_silent, silent_emit | apply returns_silent, silent_ret]. }
  intros ?.
  bind_silent silent_utcnow.
  bind_with ltac:(apply returns_synthesize; exact Haudio). known.
  cbv beta iota.
  bind_with ltac:(apply returns_modify_session).
  bind_with ltac:(apply returns_update_session).
  bind_with ltac:(apply returns_transition_state).
  { rewrite add_question_state. exact Hask. }
  known.
  bind_with ltac:(apply returns_transition_state).
  { rewrite after_transition_state. repeat constructor. }
  known.
  apply returns_ret. intros m Hm.
  eexists _, _, _, _, _. split; [reflexivity|].
  split; [exact Hm|]. split; [apply after_transition_state|].
  split.
  { rewrite !after_transition_questions, add_question_questions. reflexivity. }
  repeat split; reflexivity.
Qed.

(** C2 as stated fails.  The orchestrator calls [text_to_speech] of the
    audio collaborator it holds with no handler around the call: when
    that call raises, [ask_next_question] raises the same exception
    (the session, already moved to [ASKING], has no question), and so
    does the follow-up path reached through [submit_response]. *)
Lemma audio_exception_blocks_delivery :
  should_end_interview (session_at "session-7" env_ready) = false
  /\ snd (ask_next_question (orchestrator_with_audio raising_audio)
            "session-7" env_ready)
     = Raised (RuntimeError "synthesis unavailable")
  /\ (let s := session_at "session-7"
                 (fst (ask_next_question (orchestrator_with_audio raising_audio)
                         "session-7" env_ready)) in
      (state s, questions s) = (ASKING, []))
  /\ snd (_ask_followup (orchestrator_with_audio raising_audio)
            "session-7" (example_evaluation true 0) env_deciding)
     = Raised (RuntimeError "synthesis unavailable")
  /\ snd (submit_response (orchestrator_with_audio raising_audio)
            "session-7" None (Some "short answer") env_listening)
     = Raised (RuntimeError "synthesis unavailable").
Proof. vm_compute. repeat split; reflexivity. Qed.

(** C2, amended.  With the repository's [AudioProcessor] as the audio
    collaborator, whatever its synthesis engines do (return or raise,
    any of them or all), a stored session whose state admits [ASKING] is
    delivered its question: [ask_next_question] (when the interview is
    not to end and the question generator returns) and the follow-up
    path (when there is a current question and the follow-up generator
    returns) return the question with the audio record of the
    processor, which carries no url; the question is appended with no
    audio url and the session is [LISTENING]. *)
Theorem question_delivered_whatever_the_engines_do :
  forall self processor w sid s,
    audio_processor self = Some (AudioProcessor.as_collaborator processor) ->
    _sessions w !! sid = Some s ->
    ASKING ∈ VALID_TRANSITIONS (state s) ->
    (should_end_interview s = false ->
     question_source_returns self ->
     exists w' qid text n total d s' qr,
       ask_next_question self sid w
       = (w', Returned (ActQuestion qid text n total d
                          (Some (AudioProcessor.text_to_speech processor text None))))
       /\ url (AudioProcessor.text_to_speech processor text None) = None
       /\ _sessions w' !! sid = Some s' /\ state s' = LISTENING
       /\ questions s' = (questions s ++ [qr])%list
       /\ question_text qr = text /\ question_audio_url qr = None)
    /\ (forall ev current_question,
          session_id s = sid ->
          get_current_question s = Returned (Some current_question) ->
          followup_source_returns self ->
          exists w' qid text reason s' qr,
            _ask_followup self sid ev w
            = (w', Returned (ActFollowup qid text reason
                               (Some (AudioProcessor.text_to_speech processor text None))))
            /\ url (AudioProcessor.text_to_speech processor text None) = None
            /\ _sessions w' !! sid = Some s' /\ state s' = LISTENING
            /\ questions s' = (questions s ++ [qr])%list
            /\ question_text qr = text /\ question_audio_url qr = None
            /\ is_followup qr = true).
Proof.
  intros self processor w sid s Haudio Hs Hask. split.
  - intros Hend Hsource.
    destruct (ask_next_question_delivers self processor sid s
                Haudio Hsource Hend Hask w Hs)
      as (w' & r & E & qid & text & n & total & d & s' & qr
          & -> & Hs' & Hst & Hq & Ht & Hu & _).
    exists w', qid, text, n, total, d, s', qr.
    split; [exact E|]. split; [apply text_to_speech_no_url|]. auto.
  - intros ev current_question Hid Hcur Hsource.
    destruct (_ask_followup_delivers self processor sid s ev current_question
                Haudio Hsource Hid Hcur Hask w Hs)
      as (w' & r & E & qid & text & reason & s' & qr
          & -> & Hs' & Hst & Hq & Ht & Hu & Hf & _).
    exists w', qid, text, reason, s', qr.
    split; [exact E|]. split; [apply text_to_speech_no_url|].
    repeat split; assumption.
Qed.

Lemma question_delivered_whatever_the_engines_do_witness :
  (exists w' qid text n total d s' qr,
      ask_next_question
        (orchestrator_with_audio (AudioProcessor.as_collaborator processor_engines_down))
        "session-7" env_ready
      = (w', Returned (ActQuestion qid text n total d
                         (Some (AudioProcessor.text_to_speech
                                  processor_engines_down text None))))
      /\ url (AudioProcessor.text_to_speech processor_engines_down text None) = None
      /\ _sessions w' !! "session-7" = Some s' /\ state s' = LISTENING
      /\ questions s' = (questions (session_at "session-7" env_ready) ++ [qr])%list
      /\ question_text qr = text /\ question_audio_url qr = None).
Proof.
  destruct (question_delivered_whatever_the_engines_do
              (orchestrator_with_audio
                 (AudioProcessor.as_collaborator processor_engines_down))
              processor_engines_down env_ready "session-7"
              (session_at "session-7" env_ready))
    as [Hask _].
  - reflexivity.
  - vm_compute. reflexivity.
  - apply (bool_decide_unpack _). vm_compute. exact I.
  - apply Hask; [vm_compute; reflexivity | exact I].
Defined.

Example engines_down_followup_still_delivered :
  snd (_ask_followup
         (orchestrator_with_audio
            (AudioProcessor.as_collaborator processor_engines_down))
         "session-7" (example_evaluation true 0) env_deciding)
  = Returned
      (ActFollowup "q_11_followup_1"
         "Can you provide a specific example from your experience?"
         "Need more depth"
         (Some {| audio_data := ""; format := "wav"; sample_rate := 16000;
                  duration_seconds := 0%float; url := None;
                  error := Some "connection refused" |})).
Proof. vm_compute. reflexivity. Qed.

Example engines_down_question_still_delivered :
  let r := ask_next_question
             (orchestrator_with_audio
                (AudioProcessor.as_collaborator processor_engines_down))
             "session-7" env_ready in
  (match snd r with
   | Returned (ActQuestion _ text _ _ _ (Some a)) => Some (text, url a, error a)
   | _ => None
   end,
   map question_audio_url (questions (session_at "session-7" (fst r))),
   state (session_at "session-7" (fst r)))
  = (Some ("Design an ETL pipeline for processing 10 million records daily.",
           None, Some "connection refused"),
     [None], LISTENING).
Proof. vm_compute. reflexivity. Qed.

(** * Further properties of the code *)

(** ** Strings: [split] and [join] *)

Lemma append_cons c s t : (String c s ++ t)%string = String c (s ++ t)%string.
Proof. reflexivity. Qed.

Lemma append_empty_right s : (s ++ "")%string = s.
Proof. induction s as [|c s IH]; [reflexivity|]. rewrite append_cons, IH. reflexivity. Qed.

Lemma rev_app_rev_app w a b :
  String.rev_app (String.rev_app w a) b = String.rev_app a (w ++ b)%string.
Proof.
  revert a b. induction w as [|c w IH]; intros a b; [reflexivity|].
  simpl String.rev_app at 2. rewrite IH. reflexivity.
Qed.

Lemma rev_rev_app w : String.rev (String.rev_app w "") = w.
Proof.
  unfold String.rev. rewrite rev_app_rev_app. simpl. apply append_empty_right.
Qed.

Lemma rev_app_not_empty w a : w <> "" -> PyStr.is_empty (String.rev_app w a) = false.
Proof.
  revert a. induction w as [|c w IH]; intros a Hw; [congruence|].
  simpl. destruct w as [|d w]; [reflexivity|]. apply IH. discriminate.
Qed.

Lemma split_go_token w cur rest :
  string_forall (fun c => negb (PyStr.is_space c)) w = true ->
  PyStr.split_go cur (w ++ rest)%string
  = PyStr.split_go (String.rev_app w cur) rest.
Proof.
  revert cur. induction w as [|c w IH]; intros cur Hw; [reflexivity|].
  simpl in Hw. apply andb_true_iff in Hw. destruct Hw as [Hc Hw].
  rewrite append_cons. simpl PyStr.split_go.
  apply negb_true_iff in Hc. rewrite Hc. apply IH. exact Hw.
Qed.

Lemma split_token_then_space w rest :
  is_token w ->
  PyStr.split (w ++ String " " rest)%string = w :: PyStr.split rest.
Proof.
  intros [Hne Hw]. unfold PyStr.split. rewrite (split_go_token w "" _ Hw).
  simpl PyStr.split_go. change (PyStr.is_space " ") with true. cbv iota.
  rewrite (rev_app_not_empty w "" Hne), rev_rev_app. reflexivity.
Qed.

Lemma split_token w : is_token w -> PyStr.split w = [w].
Proof.
  intros [Hne Hw]. unfold PyStr.split.
  rewrite <- (append_empty_right w) at 1. rewrite (split_go_token w "" _ Hw).
  simpl. rewrite (rev_app_not_empty w "" Hne), rev_rev_app. reflexivity.
Qed.

(** Splitting what [" ".join] made of tokens gives the tokens back. *)
Lemma split_join ws :
  Forall is_token ws -> PyStr.split (PyStr.join " " ws) = ws.
Proof.
  induction 1 as [|w ws Hw Hws IH]; [reflexivity|].
  destruct ws as [|w2 ws].
  - simpl. apply split_token. exact Hw.
  - change (PyStr.join " " (w :: w2 :: ws))
      with (w ++ String " " (PyStr.join " " (w2 :: ws)))%string.
    rewrite split_token_then_space by exact Hw. rewrite IH. reflexivity.
Qed.

Lemma string_forall_rev_app p w a :
  string_forall p w = true -> string_forall p a = true ->
  string_forall p (String.rev_app w a) = true.
Proof.
  revert a. induction w as [|c w IH]; intros a Hw Ha; [exact Ha|].
  simpl in Hw. apply andb_true_iff in Hw. destruct Hw as [Hc Hw].
  simpl. apply IH; [exact Hw|]. simpl. rewrite Hc, Ha. reflexivity.
Qed.

Lemma string_forall_append p s t :
  string_forall p (s ++ t)%string = string_forall p s && string_forall p t.
Proof.
  induction s as [|c s IH]; [reflexivity|].
  rewrite append_cons. simpl. rewrite IH, andb_assoc. reflexivity.
Qed.

(** The words of a split are tokens, made of characters of the string. *)
Lemma split_go_tokens p cur s :
  string_forall p cur = true ->
  string_forall (fun c => negb (PyStr.is_space c)) cur = true ->
  string_forall p s = true ->
  Forall (fun w => is_token w /\ string_forall p w = true) (PyStr.split_go cur s).
Proof.
  revert cur. induction s as [|c s IH]; intros cur Hp Hn Hs; simpl.
  - destruct cur as [|d cur]; [constructor|]. simpl PyStr.is_empty. cbv iota.
    constructor; [|constructor]. unfold String.rev. split; [split|].
    + intros E. pose proof (rev_app_not_empty (String d cur) "") as H.
      rewrite E in H. discriminate H. discriminate.
    + apply string_forall_rev_app; [exact Hn | reflexivity].
    + apply string_forall_rev_app; [exact Hp | reflexivity].
  - simpl in Hs. apply andb_true_iff in Hs. destruct Hs as [Hc Hs].
    destruct (PyStr.is_space c) eqn:Hsp.
    + destruct cur as [|d cur]; simpl PyStr.is_empty; cbv iota.
      * apply IH; [reflexivity | reflexivity | exact Hs].
      * constructor; [|apply IH; [reflexivity | reflexivity | exact Hs]].
        unfold String.rev. split; [split|].
        -- intros E. pose proof (rev_app_not_empty (String d cur) "") as H.
           rewrite E in H. discriminate H. discriminate.
        -- apply string_forall_rev_app; [exact Hn | reflexivity].
        -- apply string_forall_rev_app; [exact Hp | reflexivity].
    + apply IH; [| | exact Hs]; simpl.
      * rewrite Hc, Hp. reflexivity.
      * rewrite Hsp, Hn. reflexivity.
Qed.

Lemma split_tokens p s :
  string_forall p s = true ->
  Forall (fun w => is_token w /\ string_forall p w = true) (PyStr.split s).
Proof. intros H. apply split_go_tokens; [reflexivity | reflexivity | exact H]. Qed.

Lemma string_forall_join p ws :
  p " "%char = true ->
  Forall (fun w => string_forall p w = true) ws ->
  string_forall p (PyStr.join " " ws) = true.
Proof.
  intros Hsp. induction 1 as [|w ws Hw Hws IH]; [reflexivity|].
  destruct ws as [|w2 ws]; [exact Hw|].
  change (PyStr.join " " (w :: w2 :: ws))
    with (w ++ String " " (PyStr.join " " (w2 :: ws)))%string.
  rewrite string_forall_append. cbn [string_forall]. rewrite Hw, Hsp, IH. reflexivity.
Qed.

Lemma map_chars_fixed f s :
  string_forall (fun c => bool_decide (f c = c)) s = true ->
  PyStr.map_chars f s = s.
Proof.
  induction s as [|c s IH]; [reflexivity|]. simpl.
  intros H. apply andb_true_iff in H. destruct H as [Hc Hs].
  apply bool_decide_eq_true in Hc. rewrite Hc, IH by exact Hs. reflexivity.
Qed.

Lemma filter_chars_all p s :
  string_forall p s = true -> PyStr.filter_chars p s = s.
Proof.
  induction s as [|c s IH]; [reflexivity|]. simpl.
  intros H. apply andb_true_iff in H. destruct H as [Hc Hs].
  rewrite Hc, IH by exact Hs. reflexivity.
Qed.

Lemma string_forall_filter_chars p q s :
  string_forall p s = true -> string_forall p (PyStr.filter_chars q s) = true.
Proof.
  induction s as [|c s IH]; [reflexivity|]. simpl.
  intros H. apply andb_true_iff in H. destruct H as [Hc Hs].
  destruct (q c); simpl; [rewrite Hc|]; apply IH; exact Hs.
Qed.

Lemma string_forall_filter_chars_self p s :
  string_forall p (PyStr.filter_chars p s) = true.
Proof.
  induction s as [|c s IH]; [reflexivity|]. simpl.
  destruct (p c) eqn:Hc; simpl; [rewrite Hc|]; exact IH.
Qed.

Lemma lower_char_idempotent c :
  PyStr.lower_char (PyStr.lower_char c) = PyStr.lower_char c.
Proof.
  destruct c as [[] [] [] [] [] [] [] []]; reflexivity.
Qed.

Lemma string_forall_lower s :
  string_forall (fun c => bool_decide (PyStr.lower_char c = c)) (PyStr.lower s) = true.
Proof.
  induction s as [|c s IH]; [reflexivity|].
  change (PyStr.lower (String c s)) with (String (PyStr.lower_char c) (PyStr.lower s)).
  cbn [string_forall]. rewrite IH, andb_true_r.
  apply bool_decide_eq_true. apply lower_char_idempotent.
Qed.

Lemma string_forall_and p q s :
  string_forall p s = true -> string_forall q s = true ->
  string_forall (fun c => p c && q c) s = true.
Proof.
  induction s as [|c s IH]; [reflexivity|]. simpl.
  intros H1 H2. apply andb_true_iff in H1, H2.
  destruct H1 as [-> H1], H2 as [-> H2]. simpl. apply IH; assumption.
Qed.

Lemma string_forall_impl (p q : ascii -> bool) s :
  (forall c, p c = true -> q c = true) ->
  string_forall p s = true -> string_forall q s = true.
Proof.
  intros Hpq. induction s as [|c s IH]; [reflexivity|]. simpl.
  intros H. apply andb_true_iff in H. destruct H as [Hc Hs].
  rewrite (Hpq _ Hc), IH by exact Hs. reflexivity.
Qed.

(** ** [_normalize_question] *)

Lemma normal_words_shape text :
  Forall (fun w => is_token w /\ string_forall normal_char w = true
                   /\ significant w) (normal_words text).
Proof.
  unfold normal_words. apply Forall_take.
  assert (Forall (fun w => is_token w /\ string_forall normal_char w = true)
            (PyStr.split (PyStr.strip_non_word (PyStr.lower text)))) as H.
  { apply split_tokens. unfold normal_char. apply string_forall_and.
    - apply string_forall_filter_chars, string_forall_lower.
    - apply string_forall_filter_chars_self. }
  rewrite Forall_forall in *. intros w Hw.
  apply list_elem_of_filter in Hw. destruct Hw as [Hsig Hw].
  destruct (H w Hw) as [Ht Hc]. split; [exact Ht|]. split; [exact Hc|]. exact Hsig.
Qed.

Lemma normal_words_length text : (length (normal_words text) <= 15)%nat.
Proof. unfold normal_words. rewrite length_take. lia. Qed.

Lemma normal_words_split text :
  PyStr.split (_normalize_question text) = normal_words text.
Proof.
  change (_normalize_question text) with (PyStr.join " " (normal_words text)).
  apply split_join. eapply Forall_impl; [apply normal_words_shape|].
  intros w H. apply H.
Qed.

Lemma normal_chars_normalized text :
  string_forall normal_char (_normalize_question text) = true.
Proof.
  change (_normalize_question text) with (PyStr.join " " (normal_words text)).
  apply string_forall_join; [reflexivity|].
  eapply Forall_impl; [apply normal_words_shape|]. intros w H. apply H.
Qed.

Lemma word_char_of_normal c :
  normal_char c = true -> negb (PyStr.is_space c) = true ->
  PyStr.is_word c && negb (PyStr.is_upper c) = true.
Proof.
  destruct c as [[] [] [] [] [] [] [] []]; vm_compute; intros H1 H2;
    first [reflexivity | discriminate H1 | discriminate H2].
Qed.

(** X1. Normalising is idempotent: the hash under which a question is
    recorded is its own hash, so looking a recorded hash up as a question
    text finds it. *)
Theorem _normalize_question_idempotent (text : string) :
  _normalize_question (_normalize_question text) = _normalize_question text.
Proof.
  pose proof (normal_chars_normalized text) as Hc.
  assert (PyStr.lower (_normalize_question text) = _normalize_question text) as Hl.
  { apply map_chars_fixed. revert Hc. apply string_forall_impl.
    intros c H. apply andb_true_iff in H. apply H. }
  assert (PyStr.strip_non_word (_normalize_question text)
          = _normalize_question text) as Hs.
  { apply filter_chars_all. revert Hc. apply string_forall_impl.
    intros c H. apply andb_true_iff in H. apply H. }
  unfold _normalize_question at 1. cbv zeta.
  rewrite Hl, Hs, normal_words_split.
  assert (filter (fun w => (w ∉ stop_words) ∧ (2 < PyStr.len w)%Z) (normal_words text)
          = normal_words text) as Hf.
  { pose proof (normal_words_shape text) as H.
    induction H as [|w ws Hw Hws IH]; [reflexivity|].
    rewrite filter_cons_True by apply Hw. rewrite IH. reflexivity. }
  rewrite Hf, take_ge by apply normal_words_length. reflexivity.
Qed.

(** X2. The words of a normalised question: at most fifteen, none of
    them a stop word, each longer than two characters, made of lower-case
    letters, digits and underscores only; and they are the kept words of
    the text, in their order: splitting undoes the joining. *)
Theorem _normalize_question_words (text : string) :
  (length (PyStr.split (_normalize_question text)) <= 15)%nat /\
  Forall (fun w => significant w
                   /\ string_forall (fun c => PyStr.is_word c && negb (PyStr.is_upper c)) w
                      = true)
         (PyStr.split (_normalize_question text)) /\
  PyStr.split (_normalize_question text)
  = take 15 (filter (fun w => (w ∉ stop_words) ∧ (2 < PyStr.len w)%Z)
               (PyStr.split (PyStr.strip_non_word (PyStr.lower text)))).
Proof.
  rewrite normal_words_split. split; [apply normal_words_length|].
  split; [|reflexivity].
  eapply Forall_impl; [apply normal_words_shape|].
  intros w ([_ Hns] & Hc & Hsig). split; [exact Hsig|].
  pose proof (string_forall_and _ _ _ Hc Hns) as H. revert H.
  apply string_forall_impl. intros c H.
  apply andb_true_iff in H. destruct H as [H1 H2].
  apply word_char_of_normal; assumption.
Qed.

(** ** Sessions from creation on *)

Lemma create_session_created setup w :
  exists token now,
    _sessions (fst (create_session setup w))
    = <[session_id (created_session token now setup) :=
          created_session token now setup]> (_sessions w).
Proof.
  unfold create_session, bind, draw, utcnow, emit, ret.
  destruct (entropy w) as [|n r]; eexists _, _; reflexivity.
Qed.

(** A property of sessions that holds of the session [create_session]
    builds and survives every step holds of every session of every
    reachable store. *)
Section InvariantFromCreation.

Variable P : InterviewSession -> Prop.
Hypothesis P_created : forall token now setup, P (created_session token now setup).
Hypothesis P_step : forall s s', session_step s s' -> P s -> P s'.

Lemma created_all_sessions_run_call self c w :
  all_sessions P w -> all_sessions P (run_call self c w).
Proof.
  intros [Hw HP]. destruct (is_create c) eqn:Hc.
  - destruct c; try discriminate. unfold run_call.
    destruct (create_session_created setup0 w) as (token & now & Es).
    split.
    + intros k s'. rewrite Es.
      destruct (decide (session_id (created_session token now setup0) = k)) as [<-|Hne].
      * rewrite lookup_insert_eq. congruence.
      * rewrite lookup_insert_ne by assumption. apply Hw.
    + intros k s'. rewrite Es.
      destruct (decide (session_id (created_session token now setup0) = k)) as [<-|Hne].
      * rewrite lookup_insert_eq. intros [= <-]. apply P_created.
      * rewrite lookup_insert_ne by assumption. apply HP.
  - destruct (api_call_evolves self c w Hc Hw) as [Hw' He].
    split; [assumption|]. intros k s' Hs'. specialize (He k).
    rewrite Hs' in He. inversion He as [s0 ? Hev E0 |]; subst.
    symmetry in E0. eapply evolves_ind_pred; eauto.
Qed.

Lemma created_reachable_sessions self cs clock entropy k s :
  _sessions (run_calls self cs (initial_env clock entropy)) !! k = Some s ->
  P s.
Proof.
  assert (forall w, all_sessions P w -> all_sessions P (run_calls self cs w)) as H.
  { induction cs as [|c cs IH]; intros w Hw; [assumption|].
    simpl. apply IH. apply created_all_sessions_run_call. assumption. }
  intros Hs. destruct (H (initial_env clock entropy)) as [_ HP]; [|eauto].
  split; intros k' s'; simpl; rewrite lookup_empty; discriminate.
Qed.

End InvariantFromCreation.

(** ** The bookkeeping of a session *)

Lemma question_step_as_asked q q' : question_step q q' -> as_asked q' = as_asked q.
Proof. intros H. destruct H; destruct q; reflexivity. Qed.

Lemma map_alter_fixed {A B} (g : A -> B) (f : A -> A) i (l : list A) :
  (forall a, g (f a) = g a) -> map g (alter f i l) = map g l.
Proof.
  intros Hf. revert i. induction l as [|a l IH]; intros [|i]; try reflexivity.
  - change (map g (f a :: l) = map g (a :: l)). simpl. rewrite Hf. reflexivity.
  - change (map g (a :: alter f i l) = map g (a :: l)). simpl. rewrite IH.
    reflexivity.
Qed.

Lemma omap_alter_fixed {A B} (g : A -> option B) (f : A -> A) i (l : list A) :
  (forall a, g (f a) = g a) -> omap g (alter f i l) = omap g l.
Proof.
  intros Hf. revert i. induction l as [|a l IH]; intros [|i]; try reflexivity.
  - change (omap g (f a :: l) = omap g (a :: l)). simpl. rewrite Hf. reflexivity.
  - change (omap g (a :: alter f i l) = omap g (a :: l)). simpl. rewrite IH.
    reflexivity.
Qed.

Lemma add_question_fields q s :
  current_question_index (add_question q s)
  = (Z.of_nat (length (questions s ++ [q])) - 1)%Z
  /\ asked_question_hashes (add_question q s)
     = {[ _normalize_question (question_text q) ]} ∪ asked_question_hashes s
  /\ asked_skills (add_question q s)
     = (if PyStr.truthy (skill_id q)
        then {[ default "" (skill_id q) ]} ∪ asked_skills s
        else asked_skills s).
Proof.
  unfold add_question. destruct s; simpl.
  destruct (PyStr.truthy (skill_id q)), (is_followup q); simpl;
    repeat split; reflexivity.
Qed.

Lemma _update_running_scores_fields ev s :
  current_question_index (_update_running_scores ev s) = current_question_index s
  /\ asked_skills (_update_running_scores ev s) = asked_skills s.
Proof.
  unfold _update_running_scores. destruct s; simpl.
  destruct (dict_mem _ _); simpl;
    match goal with |- context [is_nil ?l] => destruct (is_nil l) end;
    simpl; split; reflexivity.
Qed.

Lemma dict_keys_dict_append {V} k (x : V) d :
  dict_keys (dict_append k x d) = dict_keys d.
Proof.
  unfold dict_keys. induction d as [|[k' v] d IH]; [reflexivity|]. simpl.
  destruct (decide (k' = k)); simpl; [reflexivity|]. rewrite IH. reflexivity.
Qed.

Lemma _update_running_scores_keys ev s :
  dict_keys (skill_scores (_update_running_scores ev s))
  = dict_keys (skill_scores s).
Proof.
  unfold _update_running_scores. destruct s; simpl.
  destruct (dict_mem _ _) eqn:E; simpl;
    match goal with |- context [is_nil ?l] => destruct (is_nil l) end;
    simpl; try reflexivity; apply dict_keys_dict_append.
Qed.

Lemma dict_keys_dict_from_keys {V} seen keys :
  NoDup keys -> (forall k, k ∈ keys -> k ∉ seen) ->
  dict_keys (@dict_from_keys V seen keys) = keys.
Proof.
  intros Hnd. revert seen. induction Hnd as [|k keys Hk Hnd IH]; intros seen Hs;
    [reflexivity|].
  simpl. destruct (decide (k ∈ seen)) as [Hin|_].
  - exfalso. apply (Hs k); [left | assumption].
  - unfold dict_keys in *. simpl. rewrite IH; [reflexivity|].
    intros k' Hk' Hin. apply elem_of_cons in Hin. destruct Hin as [->|Hin].
    + contradiction.
    + apply (Hs k'); [right; assumption | assumption].
Qed.

Lemma get_skills_for_role_NoDup r : NoDup (get_skills_for_role r).
Proof.
  apply (bool_decide_unpack _). destruct r; vm_compute; exact I.
Qed.

Lemma selected_skills_NoDup setup : NoDup (selected_skills setup).
Proof.
  unfold selected_skills.
  destruct (is_nil (include_skills setup)), (is_nil (exclude_skills setup));
    repeat apply NoDup_filter; apply get_skills_for_role_NoDup.
Qed.

(** The skills kept for a setup, by what the setup says. *)
Lemma selected_skills_spec setup k :
  k ∈ selected_skills setup <->
  k ∈ get_skills_for_role (target_role setup)
  /\ (include_skills setup = [] \/ k ∈ include_skills setup)
  /\ k ∉ exclude_skills setup.
Proof.
  unfold selected_skills.
  destruct (include_skills setup) as [|i inc] eqn:Ei,
           (exclude_skills setup) as [|e exc] eqn:Ee; simpl is_nil; cbv iota;
    rewrite ?list_elem_of_filter.
  - split; [intros H; repeat split; auto; apply not_elem_of_nil | tauto].
  - split; [intros [H1 H2]; auto | tauto].
  - split; [intros [H1 H2]; repeat split; auto; apply not_elem_of_nil|].
    intros (H1 & [H2|H2] & _); [discriminate | tauto].
  - split; [intros (H1 & H2 & H3); auto|].
    intros (H1 & [H2|H2] & H3); [discriminate | tauto].
Qed.

Lemma bookkeeping_created token now setup :
  bookkeeping (created_session token now setup).
Proof.
  split; try reflexivity.
  change (dict_keys (@dict_from_keys float [] (selected_skills setup))
          = selected_skills setup).
  apply dict_keys_dict_from_keys; [apply selected_skills_NoDup|].
  intros k _. apply not_elem_of_nil.
Qed.

Lemma bookkeeping_step s s' : session_step s s' -> bookkeeping s -> bookkeeping s'.
Proof.
  intros Hstep [Hi Hh Hk Hs]. destruct Hstep.
  - destruct (add_question_fields q s) as (Ei & Eh & Ek).
    destruct (add_question_frame q s) as (Es & _ & _ & Esc & Eq & _).
    split.
    + rewrite Ei, Eq. rewrite length_app. simpl. lia.
    + rewrite Eh, Eq, Hh, map_app, list_to_set_app_L. simpl.
      rewrite (right_id_L ∅ (∪)). apply (comm_L (∪)).
    + rewrite Eq, omap_app, list_to_set_app_L, <- Hk, Ek. unfold recorded_skill.
      simpl. destruct (PyStr.truthy (skill_id q)) eqn:Et.
      * destruct (skill_id q); [simpl | discriminate].
        rewrite (right_id_L ∅ (∪)). apply (comm_L (∪)).
      * simpl. rewrite (right_id_L ∅ (∪)). reflexivity.
    + rewrite Esc, Es. exact Hs.
  - destruct s; split; assumption.
  - destruct s; split; assumption.
  - destruct s; split; assumption.
  - destruct s; split; assumption.
  - destruct s; split; assumption.
  - assert (forall q, as_asked (f q) = as_asked q) as Hf
      by (intros q; apply question_step_as_asked; auto).
    destruct s; simpl in *. split; simpl.
    + rewrite length_alter. exact Hi.
    + rewrite (map_alter_fixed _ f); [exact Hh|].
      intros q. specialize (Hf q). unfold as_asked in Hf. congruence.
    + rewrite (omap_alter_fixed _ f); [exact Hk|].
      intros q. specialize (Hf q). unfold as_asked, recorded_skill in *.
      assert (skill_id (f q) = skill_id q) as -> by congruence. reflexivity.
    + exact Hs.
  - destruct (_update_running_scores_questions ev s) as (Eq & _ & _ & Eh & _).
    destruct (_update_running_scores_fields ev s) as (Ei & Ek).
    split.
    + rewrite Ei, Eq. exact Hi.
    + rewrite Eh, Eq. exact Hh.
    + rewrite Ek, Eq. exact Hk.
    + rewrite _update_running_scores_keys, _update_running_scores_setup. exact Hs.
  - destruct s; split; assumption.
Qed.

Lemma reachable_bookkeeping self cs clock entropy k s :
  _sessions (run_calls self cs (initial_env clock entropy)) !! k = Some s ->
  bookkeeping s.
Proof.
  apply (created_reachable_sessions bookkeeping).
  - apply bookkeeping_created.
  - apply bookkeeping_step.
Qed.

Lemma py_index_last {A} (l : list A) a :
  py_index (l ++ [a]) (Z.of_nat (length (l ++ [a])) - 1) = Returned a.
Proof.
  unfold py_index. rewrite length_app. simpl length.
  destruct (Z.ltb_spec (Z.of_nat (length l + 1) - 1) 0) as [H|H]; [lia|].
  destruct (Z.leb_spec 0 (Z.of_nat (length l + 1) - 1)) as [_|H1]; [|lia].
  destruct (Z.ltb_spec (Z.of_nat (length l + 1) - 1) (Z.of_nat (length l + 1)))
    as [_|H2]; [|lia].
  simpl andb. cbv iota.
  replace (Z.to_nat (Z.of_nat (length l + 1) - 1)) with (length l + 0)%nat by lia.
  rewrite lookup_app_r by lia.
  replace (length l + 0 - length l)%nat with 0%nat by lia. reflexivity.
Qed.

(** X3. In every session the orchestrator can hold, the current
    question is the last one asked (none before the first question):
    [get_current_question] never raises and never returns an earlier
    question. *)
Theorem current_question_is_last_asked :
  forall self calls clock entropy sid s,
    _sessions (run_calls self calls (initial_env clock entropy)) !! sid = Some s ->
    get_current_question s = Returned (last (questions s)).
Proof.
  intros self calls clock entropy sid s Hs.
  destruct (reachable_bookkeeping _ _ _ _ _ _ Hs) as [Hi _ _ _].
  unfold get_current_question. rewrite Hi.
  destruct (questions s) as [|q0 l0] eqn:Eq; [reflexivity|].
  destruct (exists_last (l := q0 :: l0)) as (l & a & E); [discriminate|].
  cbv beta iota. rewrite E, last_snoc.
  replace (Z.max 0 (Z.of_nat (length (l ++ [a])) - 1))
    with (Z.of_nat (length (l ++ [a])) - 1)%Z
    by (rewrite length_app; simpl; lia).
  rewrite py_index_last.
  destruct (Z.ltb_spec (Z.of_nat (length (l ++ [a])) - 1)
              (Z.of_nat (length (l ++ [a])))) as [_|H]; [reflexivity | lia].
Qed.

Lemma current_question_is_last_asked_witness :
  get_current_question (session_at "session-7" env_listening)
  = Returned (last (questions (session_at "session-7" env_listening))).
Proof.
  apply (current_question_is_last_asked bare_orchestrator
           [Create example_setup; Start "session-7"] 100 example_entropy
           "session-7").
  vm_compute. reflexivity.
Defined.

(** X4. In every session the orchestrator can hold, a text counts as
    asked exactly when a question of the session's list normalises to the
    same words: the set of hashes and the list never disagree. *)
Theorem is_question_asked_iff :
  forall self calls clock entropy sid s text,
    _sessions (run_calls self calls (initial_env clock entropy)) !! sid = Some s ->
    is_question_asked text s = true <->
    exists q, q ∈ questions s
              /\ _normalize_question (question_text q) = _normalize_question text.
Proof.
  intros self calls clock entropy sid s text Hs.
  destruct (reachable_bookkeeping _ _ _ _ _ _ Hs) as [_ Hh _ _].
  unfold is_question_asked. rewrite bool_decide_eq_true, Hh.
  rewrite elem_of_list_to_set, list_elem_of_fmap.
  split; intros (q & H1 & H2); exists q; auto.
Qed.

Lemma is_question_asked_iff_witness :
  is_question_asked "Design the ETL pipeline, for processing 10 million records daily?"
    (session_at "session-7" env_listening) = true <->
  exists q, q ∈ questions (session_at "session-7" env_listening)
            /\ _normalize_question (question_text q)
               = _normalize_question "Design the ETL pipeline, for processing 10 million records daily?".
Proof.
  apply (is_question_asked_iff bare_orchestrator
           [Create example_setup; Start "session-7"] 100 example_entropy
           "session-7").
  vm_compute. reflexivity.
Defined.

(** X5. In every session the orchestrator can hold, a skill counts as
    asked exactly when a question of the session's list carries it as a
    non-empty [skill_id]. *)
Theorem is_skill_asked_iff :
  forall self calls clock entropy sid s skill,
    _sessions (run_calls self calls (initial_env clock entropy)) !! sid = Some s ->
    is_skill_asked skill s = true <->
    exists q, q ∈ questions s /\ skill_id q = Some skill /\ skill <> "".
Proof.
  intros self calls clock entropy sid s skill Hs.
  destruct (reachable_bookkeeping _ _ _ _ _ _ Hs) as [_ _ Hk _].
  unfold is_skill_asked. rewrite bool_decide_eq_true, Hk.
  rewrite elem_of_list_to_set, list_elem_of_omap.
  split.
  - intros (q & Hq & Hr). exists q. split; [assumption|].
    unfold recorded_skill in Hr. destruct (PyStr.truthy (skill_id q)) eqn:Et;
      [|discriminate]. split; [assumption|].
    rewrite Hr in Et. intros ->. discriminate.
  - intros (q & Hq & Hsk & Hne). exists q. split; [assumption|].
    unfold recorded_skill. rewrite Hsk. simpl.
    destruct skill; [congruence | reflexivity].
Qed.

Lemma is_skill_asked_iff_witness :
  is_skill_asked "etl_pipeline_design" (session_at "session-7" env_listening) = true <->
  exists q, q ∈ questions (session_at "session-7" env_listening)
            /\ skill_id q = Some "etl_pipeline_design" /\ "etl_pipeline_design" <> "".
Proof.
  apply (is_skill_asked_iff bare_orchestrator
           [Create example_setup; Start "session-7"] 100 example_entropy
           "session-7").
  vm_compute. reflexivity.
Defined.

(** X6. In every session the orchestrator can hold, the skills with a
    score list are the skills fixed at creation, each once: those of the
    catalogue for the target role, within [include_skills] when that list
    is not empty, outside [exclude_skills].  No operation adds or drops a
    key. *)
Theorem scored_skills_fixed_by_setup :
  forall self calls clock entropy sid s,
    _sessions (run_calls self calls (initial_env clock entropy)) !! sid = Some s ->
    NoDup (dict_keys (skill_scores s))
    /\ forall skill,
         dict_mem skill (skill_scores s) = true <->
         skill ∈ get_skills_for_role (target_role (setup s))
         /\ (include_skills (setup s) = [] \/ skill ∈ include_skills (setup s))
         /\ skill ∉ exclude_skills (setup s).
Proof.
  intros self calls clock entropy sid s Hs.
  destruct (reachable_bookkeeping _ _ _ _ _ _ Hs) as [_ _ _ Hsc].
  split.
  - rewrite Hsc. apply selected_skills_NoDup.
  - intros skill. unfold dict_mem. rewrite bool_decide_eq_true, Hsc.
    apply selected_skills_spec.
Qed.

Lemma scored_skills_fixed_by_setup_witness :
  NoDup (dict_keys (skill_scores (session_at "session-7" env_listening)))
  /\ forall skill,
       dict_mem skill (skill_scores (session_at "session-7" env_listening)) = true <->
       skill ∈ get_skills_for_role
                 (target_role (setup (session_at "session-7" env_listening)))
       /\ (include_skills (setup (session_at "session-7" env_listening)) = []
           \/ skill ∈ include_skills (setup (session_at "session-7" env_listening)))
       /\ skill ∉ exclude_skills (setup (session_at "session-7" env_listening)).
Proof.
  apply (scored_skills_fixed_by_setup bare_orchestrator
           [Create example_setup; Start "session-7"] 100 example_entropy
           "session-7").
  vm_compute. reflexivity.
Defined.

(** ** Asked questions stay as they were asked *)

Lemma session_step_as_asked s s' :
  session_step s s' ->
  map as_asked (questions s) `prefix_of` map as_asked (questions s').
Proof.
  intros Hstep. destruct Hstep; try (destruct s; simpl; reflexivity).
  - rewrite add_question_questions, map_app. apply prefix_app_r. reflexivity.
  - destruct s; simpl. rewrite map_alter_fixed; [reflexivity|].
    intros q. apply question_step_as_asked. auto.
  - destruct (_update_running_scores_questions ev s) as (-> & _). reflexivity.
Qed.

Lemma evolves_as_asked s s' :
  evolves s s' ->
  map as_asked (questions s) `prefix_of` map as_asked (questions s').
Proof.
  intros H. induction H as [|x y z Hxy _ IH]; [reflexivity|].
  etransitivity; [apply session_step_as_asked; eassumption | exact IH].
Qed.

(** X7. Calls that do not create a session never remove a session and
    never remove, reorder or rewrite a question once asked: the list of a
    stored session only grows at its end, and identifier, text, skill,
    follow-up flag, parent and instant of each entry stay as asked. *)
Theorem asked_questions_only_appended :
  forall self calls more clock entropy sid s,
    forallb (fun c => negb (is_create c)) more = true ->
    _sessions (run_calls self calls (initial_env clock entropy)) !! sid = Some s ->
    exists s',
      _sessions (run_calls self (calls ++ more) (initial_env clock entropy)) !! sid
      = Some s'
      /\ map as_asked (questions s) `prefix_of` map as_asked (questions s').
Proof.
  intros self calls more clock entropy sid s Hmore Hs.
  unfold run_calls. rewrite fold_left_app.
  change (fold_left (fun w c => run_call self c w) calls (initial_env clock entropy))
    with (run_calls self calls (initial_env clock entropy)).
  set (w := run_calls self calls (initial_env clock entropy)) in *.
  destruct (run_calls_evolves self more w Hmore) as [_ He].
  { apply reachable_well_keyed. }
  specialize (He sid). rewrite Hs in He.
  inversion He as [s0 s' Hev E0 E1|]; subst.
  exists s'. split; [symmetry; exact E1 | apply evolves_as_asked; exact Hev].
Qed.

Lemma asked_questions_only_appended_witness :
  exists s',
    _sessions (run_calls bare_orchestrator
                 ([Create example_setup; Start "session-7"]
                  ++ [Submit "session-7" None (Some "We partition by key.")])
                 (initial_env 100 example_entropy)) !! "session-7"
    = Some s'
    /\ map as_asked (questions (session_at "session-7" env_listening))
       `prefix_of` map as_asked (questions s').
Proof.
  apply (asked_questions_only_appended bare_orchestrator
           [Create example_setup; Start "session-7"]
           [Submit "session-7" None (Some "We partition by key.")]
           100 example_entropy "session-7").
  - reflexivity.
  - vm_compute. reflexivity.
Defined.

(** ** Guarded steps *)

Lemma after_transition_evolves T err now s : evolves s (after_transition T err now s).
Proof.
  unfold after_transition.
  destruct T; try (apply rtc_once; constructor);
    (eapply rtc_l; [apply step_state | apply rtc_once; constructor]).
Qed.

Lemma guarded_step_evolves s s' : guarded_step s s' -> evolves s s'.
Proof.
  intros H. destruct H; try (apply rtc_once; constructor; assumption).
  apply after_transition_evolves.
Qed.

Lemma guarded_step_session_id s s' : guarded_step s s' -> session_id s' = session_id s.
Proof. intros H. apply evolves_session_id, guarded_step_evolves, H. Qed.

Lemma guarded_steps_session_id s s' :
  rtc guarded_step s s' -> session_id s' = session_id s.
Proof.
  intros H. induction H as [|x y z Hxy _ IH]; [reflexivity|].
  rewrite IH. apply guarded_step_session_id. exact Hxy.
Qed.

Lemma env_guarded_refl w : env_guarded w w.
Proof. intros k. destruct (_sessions w !! k); constructor. apply rtc_refl. Qed.

Lemma env_guarded_same w w' : _sessions w' = _sessions w -> env_guarded w w'.
Proof. intros E k. rewrite E. destruct (_sessions w !! k); constructor. apply rtc_refl. Qed.

Lemma env_guarded_trans w1 w2 w3 :
  env_guarded w1 w2 -> env_guarded w2 w3 -> env_guarded w1 w3.
Proof.
  intros H12 H23 k. specialize (H12 k). specialize (H23 k).
  destruct H12 as [a b Hab|]; inversion H23; subst; constructor.
  eapply rtc_trans; eassumption.
Qed.

Lemma well_keyed_same w w' : _sessions w' = _sessions w -> well_keyed w -> well_keyed w'.
Proof. intros E H k s. rewrite E. apply H. Qed.

(** The store after one guarded step of the session [k]. *)
Lemma env_guarded_insert w w' k s s' :
  _sessions w !! k = Some s ->
  guarded_step s s' ->
  _sessions w' = <[k := s']> (_sessions w) ->
  well_keyed w ->
  well_keyed w' /\ env_guarded w w'.
Proof.
  intros Hs Hstep E Hw. split.
  - intros j x. rewrite E. destruct (decide (k = j)) as [<-|Hne].
    + rewrite lookup_insert_eq. intros [= <-].
      rewrite (guarded_step_session_id _ _ Hstep). apply Hw. exact Hs.
    + rewrite lookup_insert_ne by assumption. apply Hw.
  - intros j. rewrite E. destruct (decide (k = j)) as [<-|Hne].
    + rewrite lookup_insert_eq, Hs. constructor. apply rtc_once. exact Hstep.
    + rewrite lookup_insert_ne by assumption.
      destruct (_sessions w !! j); constructor. apply rtc_refl.
Qed.

(** *** Quiet computations *)

Lemma quiet_ret {A} (a : A) : quiet (ret a).
Proof. intros w. reflexivity. Qed.

Lemma quiet_raise {A} e : quiet (@raise A e).
Proof. intros w. reflexivity. Qed.

Lemma quiet_lift {A} (o : outcome A) : quiet (lift o).
Proof. intros w. reflexivity. Qed.

Lemma quiet_get_session k : quiet (get_session k).
Proof. intros w. reflexivity. Qed.

Lemma quiet_the_session k : quiet (the_session k).
Proof. intros w. unfold the_session. destruct (_sessions w !! k); reflexivity. Qed.

Lemma quiet_utcnow : quiet utcnow.
Proof. intros w. reflexivity. Qed.

Lemma quiet_draw : quiet draw.
Proof. intros w. unfold draw. destruct (entropy w); reflexivity. Qed.

Lemma quiet_emit e : quiet (emit e).
Proof. intros w. reflexivity. Qed.

Lemma quiet_bind {A B} (m : M A) (f : A -> M B) :
  quiet m -> (forall a, quiet (f a)) -> quiet (bind m f).
Proof.
  intros Hm Hf w. unfold bind. specialize (Hm w).
  destruct (m w) as [w1 [a|e]]; simpl in *; [|exact Hm].
  rewrite Hf. exact Hm.
Qed.

Lemma quiet_notify {X} label (cbs : list (X -> outcome unit)) x :
  quiet (notify label cbs x).
Proof.
  induction cbs as [|cb cbs IH]; simpl; [apply quiet_ret|].
  apply quiet_bind; [|intros _; exact IH].
  destruct (cb x); [apply quiet_ret | apply quiet_emit].
Qed.

Create HintDb quiet discriminated.
#[local] Hint Resolve quiet_ret quiet_raise quiet_lift quiet_get_session
  quiet_the_session quiet_utcnow quiet_draw quiet_emit quiet_notify : quiet.

Ltac quiet_step :=
  lazymatch goal with
  | |- quiet (bind _ _) => apply quiet_bind; [| intros ?]
  | |- quiet (match ?x with _ => _ end) => destruct x
  | |- quiet _ => solve [auto with quiet]
  end.

Ltac quiet_tac := repeat quiet_step.

Lemma quiet__generate_mock_question h : quiet (_generate_mock_question h).
Proof. unfold _generate_mock_question, random_choice. quiet_tac. Qed.

Lemma quiet_synthesize self text record : quiet (synthesize self text record).
Proof. unfold synthesize. quiet_tac. Qed.

Lemma quiet_get_duration_seconds h : quiet (get_duration_seconds h).
Proof. unfold get_duration_seconds. quiet_tac. Qed.

Lemma quiet__generate_mock_report h : quiet (_generate_mock_report h).
Proof.
  unfold _generate_mock_report. apply quiet_bind; [apply quiet_the_session|].
  intros s. apply quiet_bind; [apply quiet_get_duration_seconds|]. intros d.
  quiet_tac.
Qed.

Lemma yields_synthesize self text record :
  yields (synthesize self text record)
    (fun spoken => as_asked (snd spoken) = as_asked record).
Proof.
  intros w w' [audio r] E. unfold synthesize in E.
  destruct (audio_processor self) as [p|].
  - unfold bind, lift, ret in E. destruct (text_to_speech p text) as [a|e];
      inversion E; subst. destruct record; reflexivity.
  - inversion E; subst. reflexivity.
Qed.

(** *** Rules *)

Lemma tracks_weaken {A} k (P P' : InterviewSession -> Prop) (m : M A)
    (Q Q' : A -> InterviewSession -> Prop) :
  tracks k P' m Q' ->
  (forall s, session_id s = k -> P s -> P' s) ->
  (forall a s, session_id s = k -> Q' a s -> Q a s) ->
  tracks k P m Q.
Proof.
  intros H HP HQ w w' r E Hw Hpre.
  destruct (H w w' r E Hw) as (Hw' & Hg & Hpost).
  - intros s Hs. apply HP; [apply Hw; exact Hs | apply Hpre; exact Hs].
  - split; [assumption|]. split; [assumption|].
    intros a s' Er Hs'. apply HQ; [apply Hw'; exact Hs' | eapply Hpost; eauto].
Qed.

Lemma tracks_bind {A B} k P (m : M A) Q (f : A -> M B) R :
  tracks k P m Q -> (forall a, tracks k (Q a) (f a) R) -> tracks k P (bind m f) R.
Proof.
  intros Hm Hf w w' r E Hw Hpre. unfold bind in E.
  destruct (m w) as [w1 [a|e]] eqn:Em.
  - destruct (Hm _ _ _ Em Hw Hpre) as (Hw1 & Hg1 & Hpost1).
    destruct (Hf a _ _ _ E Hw1) as (Hw' & Hg2 & Hpost2).
    + intros s Hs. eapply Hpost1; eauto.
    + split; [assumption|]. split; [|assumption].
      eapply env_guarded_trans; eassumption.
  - inversion E; subst; clear E.
    destruct (Hm _ _ _ Em Hw Hpre) as (Hw1 & Hg1 & _).
    split; [assumption|]. split; [assumption|]. intros a s' [=].
Qed.

Lemma tracks_quiet {A} k P (m : M A) phi :
  quiet m -> yields m phi -> tracks k P m (fun a s => phi a /\ P s).
Proof.
  intros Hq Hy w w' r E Hw Hpre. specialize (Hq w). rewrite E in Hq. simpl in Hq.
  split; [eapply well_keyed_same; eassumption|].
  split; [apply env_guarded_same; assumption|].
  intros a s' -> Hs'. rewrite Hq in Hs'. split; [eapply Hy; eassumption | auto].
Qed.

Lemma yields_True {A} (m : M A) : yields m (fun _ => True).
Proof. intros w w' a _. exact I. Qed.

(** A quiet step whose value does not matter. *)
Lemma tracks_skip {A B} k P (m : M A) (f : A -> M B) R :
  quiet m -> (forall a, tracks k P (f a) R) -> tracks k P (bind m f) R.
Proof.
  intros Hq Hf. eapply tracks_bind; [apply tracks_quiet; [exact Hq | apply yields_True]|].
  intros a. eapply tracks_weaken; [apply Hf | | auto]. intros s _ [_ H]. exact H.
Qed.

Lemma tracks_ret {A} k (P : InterviewSession -> Prop) (a : A)
    (Q : A -> InterviewSession -> Prop) :
  (forall s, session_id s = k -> P s -> Q a s) -> tracks k P (ret a) Q.
Proof.
  intros H w w' r E Hw Hpre. inversion E; subst; clear E.
  split; [assumption|]. split; [apply env_guarded_refl|].
  intros a' s' [= <-] Hs'. apply H; [apply Hw; exact Hs' | auto].
Qed.

Lemma tracks_raise {A} k P e (Q : A -> InterviewSession -> Prop) :
  tracks k P (raise e) Q.
Proof.
  intros w w' r E Hw Hpre. inversion E; subst; clear E.
  split; [assumption|]. split; [apply env_guarded_refl|]. intros a s' [=].
Qed.

(** Reading the session: what follows runs with the stored session in
    hand. *)
Lemma tracks_get_session {B} k P (f : option InterviewSession -> M B) R :
  tracks k P (f None) R ->
  (forall s, session_id s = k -> P s ->
     tracks k (fun s' => s' = s) (f (Some s)) R) ->
  tracks k P (bind (get_session k) f) R.
Proof.
  intros Hnone Hsome w w' r E Hw Hpre. unfold bind, get_session in E.
  destruct (_sessions w !! k) as [s|] eqn:Es.
  - apply (Hsome s (Hw _ _ Es) (Hpre _ eq_refl) w w' r E Hw). intros s' Hs'. congruence.
  - apply (Hnone w w' r E Hw). intros s Hs. congruence.
Qed.

Lemma tracks_the_session {B} k P (f : InterviewSession -> M B) R :
  (forall s, session_id s = k -> P s -> tracks k (fun s' => s' = s) (f s) R) ->
  tracks k P (bind (the_session k) f) R.
Proof.
  intros Hsome w w' r E Hw Hpre. unfold bind, the_session in E.
  destruct (_sessions w !! k) as [s|] eqn:Es.
  - apply (Hsome s (Hw _ _ Es) (Hpre _ eq_refl) w w' r E Hw). intros s' Hs'. congruence.
  - inversion E; subst; clear E.
    split; [assumption|]. split; [apply env_guarded_refl|]. intros a s' [=].
Qed.

Lemma tracks_modify k P f :
  (forall s, session_id s = k -> P s -> guarded_step s (f s)) ->
  tracks k P (modify_session k f) (fun _ s' => exists s, P s /\ s' = f s).
Proof.
  intros Hf w w' r E Hw Hpre. inversion E; subst; clear E.
  destruct (_sessions w !! k) as [s|] eqn:Es.
  - assert (guarded_step s (f s)) as Hstep by (apply Hf; [apply Hw|]; auto).
    assert (_sessions (with_sessions (alter f k) w) = <[k := f s]> (_sessions w)) as E.
    { simpl. apply map_eq. intros j. destruct (decide (k = j)) as [<-|Hne].
      - rewrite lookup_alter_eq, lookup_insert_eq, Es. reflexivity.
      - rewrite lookup_alter_ne, lookup_insert_ne by assumption. reflexivity. }
    destruct (env_guarded_insert _ _ _ _ _ Es Hstep E Hw) as [Hw' Hg].
    split; [assumption|]. split; [assumption|].
    intros a s' _. rewrite E, lookup_insert_eq. intros [= <-]. eauto.
  - assert (_sessions (with_sessions (alter f k) w) = _sessions w) as E.
    { simpl. apply map_eq. intros j. destruct (decide (k = j)) as [<-|Hne].
      - rewrite lookup_alter_eq, Es. reflexivity.
      - rewrite lookup_alter_ne by assumption. reflexivity. }
    split; [eapply well_keyed_same; eassumption|].
    split; [apply env_guarded_same; assumption|].
    intros a s' _. rewrite E, Es. discriminate.
Qed.

Lemma tracks_update k P : tracks k P (update_session k) (fun _ => P).
Proof.
  intros w w' r E Hw Hpre. unfold update_session in E.
  destruct (_sessions w !! k) as [s|] eqn:Es; inversion E; subst; clear E.
  - assert (_sessions (with_sessions (insert (session_id s) s) w) = _sessions w) as E.
    { simpl. rewrite (Hw _ _ Es). apply insert_id. exact Es. }
    split; [eapply well_keyed_same; eassumption|].
    split; [apply env_guarded_same; assumption|].
    intros a s' _. rewrite E, Es. apply Hpre.
  - split; [assumption|]. split; [apply env_guarded_refl|]. intros a s' [=].
Qed.

(** *** [transition_state], run on a known store *)

Lemma returns_get_session_store k σ :
  returns (fun m => m = σ) (get_session k) (fun r m => r = σ !! k /\ m = σ).
Proof. intros w E. subst σ. exists w, (_sessions w !! k). auto. Qed.

Lemma returns_modify_session_store k f σ :
  returns (fun m => m = σ) (modify_session k f) (fun _ m => m = alter f k σ).
Proof. intros w E. subst σ. eexists _, tt. split; reflexivity. Qed.

Lemma returns_update_session_store k s σ :
  σ !! k = Some s -> session_id s = k ->
  returns (fun m => m = σ) (update_session k) (fun _ m => m = σ).
Proof.
  intros Hs Hid w E. subst σ. unfold update_session. rewrite Hs. eexists _, tt.
  split; [reflexivity|]. simpl. rewrite Hid. apply insert_id. exact Hs.
Qed.

Lemma returns_the_session_store k s σ :
  σ !! k = Some s ->
  returns (fun m => m = σ) (the_session k) (fun r m => r = s /\ m = σ).
Proof. intros Hs w E. subst σ. exists w, s. unfold the_session. rewrite Hs. auto. Qed.

Lemma alter_alter_insert (f g : InterviewSession -> InterviewSession) k s
    (σ : gmap string InterviewSession) :
  σ !! k = Some s -> alter g k (alter f k σ) = <[k := g (f s)]> σ.
Proof.
  intros Hs. apply map_eq. intros j. destruct (decide (k = j)) as [<-|Hne].
  - rewrite !lookup_alter_eq, lookup_insert_eq, Hs. reflexivity.
  - rewrite !lookup_alter_ne, lookup_insert_ne by assumption. reflexivity.
Qed.

Lemma alter_insert (f : InterviewSession -> InterviewSession) k s
    (σ : gmap string InterviewSession) :
  σ !! k = Some s -> alter f k σ = <[k := f s]> σ.
Proof.
  intros Hs. apply map_eq. intros j. destruct (decide (k = j)) as [<-|Hne].
  - rewrite lookup_alter_eq, lookup_insert_eq, Hs. reflexivity.
  - rewrite lookup_alter_ne, lookup_insert_ne by assumption. reflexivity.
Qed.

Lemma after_transition_session_id T err now s :
  session_id (after_transition T err now s) = session_id s.
Proof. destruct s, T; reflexivity. Qed.

Lemma transition_state_run self k T err w s :
  _sessions w !! k = Some s ->
  session_id s = k ->
  T ∈ VALID_TRANSITIONS (state s) ->
  exists now w',
    transition_state self k T err w = (w', Returned (after_transition T err now s))
    /\ _sessions w' = <[k := after_transition T err now s]> (_sessions w).
Proof.
  intros Hs Hid HT.
  assert (returns (fun m => m = _sessions w) (transition_state self k T err)
            (fun r m => exists now, r = after_transition T err now s
                                    /\ m = <[k := r]> (_sessions w))) as H.
  { unfold transition_state.
    eapply returns_bind; [apply returns_get_session_store|].
    intros found. apply returns_pure. intros E; subst found. rewrite Hs.
    rewrite bool_decide_eq_true_2 by assumption. simpl negb. cbv iota.
    eapply returns_bind; [apply returns_modify_session_store|]. intros ?.
    eapply returns_bind
      with (Q := fun _ m => exists now,
                   m = <[k := after_transition T err now s]> (_sessions w)).
    - destruct T;
        try (apply returns_ret; intros m ->; exists 0%Z;
             apply alter_insert; exact Hs).
      + eapply returns_bind; [apply returns_silent, silent_utcnow|].
        intros now. eapply returns_weaken; [apply returns_modify_session_store| |].
        * intros x Hx; exact Hx.
        * intros ? m ->. exists now. apply alter_alter_insert. exact Hs.
      + eapply returns_bind; [apply returns_silent, silent_utcnow|].
        intros now.
        eapply returns_bind; [apply returns_modify_session_store|]. intros ?.
        eapply returns_weaken
          with (Q := fun _ m => m = alter (set_completed_at (Some now)) k
                                      (alter (set_state COMPLETE) k (_sessions w))).
        * destruct (is_some (ai_reasoning self));
            [apply returns_silent, silent_emit | apply returns_silent, silent_ret].
        * intros x Hx; exact Hx.
        * intros ? m ->. exists now. apply alter_alter_insert. exact Hs.
      + eapply returns_bind; [apply returns_modify_session_store|]. intros ?.
        eapply returns_weaken
          with (Q := fun _ m => m = alter (set_error_message err) k
                                      (alter (set_state ERROR) k (_sessions w))).
        * destruct (is_some (ai_reasoning self));
            [apply returns_silent, silent_emit | apply returns_silent, silent_ret].
        * intros x Hx; exact Hx.
        * intros ? m ->. exists 0%Z. apply alter_alter_insert. exact Hs.
    - intros ?. apply returns_exists. intros now.
      eapply returns_bind.
      { apply (returns_update_session_store k (after_transition T err now s)).
        - apply lookup_insert_eq.
        - rewrite after_transition_session_id. exact Hid. }
      intros ?.
      eapply returns_bind; [apply returns_silent, silent_notify|]. intros ?.
      eapply returns_bind; [apply returns_silent, silent_emit|]. intros ?.
      eapply returns_weaken.
      + apply (returns_the_session_store k (after_transition T err now s)).
        apply lookup_insert_eq.
      + intros x Hx; exact Hx.
      + intros r m [-> ->]. exists now. auto. }
  destruct (H w eq_refl) as (w' & r & E & now & -> & Es).
  exists now, w'. auto.
Qed.

Lemma transition_state_absent self k T err w :
  _sessions w !! k = None ->
  transition_state self k T err w
  = (w, Raised (ValueError ("Session not found: " ++ k))).
Proof.
  intros Hs. unfold transition_state, bind, get_session. rewrite Hs. reflexivity.
Qed.

Lemma tracks_transition self k P T err :
  tracks k P (transition_state self k T err)
    (fun a s' => exists s now,
       P s /\ T ∈ VALID_TRANSITIONS (state s)
       /\ s' = after_transition T err now s /\ a = s').
Proof.
  intros w w' r E Hw Hpre.
  destruct (_sessions w !! k) as [s|] eqn:Es.
  - destruct (decide (T ∈ VALID_TRANSITIONS (state s))) as [HT|HT].
    + destruct (transition_state_run self k T err w s Es (Hw _ _ Es) HT)
        as (now & w1 & E1 & Es1).
      rewrite E1 in E. inversion E; subst; clear E.
      destruct (env_guarded_insert w w' k s (after_transition T err now s))
        as [Hw' Hg]; auto using gstep_transition.
      split; [assumption|]. split; [assumption|].
      intros a s' [= <-]. rewrite Es1, lookup_insert_eq. intros [= <-].
      exists s, now. auto.
    + rewrite (transition_state_rejects self k s T err w Es HT) in E.
      inversion E; subst; clear E.
      split; [assumption|]. split; [apply env_guarded_refl|]. intros a s' [=].
  - rewrite (transition_state_absent self k T err w Es) in E.
    inversion E; subst; clear E.
    split; [assumption|]. split; [apply env_guarded_refl|]. intros a s' [=].
Qed.

(** *** The operations of the orchestrator *)

Lemma after_transition_fields T err now s :
  setup (after_transition T err now s) = setup s
  /\ questions (after_transition T err now s) = questions s
  /\ total_core_questions_asked (after_transition T err now s)
     = total_core_questions_asked s
  /\ total_followups_asked (after_transition T err now s)
     = total_followups_asked s.
Proof. destruct s, T; repeat split; reflexivity. Qed.

Lemma should_end_interview_false s :
  should_end_interview s = false ->
  (total_core_questions_asked s < max_questions (setup s))%Z.
Proof.
  unfold should_end_interview. intros H. apply orb_false_iff in H.
  destruct H as [H _]. apply Z.leb_gt in H. exact H.
Qed.

Lemma as_asked_is_followup q q' : as_asked q = as_asked q' -> is_followup q = is_followup q'.
Proof. unfold as_asked. intros H. congruence. Qed.

Lemma add_question_counters_value q s :
  total_core_questions_asked (add_question q s)
  = (if is_followup q then total_core_questions_asked s
     else total_core_questions_asked s + 1)%Z
  /\ total_followups_asked (add_question q s)
     = (if is_followup q then total_followups_asked s + 1
        else total_followups_asked s)%Z
  /\ started_at (add_question q s) = started_at s.
Proof.
  unfold add_question. destruct s; simpl.
  destruct (PyStr.truthy (skill_id q)), (is_followup q); simpl;
    repeat split; reflexivity.
Qed.

Lemma complete_when_due s now :
  should_end_interview s = true ->
  COMPLETE ∈ VALID_TRANSITIONS (state s) ->
  action_as_stored (ActComplete "Interview complete")
    (after_transition COMPLETE None now s).
Proof.
  intros Hend HT. unfold action_as_stored. split; [apply after_transition_state|].
  destruct (after_transition_fields COMPLETE None now s) as (-> & _ & -> & _).
  unfold should_end_interview in Hend. apply orb_true_iff in Hend.
  destruct Hend as [H|H]; [apply Z.leb_le; exact H|].
  apply bool_decide_eq_true in H. exfalso.
  rewrite !elem_of_cons, elem_of_nil in H.
  destruct H as [H|[H|[H|[]]]]; rewrite H in HT; simpl in HT;
    rewrite ?elem_of_cons, ?elem_of_nil in HT;
    repeat (destruct HT as [HT|HT]; try discriminate HT); exact HT.
Qed.

Section OrchestratorTracks.

Variable self : InterviewOrchestrator.

Lemma tracks_ask_next_question k P :
  tracks k P (ask_next_question self k) action_as_stored.
Proof.
  unfold ask_next_question.
  apply tracks_get_session; [apply tracks_raise|]. intros s Hid HP.
  destruct (should_end_interview s) eqn:Eend.
  - eapply tracks_bind; [apply tracks_transition|]. intros ?.
    apply tracks_ret. intros s' _ (s0 & now & -> & HT & -> & _).
    apply complete_when_due; assumption.
  - eapply tracks_bind; [apply tracks_transition|]. intros ?.
    eapply tracks_weaken
      with (P' := fun s' =>
                    state s' = ASKING
                    /\ (total_core_questions_asked s' < max_questions (setup s'))%Z)
           (Q' := action_as_stored); [| |auto].
    2: { intros s' _ (s0 & now & -> & _ & -> & _).
         destruct (after_transition_fields ASKING None now s) as (-> & _ & -> & _).
         split; [apply after_transition_state|].
         apply should_end_interview_false. exact Eend. }
    apply tracks_the_session. intros s1 _ [Hst Hlt].
    apply tracks_skip.
    { destruct (ai_reasoning self);
        [apply quiet_lift | apply quiet__generate_mock_question]. }
    intros question.
    apply tracks_skip; [apply quiet_utcnow|]. intros now.
    eapply tracks_bind.
    { apply tracks_quiet; [apply quiet_synthesize | apply yields_synthesize]. }
    intros [audio record]. cbv iota.
    eapply tracks_bind.
    { apply tracks_modify. intros s' _ [Hq ->]. apply gstep_core; try assumption.
      apply as_asked_is_followup in Hq. exact Hq. }
    intros ?.
    eapply tracks_bind; [apply tracks_update|]. intros ?.
    apply tracks_skip; [apply quiet_notify|]. intros ?.
    eapply tracks_bind; [apply tracks_transition|]. intros ?.
    apply tracks_the_session.
    intros s2 _ (s3 & now' & (s4 & [Hq ->] & ->) & _ & -> & _).
    apply tracks_ret. intros s' _ ->. simpl in Hq.
    destruct (after_transition_fields LISTENING None now' (add_question record s1))
      as (Es & Eq & Ec & _).
    destruct (add_question_counters_value record s1) as (Ec1 & _).
    destruct (add_question_frame record s1) as (Es1 & _ & Ed1 & _ & Eq1 & _).
    assert (is_followup record = false) as Hf
      by (apply as_asked_is_followup in Hq; exact Hq).
    rewrite Hf in Ec1.
    unfold action_as_stored. rewrite Ec, Es, Eq, Ec1, Es1, Eq1.
    split; [apply after_transition_state|].
    repeat split; try lia.
    exists (questions s1), record. repeat split; try assumption.
    + unfold as_asked in Hq. simpl in Hq. congruence.
    + unfold as_asked in Hq. simpl in Hq. congruence.
Qed.

Lemma tracks_start_interview k P :
  tracks k P (start_interview self k) action_as_stored.
Proof.
  unfold start_interview, start_interview_trace.
  apply tracks_get_session; [apply tracks_raise|]. intros s Hid HP.
  apply tracks_skip; [destruct (is_some _); auto with quiet|]. intros ?.
  eapply tracks_bind; [apply tracks_transition|]. intros ?.
  apply tracks_ask_next_question.
Qed.

Lemma tracks__ask_followup k ev :
  tracks k
    (fun s => state s = DECIDING
              /\ mode (setup s) = STRUCTURED_FOLLOWUP
              /\ (total_followups_asked s < max_questions (setup s) * 2)%Z)
    (_ask_followup self k ev) action_as_stored.
Proof.
  unfold _ask_followup.
  apply tracks_skip.
  { destruct (ai_reasoning self); quiet_tac. }
  intros followup.
  apply tracks_the_session. intros s Hid (Hst & Hmode & Hlt).
  apply tracks_skip; [apply quiet_lift|]. intros current. cbv zeta.
  apply tracks_skip; [quiet_tac|]. intros ?.
  destruct current as [current_question|]; [|apply tracks_raise].
  apply tracks_skip; [apply quiet_utcnow|]. intros now.
  eapply tracks_bind.
  { apply tracks_quiet; [apply quiet_synthesize | apply yields_synthesize]. }
  intros [audio record]. cbv iota.
  eapply tracks_bind.
  { apply tracks_modify. intros s' _ [Hq ->]. apply gstep_followup; try assumption.
    apply as_asked_is_followup in Hq. exact Hq. }
  intros ?.
  eapply tracks_bind; [apply tracks_update|]. intros ?.
  rewrite Hid.
  eapply tracks_bind; [apply tracks_transition|]. intros ?.
  eapply tracks_bind; [apply tracks_transition|]. intros ?.
  apply tracks_ret.
  intros s' _ (s1 & now1 & (s2 & now2 & (s3 & [Hq ->] & ->) & _ & -> & _) & _ & -> & _).
  unfold action_as_stored. split; [apply after_transition_state|].
  rewrite !after_transition_questions, add_question_questions.
  unfold as_asked in Hq. simpl in Hq.
  exists (questions s), record. repeat split; congruence.
Qed.

Lemma tracks_adapt_and_continue k P ev :
  tracks k P (adapt_and_continue self k ev) action_as_stored.
Proof.
  unfold adapt_and_continue.
  eapply tracks_bind.
  { apply tracks_modify. intros s _ _. apply gstep_adapt. }
  intros ?.
  eapply tracks_bind; [apply tracks_update|]. intros ?.
  apply tracks_the_session. intros s Hid _. rewrite Hid.
  destruct (should_end_interview s) eqn:Eend.
  - eapply tracks_bind; [apply tracks_transition|]. intros ?.
    apply tracks_ret. intros s' _ (s0 & now & -> & HT & -> & _).
    apply complete_when_due; assumption.
  - apply tracks_ask_next_question.
Qed.

Lemma tracks__decide_next_action k ev :
  tracks k (fun s => state s = DECIDING) (_decide_next_action self k ev)
    action_as_stored.
Proof.
  unfold _decide_next_action.
  apply tracks_the_session. intros s Hid Hst.
  destruct (wants_followup ev s) eqn:E.
  - eapply tracks_weaken; [apply tracks__ask_followup | | auto].
    intros s' _ ->. apply wants_followup_iff in E.
    destruct E as (_ & Hmode & Hlt). auto.
  - apply tracks_adapt_and_continue.
Qed.

Lemma tracks_modify_question k P i f R Q :
  (forall q, question_step q (f q)) ->
  tracks k (fun _ => True) (R tt) Q ->
  tracks k P (bind (modify_question k i f) R) (Q : Action -> _).
Proof.
  intros Hf HR. unfold modify_question.
  eapply tracks_bind.
  { apply tracks_modify. intros s _ _. apply gstep_question. exact Hf. }
  intros []. apply (tracks_weaken _ _ (fun _ => True) _ _ Q HR); auto.
Qed.

Lemma tracks_submit_response k P audio transcript :
  tracks k P (submit_response self k audio transcript) action_as_stored.
Proof.
  unfold submit_response.
  apply tracks_get_session; [apply tracks_raise|]. intros s Hid HP.
  apply tracks_skip; [apply quiet_lift|]. intros current.
  destruct current as [current_question|]; [|apply tracks_raise]. cbv zeta.
  eapply tracks_bind; [apply tracks_transition|]. intros ?.
  apply tracks_skip; [quiet_tac|]. intros text.
  apply tracks_modify_question; [intros q; constructor|].
  apply tracks_skip; [apply quiet_utcnow|]. intros now.
  apply tracks_modify_question; [intros q; constructor|].
  eapply tracks_bind.
  { apply tracks_modify. intros s' _ _. apply gstep_response. }
  intros ?.
  eapply tracks_bind; [apply tracks_transition|]. intros ?.
  apply tracks_skip; [quiet_tac|]. intros evaluation.
  apply tracks_modify_question; [intros q; constructor|].
  eapply tracks_bind.
  { apply tracks_modify. intros s' _ _. apply gstep_scores. }
  intros ?.
  eapply tracks_bind; [apply tracks_update|]. intros ?.
  apply tracks_skip; [apply quiet_notify|]. intros ?.
  eapply tracks_bind; [apply tracks_transition|]. intros ?.
  eapply tracks_weaken; [apply tracks__decide_next_action | | auto].
  intros s' _ (s0 & now' & _ & _ & -> & _). apply after_transition_state.
Qed.

Lemma tracks_end_interview k P reason :
  tracks k P (end_interview self k reason) (fun _ _ => True).
Proof.
  unfold end_interview.
  apply tracks_get_session; [apply tracks_raise|]. intros s Hid HP.
  apply tracks_skip; [apply quiet_utcnow|]. intros now.
  eapply tracks_bind.
  { apply tracks_modify. intros s' _ _. apply gstep_completed_at. }
  intros ?.
  eapply tracks_bind; [apply tracks_update|]. intros ?.
  eapply tracks_bind; [apply tracks_transition|]. intros ?.
  apply tracks_the_session. intros s2 _ _. apply tracks_ret. auto.
Qed.

Lemma tracks_generate_report k P :
  tracks k P (generate_report self k) (fun _ _ => True).
Proof.
  unfold generate_report.
  apply tracks_get_session; [apply tracks_raise|]. intros s Hid HP.
  destruct (negb _); [apply tracks_raise|].
  eapply tracks_bind; [apply tracks_transition|]. intros ?.
  apply tracks_skip.
  { destruct (report_generator self);
      [quiet_tac | apply quiet__generate_mock_report]. }
  intros report.
  eapply tracks_bind; [apply tracks_transition|]. intros ?.
  apply tracks_ret. auto.
Qed.

(** Whatever a call other than [create_session] does to the store, it
    does by guarded steps. *)
Lemma api_call_guarded c w :
  is_create c = false ->
  well_keyed w ->
  well_keyed (run_call self c w) /\ env_guarded w (run_call self c w).
Proof.
  intros Hc Hw.
  assert (forall A k (m : M A) Q,
            tracks k (fun _ => True) m Q ->
            well_keyed (fst (m w)) /\ env_guarded w (fst (m w))) as H.
  { intros A k m Q Hm. destruct (m w) as [w' r] eqn:E.
    destruct (Hm w w' r E Hw) as (Hw' & Hg & _); auto. }
  destruct c; try discriminate; simpl.
  - eapply H, (tracks_transition self sid (fun _ => True)).
  - eapply H, tracks_start_interview.
  - eapply H, tracks_ask_next_question.
  - eapply H, tracks_submit_response.
  - eapply H, tracks_end_interview.
  - eapply H, tracks_generate_report.
Qed.

Lemma api_calls_guarded calls w :
  forallb (fun c => negb (is_create c)) calls = true ->
  well_keyed w ->
  well_keyed (run_calls self calls w) /\ env_guarded w (run_calls self calls w).
Proof.
  revert w. induction calls as [|c calls IH]; intros w Hc Hw; simpl.
  - split; [assumption | apply env_guarded_refl].
  - simpl in Hc. apply andb_true_iff in Hc. destruct Hc as [Hc Hcs].
    apply negb_true_iff in Hc.
    destruct (api_call_guarded c w Hc Hw) as [Hw1 H1].
    destruct (IH _ Hcs Hw1) as [Hw2 H2].
    split; [assumption|]. eapply env_guarded_trans; eassumption.
Qed.

End OrchestratorTracks.

(** ** What guarded steps preserve *)

(** A property of sessions that holds of the session [create_session]
    builds and survives every guarded step holds of every session of
    every reachable store. *)
Section GuardedInvariant.

Variable P : InterviewSession -> Prop.
Hypothesis P_created : forall token now setup, P (created_session token now setup).
Hypothesis P_step : forall s s', guarded_step s s' -> P s -> P s'.

Lemma guarded_steps_preserve s s' : rtc guarded_step s s' -> P s -> P s'.
Proof. intros H. induction H; eauto. Qed.

Lemma guarded_all_sessions_run_call self c w :
  all_sessions P w -> all_sessions P (run_call self c w).
Proof.
  intros [Hw HP]. destruct (is_create c) eqn:Hc.
  - destruct c; try discriminate. unfold run_call.
    destruct (create_session_created setup0 w) as (token & now & Es).
    split.
    + intros k s'. rewrite Es.
      destruct (decide (session_id (created_session token now setup0) = k)) as [<-|Hne].
      * rewrite lookup_insert_eq. congruence.
      * rewrite lookup_insert_ne by assumption. apply Hw.
    + intros k s'. rewrite Es.
      destruct (decide (session_id (created_session token now setup0) = k)) as [<-|Hne].
      * rewrite lookup_insert_eq. intros [= <-]. apply P_created.
      * rewrite lookup_insert_ne by assumption. apply HP.
  - destruct (api_call_guarded self c w Hc Hw) as [Hw' Hg].
    split; [assumption|]. intros k s' Hs'. specialize (Hg k).
    rewrite Hs' in Hg. inversion Hg as [s0 ? Hsteps E0 |]; subst.
    symmetry in E0. eapply guarded_steps_preserve; eauto.
Qed.

Lemma guarded_reachable_sessions self cs clock entropy k s :
  _sessions (run_calls self cs (initial_env clock entropy)) !! k = Some s ->
  P s.
Proof.
  assert (forall w, all_sessions P w -> all_sessions P (run_calls self cs w)) as H.
  { induction cs as [|c cs IH]; intros w Hw; [assumption|].
    simpl. apply IH. apply guarded_all_sessions_run_call. assumption. }
  intros Hs. destruct (H (initial_env clock entropy)) as [_ HP]; [|eauto].
  split; intros k' s'; simpl; rewrite lookup_empty; discriminate.
Qed.

End GuardedInvariant.

(** The session stored under [sid] after further calls, none of them a
    [create_session], is reached by guarded steps. *)
Lemma later_session_guarded self calls more clock entropy sid s :
  forallb (fun c => negb (is_create c)) more = true ->
  _sessions (run_calls self calls (initial_env clock entropy)) !! sid = Some s ->
  exists s',
    _sessions (run_calls self (calls ++ more) (initial_env clock entropy)) !! sid
    = Some s'
    /\ rtc guarded_step s s'.
Proof.
  intros Hmore Hs. unfold run_calls. rewrite fold_left_app.
  change (fold_left (fun w c => run_call self c w) calls (initial_env clock entropy))
    with (run_calls self calls (initial_env clock entropy)).
  set (w := run_calls self calls (initial_env clock entropy)) in *.
  destruct (api_calls_guarded self more w Hmore) as [_ Hg].
  { apply reachable_well_keyed. }
  specialize (Hg sid). rewrite Hs in Hg.
  inversion Hg as [s0 s' Hsteps E0 E1|]; subst.
  exists s'. split; [symmetry; exact E1 | exact Hsteps].
Qed.

Lemma _update_running_scores_started ev s :
  started_at (_update_running_scores ev s) = started_at s
  /\ state (_update_running_scores ev s) = state s.
Proof.
  unfold _update_running_scores. destruct s; simpl.
  destruct (dict_mem _ _); simpl;
    match goal with |- context [is_nil ?l] => destruct (is_nil l) end;
    simpl; split; reflexivity.
Qed.

Lemma guarded_step_within_limits s s' :
  guarded_step s s' -> within_limits s -> within_limits s'.
Proof.
  unfold within_limits. intros Hstep (Hc & Hf & Hm).
  destruct Hstep as [T err now s HT | q s Hq Hst Hlt | q s Hq Hst Hmode Hlt
                    | r s | v s | i f s Hfq | ev s | delta s].
  - destruct (after_transition_fields T err now s) as (-> & _ & -> & ->). auto.
  - destruct (add_question_counters_value q s) as (-> & -> & _).
    destruct (add_question_frame q s) as (-> & _). rewrite Hq.
    split; [lia | auto].
  - destruct (add_question_counters_value q s) as (-> & -> & _).
    destruct (add_question_frame q s) as (-> & _). rewrite Hq.
    split; [assumption|]. split; [lia | contradiction].
  - destruct s; simpl in *; auto.
  - destruct s; simpl in *; auto.
  - destruct s; simpl in *; auto.
  - destruct (_update_running_scores_questions ev s) as (_ & -> & -> & _).
    rewrite _update_running_scores_setup. auto.
  - destruct s; simpl in *; auto.
Qed.

Lemma within_limits_created token now setup :
  within_limits (created_session token now setup).
Proof. unfold within_limits. cbn. split; [lia|]. split; [lia | reflexivity]. Qed.

Lemma SETUP_is_no_target a : SETUP ∉ VALID_TRANSITIONS a.
Proof. destruct a; apply (bool_decide_unpack _); vm_compute; exact I. Qed.

Lemma guarded_step_started_before_asked s s' :
  guarded_step s s' -> started_before_asked s -> started_before_asked s'.
Proof.
  unfold started_before_asked. intros Hstep H.
  destruct Hstep as [T err now s HT | q s Hq Hst Hlt | q s Hq Hst Hmode Hlt
                    | r s | v s | i f s Hfq | ev s | delta s].
  - destruct H as [(Hs & Hq & Ha) | [(Hs & Hq & Ha) | (Hs & Ha)]].
    + rewrite Hs in HT. simpl in HT.
      apply elem_of_cons in HT. destruct HT as [->|HT].
      * right; right. destruct s; simpl. split; [discriminate | eauto].
      * apply list_elem_of_singleton in HT. subst T.
        right; left. destruct s; simpl in *. auto.
    + rewrite Hs in HT. simpl in HT. apply elem_of_nil in HT. contradiction.
    + right; right. split.
      * rewrite after_transition_state. intros ->.
        exact (SETUP_is_no_target _ HT).
      * destruct T, s; simpl in *; eauto.
  - right; right. destruct (add_question_counters_value q s) as (_ & _ & ->).
    rewrite add_question_state.
    destruct H as [(Hs & _) | [(Hs & _) | (Hs & Ha)]]; try congruence. auto.
  - right; right. destruct (add_question_counters_value q s) as (_ & _ & ->).
    rewrite add_question_state.
    destruct H as [(Hs & _) | [(Hs & _) | (Hs & Ha)]]; try congruence. auto.
  - destruct s; simpl in *; auto.
  - destruct s; simpl in *; auto.
  - destruct s; simpl in *.
    destruct H as [(Hs & -> & Ha) | [(Hs & -> & Ha) | (Hs & Ha)]]; auto.
  - destruct (_update_running_scores_started ev s) as (-> & ->).
    destruct (_update_running_scores_questions ev s) as (-> & _). exact H.
  - destruct s; simpl in *; auto.
Qed.

Lemma started_before_asked_created token now setup :
  started_before_asked (created_session token now setup).
Proof. left. repeat split. Qed.



(** Outside the states of asking, a guarded step adds no question. *)
Lemma guarded_step_terminal s s' :
  guarded_step s s' ->
  VALID_TRANSITIONS (state s) = [] ->
  state s' = state s /\ map as_asked (questions s') = map as_asked (questions s).
Proof.
  intros Hstep Hterm.
  destruct Hstep as [T err now s HT | q s Hq Hst Hlt | q s Hq Hst Hmode Hlt
                    | r s | v s | i f s Hfq | ev s | delta s];
    try (destruct s; split; reflexivity).
  - rewrite Hterm in HT. apply elem_of_nil in HT. contradiction.
  - rewrite Hst in Hterm. discriminate.
  - rewrite Hst in Hterm. discriminate.
  - destruct s; simpl. split; [reflexivity|].
    apply map_alter_fixed. intros q. apply question_step_as_asked. auto.
  - destruct (_update_running_scores_started ev s) as (_ & ->).
    destruct (_update_running_scores_questions ev s) as (-> & _). auto.
Qed.

Lemma guarded_steps_terminal s s' :
  rtc guarded_step s s' ->
  VALID_TRANSITIONS (state s) = [] ->
  state s' = state s /\ map as_asked (questions s') = map as_asked (questions s).
Proof.
  intros H. induction H as [|x y z Hxy _ IH]; [auto|]. intros Hterm.
  destruct (guarded_step_terminal _ _ Hxy Hterm) as [Es Eq].
  rewrite <- Es, <- Eq. apply IH. rewrite Es. exact Hterm.
Qed.



(** X9. A session in state [FINISHED] or [CANCELLED] stays as it is:
    whatever is called afterwards (short of creating a session), its state
    does not change and no question is added to it. *)
Theorem finished_or_cancelled_is_final :
  forall self calls more clock entropy sid s,
    forallb (fun c => negb (is_create c)) more = true ->
    _sessions (run_calls self calls (initial_env clock entropy)) !! sid = Some s ->
    state s = FINISHED \/ state s = CANCELLED ->
    exists s',
      _sessions (run_calls self (calls ++ more) (initial_env clock entropy)) !! sid
      = Some s'
      /\ state s' = state s
      /\ map as_asked (questions s') = map as_asked (questions s).
Proof.
  intros self calls more clock entropy sid s Hmore Hs Hterm.
  destruct (later_session_guarded self calls more clock entropy sid s Hmore Hs)
    as (s' & Hs' & Hsteps).
  exists s'. split; [exact Hs'|].
  apply guarded_steps_terminal; [exact Hsteps|].
  destruct Hterm as [-> | ->]; reflexivity.
Qed.

Lemma finished_or_cancelled_is_final_witness :
  exists s',
    _sessions (run_calls bare_orchestrator
                 ([Create example_setup; Transition "session-7" CANCELLED None]
                  ++ [Start "session-7"; EndInterview "session-7" "again"])
                 (initial_env 100 example_entropy)) !! "session-7"
    = Some s'
    /\ state s' = CANCELLED
    /\ map as_asked (questions s') = [].
Proof.
  apply (finished_or_cancelled_is_final bare_orchestrator
           [Create example_setup; Transition "session-7" CANCELLED None]
           [Start "session-7"; EndInterview "session-7" "again"]
           100 example_entropy "session-7"
           (session_at "session-7"
              (run_calls bare_orchestrator
                 [Create example_setup; Transition "session-7" CANCELLED None]
                 (initial_env 100 example_entropy)))).
  - reflexivity.
  - vm_compute. reflexivity.
  - right. vm_compute. reflexivity.
Defined.

(** X10. In every session the orchestrator can hold, the number of core
    questions asked does not exceed [max_questions] of its setup (zero
    when that is negative): a core question is only added after
    [should_end_interview] has answered no. *)
Theorem core_questions_within_max_questions :
  forall self calls clock entropy sid s,
    _sessions (run_calls self calls (initial_env clock entropy)) !! sid = Some s ->
    (total_core_questions_asked s <= Z.max 0 (max_questions (setup s)))%Z.
Proof.
  intros self calls clock entropy sid s Hs.
  apply (guarded_reachable_sessions within_limits within_limits_created
           guarded_step_within_limits _ _ _ _ _ _ Hs).
Qed.

Lemma core_questions_within_max_questions_witness :
  (total_core_questions_asked (session_at "session-7" env_listening)
   <= Z.max 0 (max_questions (setup (session_at "session-7" env_listening))))%Z.
Proof.
  apply (core_questions_within_max_questions bare_orchestrator
           [Create example_setup; Start "session-7"] 100 example_entropy
           "session-7").
  vm_compute. reflexivity.
Defined.

(** X11. In every session the orchestrator can hold, the number of
    follow-ups asked does not exceed twice [max_questions], and it is zero
    in every mode other than the follow-up mode. *)
Theorem followups_within_twice_max_questions :
  forall self calls clock entropy sid s,
    _sessions (run_calls self calls (initial_env clock entropy)) !! sid = Some s ->
    (total_followups_asked s <= Z.max 0 (max_questions (setup s) * 2))%Z
    /\ (mode (setup s) <> STRUCTURED_FOLLOWUP -> total_followups_asked s = 0%Z).
Proof.
  intros self calls clock entropy sid s Hs.
  apply (guarded_reachable_sessions within_limits within_limits_created
           guarded_step_within_limits _ _ _ _ _ _ Hs).
Qed.

Lemma followups_within_twice_max_questions_witness :
  (total_followups_asked (session_at "session-7" env_listening)
   <= Z.max 0 (max_questions (setup (session_at "session-7" env_listening)) * 2))%Z
  /\ (mode (setup (session_at "session-7" env_listening)) <> STRUCTURED_FOLLOWUP ->
      total_followups_asked (session_at "session-7" env_listening) = 0%Z).
Proof.
  apply (followups_within_twice_max_questions bare_orchestrator
           [Create example_setup; Start "session-7"] 100 example_entropy
           "session-7").
  vm_compute. reflexivity.
Defined.

(** X12. In every session the orchestrator can hold, questions come
    after the start: a session in state [SETUP] has no question, and a
    session with a question has its [started_at] set. *)
Theorem questions_only_after_start :
  forall self calls clock entropy sid s,
    _sessions (run_calls self calls (initial_env clock entropy)) !! sid = Some s ->
    (state s = SETUP -> questions s = [])
    /\ (questions s <> [] -> is_Some (started_at s)).
Proof.
  intros self calls clock entropy sid s Hs.
  pose proof (guarded_reachable_sessions started_before_asked
                started_before_asked_created
                guarded_step_started_before_asked _ _ _ _ _ _ Hs) as H.
  destruct H as [(Hst & Hq & Ha) | [(Hst & Hq & Ha) | (Hst & Ha)]].
  - split; [auto | congruence].
  - split; [auto | congruence].
  - split; [contradiction | auto].
Qed.

Lemma questions_only_after_start_witness :
  (state (session_at "session-7" env_listening) = SETUP ->
   questions (session_at "session-7" env_listening) = [])
  /\ (questions (session_at "session-7" env_listening) <> [] ->
      is_Some (started_at (session_at "session-7" env_listening))).
Proof.
  apply (questions_only_after_start bare_orchestrator
           [Create example_setup; Start "session-7"] 100 example_entropy
           "session-7").
  vm_compute. reflexivity.
Defined.

(** ** Calls the orchestrator refuses *)

(** X13. An identifier under which no session is stored: every
    operation raises [ValueError] with the message
    ["Session not found: <id>"], and nothing at all has changed (no state,
    no clock reading, no trace, no log entry). *)
Theorem unknown_session_is_refused :
  forall self w sid,
    _sessions w !! sid = None ->
    (forall T err,
       transition_state self sid T err w
       = (w, Raised (ValueError ("Session not found: " ++ sid))))
    /\ start_interview self sid w
       = (w, Raised (ValueError ("Session not found: " ++ sid)))
    /\ ask_next_question self sid w
       = (w, Raised (ValueError ("Session not found: " ++ sid)))
    /\ (forall audio transcript,
          submit_response self sid audio transcript w
          = (w, Raised (ValueError ("Session not found: " ++ sid))))
    /\ (forall reason,
          end_interview self sid reason w
          = (w, Raised (ValueError ("Session not found: " ++ sid))))
    /\ generate_report self sid w
       = (w, Raised (ValueError ("Session not found: " ++ sid))).
Proof.
  intros self w sid Hs.
  unfold transition_state, start_interview, ask_next_question, submit_response,
    end_interview, generate_report, bind, get_session.
  rewrite Hs. repeat split.
Qed.

Lemma unknown_session_is_refused_witness :
  (forall T err,
     transition_state bare_orchestrator "session-7" T err
       (initial_env 100 example_entropy)
     = (initial_env 100 example_entropy,
        Raised (ValueError ("Session not found: " ++ "session-7"))))
  /\ start_interview bare_orchestrator "session-7" (initial_env 100 example_entropy)
     = (initial_env 100 example_entropy,
        Raised (ValueError ("Session not found: " ++ "session-7")))
  /\ ask_next_question bare_orchestrator "session-7" (initial_env 100 example_entropy)
     = (initial_env 100 example_entropy,
        Raised (ValueError ("Session not found: " ++ "session-7")))
  /\ (forall audio transcript,
        submit_response bare_orchestrator "session-7" audio transcript
          (initial_env 100 example_entropy)
        = (initial_env 100 example_entropy,
           Raised (ValueError ("Session not found: " ++ "session-7"))))
  /\ (forall reason,
        end_interview bare_orchestrator "session-7" reason
          (initial_env 100 example_entropy)
        = (initial_env 100 example_entropy,
           Raised (ValueError ("Session not found: " ++ "session-7"))))
  /\ generate_report bare_orchestrator "session-7" (initial_env 100 example_entropy)
     = (initial_env 100 example_entropy,
        Raised (ValueError ("Session not found: " ++ "session-7"))).
Proof.
  apply (unknown_session_is_refused bare_orchestrator
           (initial_env 100 example_entropy) "session-7").
  reflexivity.
Defined.


Lemma PROCESSING_only_from_LISTENING a :
  PROCESSING ∈ VALID_TRANSITIONS a -> a = LISTENING.
Proof.
  destruct a; simpl; rewrite ?elem_of_cons, ?elem_of_nil;
    intros H; try reflexivity;
    repeat (destruct H as [H|H]; try discriminate H); contradiction.
Qed.



(** X15. [submit_response] takes an answer in state [LISTENING] and in
    no other: in any other state it raises, and nothing at all has
    changed.  (With a current question the exception is the
    [StateTransitionError] of the move to [PROCESSING].) *)
Theorem submit_response_only_when_listening :
  forall self w sid s audio transcript,
    _sessions w !! sid = Some s ->
    state s <> LISTENING ->
    (exists e, submit_response self sid audio transcript w = (w, Raised e))
    /\ (forall q, get_current_question s = Returned (Some q) ->
          submit_response self sid audio transcript w
          = (w, Raised (StateTransitionError
                          (invalid_transition_message (state s) PROCESSING)))).
Proof.
  intros self w sid s audio transcript Hs Hne.
  assert (PROCESSING ∉ VALID_TRANSITIONS (state s)) as HT.
  { intros H. apply Hne. apply PROCESSING_only_from_LISTENING. exact H. }
  assert (forall q, get_current_question s = Returned (Some q) ->
            submit_response self sid audio transcript w
            = (w, Raised (StateTransitionError
                            (invalid_transition_message (state s) PROCESSING)))) as H.
  { intros q Hq. unfold submit_response, bind at 1, get_session. rewrite Hs.
    unfold bind at 1, lift. rewrite Hq. cbv zeta.
    apply bind_eq_raised. apply transition_state_rejects; [exact Hs | exact HT]. }
  split; [|exact H].
  destruct (get_current_question s) as [[q|]|e] eqn:Hq.
  - eexists. apply (H q). reflexivity.
  - eexists. unfold submit_response, bind at 1, get_session. rewrite Hs.
    unfold bind at 1, lift. rewrite Hq. reflexivity.
  - eexists. unfold submit_response, bind at 1, get_session. rewrite Hs.
    unfold bind at 1, lift. rewrite Hq. reflexivity.
Qed.

Lemma submit_response_only_when_listening_witness :
  (exists e, submit_response bare_orchestrator "session-7" None (Some "An answer.")
               env_created = (env_created, Raised e))
  /\ (forall q,
        get_current_question (session_at "session-7" env_created)
        = Returned (Some q) ->
        submit_response bare_orchestrator "session-7" None (Some "An answer.")
          env_created
        = (env_created,
           Raised (StateTransitionError
                     (invalid_transition_message
                        (state (session_at "session-7" env_created)) PROCESSING)))).
Proof.
  apply (submit_response_only_when_listening bare_orchestrator env_created
           "session-7" (session_at "session-7" env_created)).
  - vm_compute. reflexivity.
  - vm_compute. discriminate.
Defined.

(** ** Ending an interview *)

Lemma end_interview_stamps self sid reason w s :
  _sessions w !! sid = Some s ->
  session_id s = sid ->
  exists w1,
    _sessions w1 = <[sid := set_completed_at (Some (clock w)) s]> (_sessions w)
    /\ end_interview self sid reason w
       = bind (transition_state self sid COMPLETE None)
           (fun _ => bind (the_session sid)
              (fun session =>
                 ret (ActEnded reason (Z.of_nat (length (questions session)))))) w1.
Proof.
  intros Hs Hid.
  unfold end_interview, bind at 1, get_session. rewrite Hs.
  unfold bind at 1, utcnow. unfold bind at 1, modify_session.
  unfold bind at 1, update_session. simpl _sessions.
  rewrite lookup_alter_eq, Hs. simpl.
  eexists. split; [|reflexivity]. simpl.
  rewrite (alter_insert _ sid s) by exact Hs.
  match goal with
  | |- context [session_id ?x] =>
      assert (session_id x = sid) as -> by (destruct s; simpl in *; congruence)
  end.
  apply insert_insert_eq.
Qed.



(** X17. [end_interview] on a session that may not go to [COMPLETE]
    (one that is [COMPLETE] already, or further) raises
    [StateTransitionError], yet it has overwritten [completed_at] with
    the time of the call before raising: the one change a refused call
    leaves behind. *)
Theorem end_interview_refused_after_stamping :
  forall self w sid reason s,
    _sessions w !! sid = Some s ->
    session_id s = sid ->
    COMPLETE ∉ VALID_TRANSITIONS (state s) ->
    exists w',
      end_interview self sid reason w
      = (w', Raised (StateTransitionError
                       (invalid_transition_message (state s) COMPLETE)))
      /\ _sessions w'
         = <[sid := set_completed_at (Some (clock w)) s]> (_sessions w).
Proof.
  intros self w sid reason s Hs Hid HT.
  destruct (end_interview_stamps self sid reason w s Hs Hid) as (w1 & Es1 & ->).
  exists w1. split; [|exact Es1].
  apply bind_eq_raised.
  replace (state s) with (state (set_completed_at (Some (clock w)) s))
    by (destruct s; reflexivity).
  apply transition_state_rejects.
  - rewrite Es1. apply lookup_insert_eq.
  - destruct s; exact HT.
Qed.

Lemma end_interview_refused_after_stamping_witness :
  exists w',
    end_interview bare_orchestrator "session-7" "again" env_ended
    = (w', Raised (StateTransitionError
                     (invalid_transition_message
                        (state (session_at "session-7" env_ended)) COMPLETE)))
    /\ _sessions w'
       = <["session-7" := set_completed_at (Some (clock env_ended))
                            (session_at "session-7" env_ended)]>
           (_sessions env_ended).
Proof.
  apply (end_interview_refused_after_stamping bare_orchestrator env_ended
           "session-7" "again" (session_at "session-7" env_ended)).
  - vm_compute. reflexivity.
  - vm_compute. reflexivity.
  - apply (bool_decide_unpack _). vm_compute. exact I.
Defined.

(** ** Questions as they are handed out *)


Lemma tracks_asks self c P :
  tracks (session_of c) P (asks self c) action_as_stored.
Proof.
  destruct c; simpl; try apply tracks_raise.
  - apply tracks_start_interview.
  - apply tracks_ask_next_question.
  - apply tracks_submit_response.
Qed.

Lemma asks_run_call self c w w' a :
  asks self c w = (w', Returned a) -> run_call self c w = w'.
Proof.
  destruct c; simpl; try discriminate; intros ->; reflexivity.
Qed.

Lemma asks_session_present self c w w' a :
  asks self c w = (w', Returned a) -> is_Some (_sessions w !! session_of c).
Proof.
  destruct (_sessions w !! session_of c) eqn:E; [eauto|].
  destruct c; simpl in *; try discriminate;
    unfold start_interview, ask_next_question, submit_response, bind, get_session;
    rewrite E; discriminate.
Qed.

(** What a call that returned left in the store for its session. *)
Lemma asks_action_as_stored self calls clock entropy c w' a :
  asks self c (run_calls self calls (initial_env clock entropy)) = (w', Returned a) ->
  exists s',
    _sessions w' !! session_of c = Some s'
    /\ _sessions (run_calls self (calls ++ [c]) (initial_env clock entropy))
         !! session_of c = Some s'
    /\ action_as_stored a s'.
Proof.
  intros Hrun.
  set (w := run_calls self calls (initial_env clock entropy)) in *.
  assert (well_keyed w) as Hw by apply reachable_well_keyed.
  destruct (asks_session_present _ _ _ _ _ Hrun) as [s Hs].
  destruct (tracks_asks self c (fun _ => True) w w' _ Hrun Hw) as (Hw' & Hg & Hpost);
    [auto|].
  specialize (Hg (session_of c)). rewrite Hs in Hg.
  destruct (_sessions w' !! session_of c) as [s'|] eqn:E1; [|inversion Hg].
  exists s'. split; [reflexivity|]. split; [|exact (Hpost _ s' eq_refl eq_refl)].
  unfold run_calls. rewrite fold_left_app. simpl.
  change (fold_left (fun w c => run_call self c w) calls (initial_env clock entropy))
    with w.
  rewrite (asks_run_call _ _ _ _ _ Hrun). exact E1.
Qed.



(** In a reachable session the current question is the last of the
    list. *)
Lemma reachable_current_question self calls clock entropy sid s l q :
  _sessions (run_calls self calls (initial_env clock entropy)) !! sid = Some s ->
  questions s = (l ++ [q])%list ->
  get_current_question s = Returned (Some q).
Proof.
  intros Hreach Eq.
  destruct (reachable_bookkeeping _ _ _ _ _ _ Hreach) as [Hi _ _ _].
  unfold get_current_question. rewrite Hi, Eq.
  destruct (l ++ [q])%list as [|q0 l0] eqn:El; [destruct l; discriminate|].
  rewrite <- El.
  replace (Z.max 0 (Z.of_nat (length (l ++ [q])) - 1))
    with (Z.of_nat (length (l ++ [q])) - 1)%Z
    by (rewrite length_app; simpl; lia).
  rewrite py_index_last.
  destruct (Z.ltb_spec (Z.of_nat (length (l ++ [q])) - 1)
              (Z.of_nat (length (l ++ [q])))) as [_|H]; [reflexivity | lia].
Qed.

(** X26. What [start_interview], [ask_next_question] and
    [submit_response] return tells where the session is: after a question
    or a follow-up the session is [LISTENING] and its last (current)
    question is the one handed out, a core question or a follow-up with
    the reason given; after ["complete"] the session is [COMPLETE] and
    has had [max_questions] core questions or more; and ["ended"] is never
    what they return. *)
Theorem session_is_where_the_action_says :
  forall self calls clock entropy c w' a,
    asks self c (run_calls self calls (initial_env clock entropy))
    = (w', Returned a) ->
    exists s',
      _sessions w' !! session_of c = Some s'
      /\ match a with
         | ActQuestion qid text _ _ _ _ =>
             state s' = LISTENING
             /\ exists q, get_current_question s' = Returned (Some q)
                          /\ is_followup q = false
                          /\ question_id q = qid /\ question_text q = text
         | ActFollowup qid text reason _ =>
             state s' = LISTENING
             /\ exists q, get_current_question s' = Returned (Some q)
                          /\ is_followup q = true
                          /\ question_id q = qid /\ question_text q = text
                          /\ followup_reason q = Some reason
         | ActComplete _ =>
             state s' = COMPLETE
             /\ (max_questions (setup s') <= total_core_questions_asked s')%Z
         | ActEnded _ _ => False
         end.
Proof.
  intros self calls clock entropy c w' a Hrun.
  destruct (asks_action_as_stored _ _ _ _ _ _ _ Hrun) as (s' & Hs' & Hreach & Hpost).
  exists s'. split; [exact Hs'|].
  destruct a as [message | qid text n total d audio | qid text reason audio | reason n];
    simpl in Hpost.
  - exact Hpost.
  - destruct Hpost as (Hst & _ & _ & _ & _ & l & q & Eq & Hf & Hqid & Htext).
    split; [exact Hst|]. exists q.
    split; [exact (reachable_current_question _ _ _ _ _ _ _ _ Hreach Eq)|].
    repeat split; assumption.
  - destruct Hpost as (Hst & l & q & Eq & Hf & Hqid & Htext & Hreason).
    split; [exact Hst|]. exists q.
    split; [exact (reachable_current_question _ _ _ _ _ _ _ _ Hreach Eq)|].
    repeat split; assumption.
  - exact Hpost.
Qed.

Lemma session_is_where_the_action_says_witness :
  exists s',
    _sessions env_listening !! session_of (Start "session-7") = Some s'
    /\ state s' = LISTENING
    /\ exists q, get_current_question s' = Returned (Some q)
                 /\ is_followup q = false
                 /\ question_id q = "q_11"
                 /\ question_text q
                    = "Design an ETL pipeline for processing 10 million records daily.".
Proof.
  apply (session_is_where_the_action_says bare_orchestrator
           [Create example_setup] 100 example_entropy (Start "session-7")
           env_listening
           (ActQuestion "q_11"
              "Design an ETL pipeline for processing 10 million records daily."
              1 5 5 None)).
  vm_compute. reflexivity.
Defined.

(** ** What the operations return *)

Lemma yields_bind {A B} (m : M A) (f : A -> M B) psi phi :
  yields m psi -> (forall a, psi a -> yields (f a) phi) -> yields (bind m f) phi.
Proof.
  intros Hm Hf w w' b E. unfold bind in E.
  destruct (m w) as [w1 [a|e]] eqn:Em; [|discriminate].
  eapply Hf; [eapply Hm; exact Em | exact E].
Qed.

Lemma yields_skip {A B} (m : M A) (f : A -> M B) phi :
  (forall a, yields (f a) phi) -> yields (bind m f) phi.
Proof.
  intros Hf. eapply yields_bind; [apply yields_True | intros a _; apply Hf].
Qed.

Lemma yields_ret {A} (a : A) (phi : A -> Prop) : phi a -> yields (ret a) phi.
Proof. intros H w w' b [= <- <-]. exact H. Qed.

Lemma yields_raise {A} e (phi : A -> Prop) : yields (raise e) phi.
Proof. intros w w' b [=]. Qed.

Lemma yields_weaken {A} (m : M A) (phi psi : A -> Prop) :
  yields m phi -> (forall a, phi a -> psi a) -> yields m psi.
Proof. intros H Himp w w' a E. apply Himp. eapply H. exact E. Qed.

Lemma or_else_not_empty o d : d <> "" -> PyStr.or_else o d <> "".
Proof.
  intros Hd. unfold PyStr.or_else, PyStr.truthy.
  destruct o as [[|c s]|]; simpl; [assumption | discriminate | assumption].
Qed.

Section OrchestratorYields.

Variable self : InterviewOrchestrator.

Lemma yields_ask_next_question sid : yields (ask_next_question self sid) no_followup.
Proof.
  unfold ask_next_question. apply yields_skip. intros [s|]; [|apply yields_raise].
  destruct (should_end_interview s).
  - apply yields_skip. intros ?. apply yields_ret. exact I.
  - do 5 (apply yields_skip; intros ?).
    destruct a3 as [audio record].
    do 5 (apply yields_skip; intros ?). apply yields_ret. exact I.
Qed.

Lemma yields__ask_followup h ev : yields (_ask_followup self h ev) followup_text_ok.
Proof.
  unfold _ask_followup. do 3 (apply yields_skip; intros ?). cbv zeta.
  apply yields_skip. intros ?.
  destruct a1 as [current_question|]; [|apply yields_raise].
  apply yields_skip. intros now.
  eapply yields_bind; [apply yields_synthesize|].
  intros [audio record] Hq. cbv iota.
  do 4 (apply yields_skip; intros ?). apply yields_ret.
  unfold as_asked in Hq. simpl in Hq.
  assert (question_text record
          = (if PyStr.startswith "{"
                  (PyStr.strip (PyStr.or_else (followup_question a)
                                  "Can you elaborate on that?"))
                || PyStr.startswith "["
                     (PyStr.strip (PyStr.or_else (followup_question a)
                                     "Can you elaborate on that?"))
             then "Can you provide a specific example from your experience?"
             else PyStr.or_else (followup_question a) "Can you elaborate on that?"))
    as -> by congruence.
  simpl followup_text_ok.
  destruct (PyStr.startswith "{" _ || PyStr.startswith "[" _) eqn:E.
  - split; [discriminate|]. split; reflexivity.
  - apply orb_false_iff in E. destruct E as [E1 E2].
    split; [apply or_else_not_empty; discriminate|]. split; assumption.
Qed.

Lemma yields_submit_response sid audio transcript :
  yields (submit_response self sid audio transcript) followup_text_ok.
Proof.
  unfold submit_response. apply yields_skip. intros [s|]; [|apply yields_raise].
  apply yields_skip. intros [current_question|]; [|apply yields_raise]. cbv zeta.
  do 13 (apply yields_skip; intros ?).
  unfold _decide_next_action. apply yields_skip. intros s1.
  destruct (wants_followup _ s1); [apply yields__ask_followup|].
  unfold adapt_and_continue. do 3 (apply yields_skip; intros ?).
  destruct (should_end_interview _).
  - apply yields_skip. intros ?. apply yields_ret. exact I.
  - eapply yields_weaken; [apply yields_ask_next_question|].
    intros [] H; try exact I. contradiction.
Qed.

End OrchestratorYields.

(** X19. A follow-up handed out by [submit_response] always has a text
    to show: it is never empty, and never starts (white space apart) with
    a brace or a bracket, whatever the AI layer returned as its follow-up
    question. *)
Theorem followup_text_is_presentable :
  forall self sid audio transcript w w' qid text reason adata,
    submit_response self sid audio transcript w
    = (w', Returned (ActFollowup qid text reason adata)) ->
    text <> ""
    /\ PyStr.startswith "{" (PyStr.strip text) = false
    /\ PyStr.startswith "[" (PyStr.strip text) = false.
Proof.
  intros self sid audio transcript w w' qid text reason adata E.
  exact (yields_submit_response self sid audio transcript w w' _ E).
Qed.

Lemma followup_text_is_presentable_witness :
  "Can you provide a specific example from your experience?" <> ""
  /\ PyStr.startswith "{"
       (PyStr.strip "Can you provide a specific example from your experience?")
     = false
  /\ PyStr.startswith "["
       (PyStr.strip "Can you provide a specific example from your experience?")
     = false.
Proof.
  eapply (followup_text_is_presentable bare_orchestrator "session-7" None
            (Some "We partition by key.") env_listening).
  vm_compute. reflexivity.
Defined.

(** ** The built-in question source *)





(** ** The decision context *)

Lemma get_skills_for_role_named r : "" ∉ get_skills_for_role r.
Proof. destruct r; apply (bool_decide_unpack _); vm_compute; exact I. Qed.

Lemma elem_of_dict_keys {V} k (d : list (string * V)) :
  k ∈ dict_keys d <-> exists v, (k, v) ∈ d.
Proof.
  unfold dict_keys. rewrite list_elem_of_fmap. split.
  - intros ([k' v] & -> & H). exists v. exact H.
  - intros (v & H). exists (k, v). auto.
Qed.

(** X21. For every session the orchestrator can hold, the skills
    [_build_context] reports as remaining are exactly the skills selected
    by the setup (of the role, inside [include_skills] when given, outside
    [exclude_skills]) that no question of the list carries and under which
    no score is recorded; and the recent responses are the last three
    questions (all of them when there are fewer). *)
Theorem remaining_skills_are_the_untouched_ones :
  forall self calls clock entropy sid s,
    _sessions (run_calls self calls (initial_env clock entropy)) !! sid = Some s ->
    (forall skill,
       skill ∈ skills_remaining (_build_context s) <->
       (skill ∈ get_skills_for_role (target_role (setup s))
        /\ (include_skills (setup s) = [] \/ skill ∈ include_skills (setup s))
        /\ skill ∉ exclude_skills (setup s))
       /\ (forall q, q ∈ questions s -> skill_id q <> Some skill)
       /\ (forall scores, (skill, scores) ∈ skill_scores s -> scores = []))
    /\ recent_responses (_build_context s)
       = drop (length (questions s) - 3) (questions s).
Proof.
  intros self calls clock entropy sid s Hs.
  destruct (reachable_bookkeeping _ _ _ _ _ _ Hs) as [_ _ Hk Hsc].
  split.
  - intros skill. unfold _build_context. simpl skills_remaining.
    rewrite list_elem_of_filter, elem_of_elements, Hsc, selected_skills_spec.
    rewrite not_elem_of_union, Hk, elem_of_list_to_set, list_elem_of_omap.
    rewrite elem_of_list_to_set, elem_of_dict_keys.
    split.
    + intros [[Hasked Hscored] Hsel]. split; [exact Hsel|]. split.
      * intros q Hq Hskill. apply Hasked. exists q. split; [exact Hq|].
        unfold recorded_skill. rewrite Hskill. simpl.
        destruct skill; [|reflexivity].
        exfalso. apply (get_skills_for_role_named (target_role (setup s))).
        apply Hsel.
      * intros scores Hin. destruct scores as [|x scores]; [reflexivity|].
        exfalso. apply Hscored. exists (x :: scores).
        apply list_elem_of_filter. split; [exact I | exact Hin].
    + intros (Hsel & Hq & Hscores). split; [split | exact Hsel].
      * intros (q & Hin & Hrec). apply (Hq q Hin).
        unfold recorded_skill in Hrec.
        destruct (PyStr.truthy (skill_id q)); [exact Hrec | discriminate].
      * intros (scores & Hin). apply list_elem_of_filter in Hin.
        destruct Hin as [Hne Hin]. rewrite (Hscores _ Hin) in Hne. exact Hne.
  - unfold _build_context. simpl recent_responses. unfold last_n.
    destruct (questions s); reflexivity.
Qed.

Lemma remaining_skills_are_the_untouched_ones_witness :
  (forall skill,
     skill ∈ skills_remaining (_build_context (session_at "session-7" env_listening))
     <->
     (skill ∈ get_skills_for_role
                (target_role (setup (session_at "session-7" env_listening)))
      /\ (include_skills (setup (session_at "session-7" env_listening)) = []
          \/ skill ∈ include_skills (setup (session_at "session-7" env_listening)))
      /\ skill ∉ exclude_skills (setup (session_at "session-7" env_listening)))
     /\ (forall q, q ∈ questions (session_at "session-7" env_listening) ->
                   skill_id q <> Some skill)
     /\ (forall scores,
           (skill, scores) ∈ skill_scores (session_at "session-7" env_listening) ->
           scores = []))
  /\ recent_responses (_build_context (session_at "session-7" env_listening))
     = drop (length (questions (session_at "session-7" env_listening)) - 3)
         (questions (session_at "session-7" env_listening)).
Proof.
  apply (remaining_skills_are_the_untouched_ones bare_orchestrator
           [Create example_setup; Start "session-7"] 100 example_entropy
           "session-7").
  vm_compute. reflexivity.
Defined.

(** ** The heuristic feedback *)

Lemma elem_of_when b x y : y ∈ EvaluationEngine.when_ b x <-> b = true /\ y = x.
Proof.
  unfold EvaluationEngine.when_. destruct b.
  - rewrite list_elem_of_singleton. intuition.
  - rewrite elem_of_nil. intuition discriminate.
Qed.

Lemma list_or_not_nil {A} (l d : list A) : d <> [] -> EvaluationEngine.list_or l d <> [].
Proof. unfold EvaluationEngine.list_or. destruct l; simpl; [auto | discriminate]. Qed.

Lemma elem_of_list_or {A} (x : A) l d :
  l <> [] -> x ∈ EvaluationEngine.list_or l d <-> x ∈ l.
Proof. unfold EvaluationEngine.list_or. destruct l; simpl; [congruence | tauto]. Qed.

Lemma heuristic_evaluation_feedback question_id transcript context :
  feedback (EvaluationEngine._heuristic_evaluation question_id transcript context)
  = heuristic_feedback transcript.
Proof. reflexivity. Qed.

Lemma heuristic_feedback_lengths a :
  length (improvement_suggestions (EvaluationEngine._generate_heuristic_feedback a))
  = length (what_was_missing (EvaluationEngine._generate_heuristic_feedback a)).
Proof.
  unfold EvaluationEngine._generate_heuristic_feedback. simpl.
  rewrite !length_app. unfold EvaluationEngine.when_.
  repeat match goal with |- context [if ?b then _ else _] => destruct b end;
    reflexivity.
Qed.

(** X22. The feedback of the heuristic evaluation, for every
    transcript: something is always listed as having gone well; every gap
    listed comes with one suggestion; no red flag and no seniority signal
    is ever reported; the answer is called too brief exactly below 50
    words and too verbose exactly above 400, and it is praised for its
    level of detail exactly from 100 to 300 words, so never together with
    either. *)
Theorem heuristic_feedback_is_consistent :
  forall question_id transcript context,
    feedback (EvaluationEngine._heuristic_evaluation question_id transcript context)
    = heuristic_feedback transcript
    /\ what_went_well (heuristic_feedback transcript) <> []
    /\ length (improvement_suggestions (heuristic_feedback transcript))
       = length (what_was_missing (heuristic_feedback transcript))
    /\ fb_red_flags (heuristic_feedback transcript) = []
    /\ seniority_signals (heuristic_feedback transcript) = []
    /\ ("Response was too brief" ∈ what_was_missing (heuristic_feedback transcript)
        <-> (length (PyStr.split transcript) < 50)%nat)
    /\ ("Response was too verbose" ∈ what_was_missing (heuristic_feedback transcript)
        <-> (400 < length (PyStr.split transcript))%nat)
    /\ ("Appropriate level of detail" ∈ what_went_well (heuristic_feedback transcript)
        <-> (100 <= length (PyStr.split transcript) <= 300)%nat).
Proof.
  intros question_id transcript context.
  split; [reflexivity|].
  split; [apply list_or_not_nil; discriminate|].
  split; [apply heuristic_feedback_lengths|].
  split; [reflexivity|]. split; [reflexivity|].
  unfold heuristic_feedback.
  set (a := EvaluationEngine._analyze_response transcript).
  assert (EvaluationEngine.word_count a = length (PyStr.split transcript)) as <-
    by reflexivity.
  unfold EvaluationEngine._generate_heuristic_feedback.
  cbn [what_was_missing what_went_well].
  split; [|split].
  - rewrite !elem_of_app, !elem_of_when, !Nat.ltb_lt.
    split; [|intros H; right; right; left; split; [exact H | reflexivity]].
    intros [[_ H]|[[_ H]|[[H _]|[[_ H]|[_ H]]]]]; first [discriminate H | exact H].
  - rewrite !elem_of_app, !elem_of_when, !Nat.ltb_lt.
    split; [|intros H; right; right; right; left; split; [exact H | reflexivity]].
    intros [[_ H]|[[_ H]|[[_ H]|[[H _]|[_ H]]]]]; first [discriminate H | exact H].
  - split.
    + intros H.
      assert ("Appropriate level of detail"
              ∈ (EvaluationEngine.when_ (5 <? EvaluationEngine.an_technical_keywords a)%nat
                   "Good use of technical terminology"
                 ++ EvaluationEngine.when_ (2 <? EvaluationEngine.an_experience_keywords a)%nat
                      "Drew from practical experience"
                 ++ EvaluationEngine.when_ (2 <? EvaluationEngine.an_structure_keywords a)%nat
                      "Well-structured response"
                 ++ EvaluationEngine.when_
                      ((100 <=? EvaluationEngine.word_count a)%nat
                       && (EvaluationEngine.word_count a <=? 300)%nat)
                      "Appropriate level of detail")%list) as H'.
      { unfold EvaluationEngine.list_or in H.
        destruct (is_nil _) eqn:E in H; [|exact H].
        apply list_elem_of_singleton in H. discriminate H. }
      rewrite !elem_of_app, !elem_of_when in H'.
      destruct H' as [[_ H']|[[_ H']|[[_ H']|[H' _]]]]; try discriminate H'.
      apply andb_true_iff in H'. rewrite !Nat.leb_le in H'. exact H'.
    + intros H. apply elem_of_list_or.
      * assert (((100 <=? EvaluationEngine.word_count a)%nat
                 && (EvaluationEngine.word_count a <=? 300)%nat) = true) as ->.
        { apply andb_true_iff. rewrite !Nat.leb_le. exact H. }
        unfold EvaluationEngine.when_ at 4. intros E.
        apply (f_equal (@length string)) in E. rewrite !length_app in E.
        simpl in E. lia.
      * rewrite !elem_of_app, !elem_of_when. right; right; right.
        split; [|reflexivity]. apply andb_true_iff. rewrite !Nat.leb_le. exact H.
Qed.

(** ** The audio processor *)

(** X23. [text_to_speech] of the audio processor, whatever engine is
    configured: it reports an error only when the Edge engine, its last
    resort, has raised, and then the record is the empty [wav] one; when
    the Edge engine answers no error is reported whatever the local
    engines do; and a record without an error carries the bytes of one of
    the three engines. *)
Theorem text_to_speech_errs_only_when_edge_fails :
  forall self text voice,
    ((exists bytes,
        AudioProcessor.edge_tts self text
          (AudioProcessor.edge_voice
             (PyStr.or_else voice
                (AudioProcessor.tts_voice (AudioProcessor.settings self))))
        = Returned bytes) ->
     error (AudioProcessor.text_to_speech self text voice) = None)
    /\ (error (AudioProcessor.text_to_speech self text voice) = None ->
        let v := PyStr.or_else voice
                   (AudioProcessor.tts_voice (AudioProcessor.settings self)) in
        let bytes := audio_data (AudioProcessor.text_to_speech self text voice) in
        AudioProcessor.kokoro self text v = Returned bytes
        \/ AudioProcessor.piper self text v = Returned bytes
        \/ AudioProcessor.edge_tts self text (AudioProcessor.edge_voice v)
           = Returned bytes)
    /\ (is_Some (error (AudioProcessor.text_to_speech self text voice)) ->
        audio_data (AudioProcessor.text_to_speech self text voice) = ""
        /\ format (AudioProcessor.text_to_speech self text voice) = "wav"
        /\ duration_seconds (AudioProcessor.text_to_speech self text voice) = 0%float
        /\ exists e,
             AudioProcessor.edge_tts self text
               (AudioProcessor.edge_voice
                  (PyStr.or_else voice
                     (AudioProcessor.tts_voice (AudioProcessor.settings self))))
             = Raised e).
Proof.
  intros self text voice.
  unfold AudioProcessor.text_to_speech,
    AudioProcessor._tts_kokoro, AudioProcessor._tts_piper, AudioProcessor._tts_edge.
  cbv zeta.
  set (v := PyStr.or_else voice
              (AudioProcessor.tts_voice (AudioProcessor.settings self))).
  repeat match goal with
         | |- context [decide ?P] => destruct (decide P)
         end;
    destruct (AudioProcessor.kokoro self text v) as [kb|ke] eqn:Ek;
    destruct (AudioProcessor.piper self text v) as [pb|pe] eqn:Ep;
    destruct (AudioProcessor.edge_tts self text (AudioProcessor.edge_voice v))
      as [eb|ee] eqn:Ee;
    try destruct ee; simpl;
    (split; [intros [bytes H]; first [reflexivity | discriminate H]|]);
    (split; [intros H; first [discriminate H | auto]|]);
    intros [x H]; first [discriminate H | eauto 6].
Qed.

(** ** Counting the questions asked *)

Lemma size_list_to_set_le (l : list string) :
  (size (list_to_set l : gset string) <= length l)%nat.
Proof.
  induction l as [|x l IH].
  - rewrite list_to_set_nil, size_empty. simpl. lia.
  - rewrite list_to_set_cons. simpl length.
    destruct (decide (x ∈ (list_to_set l : gset string))) as [Hin|Hout].
    + replace ({[x]} ∪ list_to_set l : gset string) with (list_to_set l : gset string);
        [lia|].
      apply leibniz_equiv. intros y. rewrite elem_of_union, elem_of_singleton.
      split; [auto | intros [->|H]; assumption].
    + rewrite size_union, size_singleton; [lia|].
      intros y Hy1 Hy2. apply elem_of_singleton in Hy1. subst y. contradiction.
Qed.

(** X24. In every session the orchestrator can hold,
    [get_asked_question_count] is at most the number of questions in the
    list (questions that normalise to the same words count once), and it
    is zero exactly when no question was asked. *)
Theorem asked_question_count_within_questions :
  forall self calls clock entropy sid s,
    _sessions (run_calls self calls (initial_env clock entropy)) !! sid = Some s ->
    (0 <= get_asked_question_count s <= Z.of_nat (length (questions s)))%Z
    /\ (get_asked_question_count s = 0%Z <-> questions s = []).
Proof.
  intros self calls clock entropy sid s Hs.
  destruct (reachable_bookkeeping _ _ _ _ _ _ Hs) as [_ Hh _ _].
  unfold get_asked_question_count. rewrite Hh.
  pose proof (size_list_to_set_le
                (map (fun q => _normalize_question (question_text q)) (questions s)))
    as Hle.
  rewrite length_map in Hle. split; [lia|].
  split.
  - intros H0. destruct (questions s) as [|q l]; [reflexivity|]. exfalso.
    assert (size (list_to_set
                    (map (fun q => _normalize_question (question_text q)) (q :: l))
                  : gset string) = 0%nat) as Hz by lia.
    apply size_empty_inv in Hz.
    assert (_normalize_question (question_text q)
            ∈ (list_to_set
                 (map (fun q => _normalize_question (question_text q)) (q :: l))
               : gset string)) as Hin
      by (apply elem_of_list_to_set; simpl; left).
    apply Hz in Hin. exact (not_elem_of_empty _ Hin).
  - intros ->. simpl map. rewrite list_to_set_nil, size_empty. reflexivity.
Qed.

Lemma asked_question_count_within_questions_witness :
  (0 <= get_asked_question_count (session_at "session-7" env_listening)
   <= Z.of_nat (length (questions (session_at "session-7" env_listening))))%Z
  /\ (get_asked_question_count (session_at "session-7" env_listening) = 0%Z
      <-> questions (session_at "session-7" env_listening) = []).
Proof.
  apply (asked_question_count_within_questions bare_orchestrator
           [Create example_setup; Start "session-7"] 100 example_entropy
           "session-7").
  vm_compute. reflexivity.
Defined.

(** ** A transcription that fails *)

(** X25. When the answer comes as audio without a transcript and the
    audio collaborator raises on it, [submit_response] raises the same
    exception, and what it leaves behind is the session in state
    [PROCESSING], nothing else changed: no transcript, no evaluation, no
    new question. *)
Theorem transcription_failure_leaves_processing :
  forall self w sid s q processor audio transcript e,
    _sessions w !! sid = Some s ->
    session_id s = sid ->
    state s = LISTENING ->
    get_current_question s = Returned (Some q) ->
    PyStr.truthy transcript = false ->
    PyStr.truthy audio = true ->
    audio_processor self = Some processor ->
    speech_to_text processor (default "" audio) = Raised e ->
    exists now w',
      submit_response self sid audio transcript w = (w', Raised e)
      /\ _sessions w' = <[sid := after_transition PROCESSING None now s]> (_sessions w)
      /\ state (after_transition PROCESSING None now s) = PROCESSING
      /\ interview_of (after_transition PROCESSING None now s) = interview_of s.
Proof.
  intros self w sid s q processor audio transcript e
    Hs Hid Hst Hq Ht Ha Hp Hstt.
  destruct (transition_state_run self sid PROCESSING None w s Hs Hid)
    as (now & w1 & E1 & Es1).
  { rewrite Hst. simpl. left. }
  exists now, w1.
  split; [|split; [exact Es1|split;
                   [apply after_transition_state | apply after_transition_interview]]].
  unfold submit_response, bind at 1, get_session. rewrite Hs.
  unfold bind at 1, lift. rewrite Hq. cbv zeta.
  erewrite bind_eq_returned by exact E1.
  rewrite Ht, Ha, Hp. simpl negb. simpl andb. cbv iota.
  unfold bind at 1. unfold bind at 1, lift. rewrite Hstt. reflexivity.
Qed.

Lemma transcription_failure_leaves_processing_witness :
  exists now w',
    submit_response (orchestrator_with_audio raising_audio) "session-7"
      (Some "UklGRg==") None env_listening
    = (w', Raised (RuntimeError "transcription unavailable"))
    /\ _sessions w'
       = <["session-7" := after_transition PROCESSING None now
                            (session_at "session-7" env_listening)]>
           (_sessions env_listening)
    /\ state (after_transition PROCESSING None now
                (session_at "session-7" env_listening)) = PROCESSING
    /\ interview_of (after_transition PROCESSING None now
                       (session_at "session-7" env_listening))
       = interview_of (session_at "session-7" env_listening).
Proof.
  apply (transcription_failure_leaves_processing
           (orchestrator_with_audio raising_audio) env_listening "session-7"
           (session_at "session-7" env_listening)
           (session_at_question env_listening)
           raising_audio (Some "UklGRg==") None
           (RuntimeError "transcription unavailable")).
  - vm_compute. reflexivity.
  - vm_compute. reflexivity.
  - vm_compute. reflexivity.
  - vm_compute. reflexivity.
  - reflexivity.
  - reflexivity.
  - reflexivity.
  - reflexivity.
Defined.

(** ** The endpoints *)





Lemma quiet_run {A} (m : M A) w w' r :
  quiet m -> m w = (w', r) -> _sessions w' = _sessions w.
Proof. intros Hq E. specialize (Hq w). rewrite E in Hq. exact Hq. Qed.

(** What [generate_report] does from [COMPLETE]: the session goes to
    [GENERATING_REPORT] and, when the report is there, to [FINISHED]. *)
Lemma generate_report_leaves_complete self sid w s :
  _sessions w !! sid = Some s ->
  session_id s = sid ->
  state s = COMPLETE ->
  exists w' s' r,
    generate_report self sid w = (w', r)
    /\ _sessions w' = <[sid := s']> (_sessions w)
    /\ interview_of s' = interview_of s
    /\ ((exists report, r = Returned report) /\ state s' = FINISHED
        \/ (exists e, r = Raised e) /\ state s' = GENERATING_REPORT).
Proof.
  intros Hs Hid Hst.
  destruct (transition_state_run self sid GENERATING_REPORT None w s Hs Hid)
    as (now1 & w1 & E1 & Es1).
  { rewrite Hst. simpl. left. }
  set (s1 := after_transition GENERATING_REPORT None now1 s) in *.
  assert (_sessions w1 !! sid = Some s1) as Hs1
    by (rewrite Es1; apply lookup_insert_eq).
  destruct (generate_report self sid w) as [w' r] eqn:Egen.
  unfold generate_report, bind at 1, get_session in Egen. rewrite Hs, Hst in Egen.
  rewrite bool_decide_eq_true_2 in Egen by left.
  change (negb true) with false in Egen. cbv iota in Egen.
  rewrite (bind_eq_returned _ _ _ _ _ E1) in Egen.
  match type of Egen with
  | bind ?m ?f w1 = _ =>
      assert (quiet m) as Hquiet;
      [ destruct (report_generator self);
        [quiet_tac | apply quiet__generate_mock_report]
      | unfold bind at 1 in Egen; destruct (m w1) as [w2 [report|e]] eqn:Em ]
  end.
  - pose proof (quiet_run _ _ _ _ Hquiet Em) as Es2.
    destruct (transition_state_run self sid FINISHED None w2 s1) as (now2 & w3 & E3 & Es3).
    { rewrite Es2. exact Hs1. }
    { unfold s1. rewrite after_transition_session_id. exact Hid. }
    { unfold s1. rewrite after_transition_state. simpl. left. }
    rewrite (bind_eq_returned _ _ _ _ _ E3) in Egen. unfold ret in Egen.
    inversion Egen; subst w' r; clear Egen.
    exists w3, (after_transition FINISHED None now2 s1), (Returned report).
    split; [reflexivity|]. split; [|split].
    + rewrite Es3, Es2, Es1. apply insert_insert_eq.
    + unfold s1. rewrite !after_transition_interview. reflexivity.
    + left. split; [eauto | apply after_transition_state].
  - pose proof (quiet_run _ _ _ _ Hquiet Em) as Es2.
    inversion Egen; subst w' r; clear Egen.
    exists w2, s1, (Raised e).
    split; [reflexivity|]. split; [|split].
    + rewrite Es2. exact Es1.
    + apply after_transition_interview.
    + right. split; [eauto | apply after_transition_state].
Qed.

(** X28. The [/summary] endpoint of the report serves a report at most
    once.  From [COMPLETE] it either answers with the summary, leaving the
    session [FINISHED], or answers 500 when the report could not be made,
    leaving it in [GENERATING_REPORT]; in both states every further
    request is answered with status 500 and changes nothing.  In any other
    state the answer is 400 with the current state, and nothing is
    touched. *)
Theorem report_summary_is_served_once :
  forall self w sid s,
    _sessions w !! sid = Some s ->
    session_id s = sid ->
    (state s = COMPLETE ->
     exists w' s' r,
       ReportApi.get_report_summary self sid w = (w', r)
       /\ _sessions w' = <[sid := s']> (_sessions w)
       /\ interview_of s' = interview_of s
       /\ ((exists summary, r = Ok summary) /\ state s' = FINISHED
           \/ (exists detail, r = HTTPException 500 detail)
              /\ state s' = GENERATING_REPORT))
    /\ (state s = FINISHED ->
        ReportApi.get_report_summary self sid w
        = (w, HTTPException 500 "Interview must be complete to generate report"))
    /\ (state s = GENERATING_REPORT ->
        ReportApi.get_report_summary self sid w
        = (w, HTTPException 500
                (invalid_transition_message GENERATING_REPORT GENERATING_REPORT)))
    /\ ((state s ∉ [COMPLETE; GENERATING_REPORT; FINISHED]) ->
        ReportApi.get_report_summary self sid w
        = (w, HTTPException 400
                ("Interview not complete. Current state: "
                 ++ state_value (state s)))).
Proof.
  intros self w sid s Hs Hid.
  unfold ReportApi.get_report_summary. rewrite Hs.
  split; [|split; [|split]].
  - intros Hst. rewrite Hst. simpl negb. cbv iota.
    destruct (generate_report_leaves_complete self sid w s Hs Hid Hst)
      as (w' & s' & r & E & Es & Hi & Hr).
    unfold or_http. rewrite E.
    destruct Hr as [[[report ->] Hf] | [[e ->] Hg]]; eexists w', s', _;
      (split; [reflexivity|]; split; [exact Es|]; split; [exact Hi|]); eauto.
  - intros Hst. rewrite Hst. simpl negb. cbv iota.
    unfold or_http. rewrite (generate_report_not_complete self sid s w Hs).
    + reflexivity.
    + rewrite Hst. discriminate.
    + rewrite Hst. discriminate.
  - intros Hst. rewrite Hst. simpl negb. cbv iota.
    unfold or_http, generate_report, bind at 1, get_session. rewrite Hs, Hst.
    rewrite bool_decide_eq_true_2 by (right; left).
    change (negb true) with false. cbv iota.
    erewrite bind_eq_raised
      by (apply transition_state_rejects;
          [exact Hs | rewrite Hst; apply (bool_decide_unpack _); vm_compute; exact I]).
    rewrite Hst. reflexivity.
  - intros Hno. rewrite bool_decide_eq_false_2 by exact Hno. reflexivity.
Qed.

Lemma report_summary_is_served_once_witness :
  (state (session_at "session-7" env_ended) = COMPLETE ->
   exists w' s' r,
     ReportApi.get_report_summary bare_orchestrator "session-7" env_ended = (w', r)
     /\ _sessions w' = <["session-7" := s']> (_sessions env_ended)
     /\ interview_of s' = interview_of (session_at "session-7" env_ended)
     /\ ((exists summary, r = Ok summary) /\ state s' = FINISHED
         \/ (exists detail, r = HTTPException 500 detail)
            /\ state s' = GENERATING_REPORT))
  /\ (state (session_at "session-7" env_ended) = FINISHED ->
      ReportApi.get_report_summary bare_orchestrator "session-7" env_ended
      = (env_ended,
         HTTPException 500 "Interview must be complete to generate report"))
  /\ (state (session_at "session-7" env_ended) = GENERATING_REPORT ->
      ReportApi.get_report_summary bare_orchestrator "session-7" env_ended
      = (env_ended,
         HTTPException 500
           (invalid_transition_message GENERATING_REPORT GENERATING_REPORT)))
  /\ ((state (session_at "session-7" env_ended)
       ∉ [COMPLETE; GENERATING_REPORT; FINISHED]) ->
      ReportApi.get_report_summary bare_orchestrator "session-7" env_ended
      = (env_ended,
         HTTPException 400
           ("Interview not complete. Current state: "
            ++ state_value (state (session_at "session-7" env_ended))))).
Proof.
  apply (report_summary_is_served_once bare_orchestrator env_ended "session-7"
           (session_at "session-7" env_ended)).
  - vm_compute. reflexivity.
  - vm_compute. reflexivity.
Defined.

(** X29. The [/setup] endpoint creates a session exactly for requests
    with 0 to 30 years of experience and 5 to 15 questions: then a session
    in state [SETUP] is stored under a new identifier that the answer
    carries, with the limits of the request, the role, cloud and mode named
    by the request, or the mid-level role, no cloud and the follow-up mode
    when the name is not a known one.  For any other request the answer is
    status 400 with the text of the validation error, and nothing at all
    has changed: no session is created. *)
Theorem setup_endpoint_validates :
  forall validation_text request w,
    ((0 <= InterviewApi.req_years_of_experience request <= 30)%Z
     /\ (5 <= InterviewApi.req_max_questions request <= 15)%Z ->
     exists w' s,
       InterviewApi.setup_interview validation_text request w
       = (w', Ok {| InterviewApi.resp_session_id := session_id s;
                    InterviewApi.resp_status := "created";
                    InterviewApi.resp_message :=
                      "Interview session created. Call /start to begin." |})
       /\ _sessions w' = <[session_id s := s]> (_sessions w)
       /\ state s = SETUP
       /\ questions s = []
       /\ max_questions (setup s) = InterviewApi.req_max_questions request
       /\ years_of_experience (setup s)
          = InterviewApi.req_years_of_experience request
       /\ target_role (setup s)
          = default MID_DE (InterviewApi.role_map (InterviewApi.req_target_role request))
       /\ cloud_preference (setup s)
          = default AGNOSTIC
              (InterviewApi.cloud_map (InterviewApi.req_cloud_preference request))
       /\ mode (setup s)
          = default STRUCTURED_FOLLOWUP
              (InterviewApi.mode_map (InterviewApi.req_mode request)))
    /\ (~ ((0 <= InterviewApi.req_years_of_experience request <= 30)%Z
           /\ (5 <= InterviewApi.req_max_questions request <= 15)%Z) ->
        InterviewApi.setup_interview validation_text request w
        = (w, HTTPException 400
                (validation_text (InterviewApi.req_years_of_experience request)
                   (InterviewApi.req_max_questions request)))).
Proof.
  intros validation_text request w.
  unfold InterviewApi.setup_interview, InterviewApi.InterviewSetup_validated,
    or_http, bind at 1, lift.
  split.
  - intros [[Hy1 Hy2] [Hm1 Hm2]].
    apply Z.leb_le in Hy1, Hy2, Hm1, Hm2. rewrite Hy1, Hy2, Hm1, Hm2.
    simpl andb. cbv iota.
    unfold create_session, bind, draw, utcnow, emit, ret.
    destruct (entropy w) as [|n r]; eexists _, _;
      (split; [reflexivity|]; repeat split).
  - intros Hbad.
    destruct ((0 <=? _)%Z && (_ <=? 30)%Z && (5 <=? _)%Z && (_ <=? 15)%Z) eqn:E;
      [|reflexivity].
    exfalso. apply Hbad. rewrite !andb_true_iff, !Z.leb_le in E. tauto.
Qed.

(** [start_interview] on a session in [SETUP] that has core questions
    left hands out a question: it cannot come back with ["complete"]. *)
Lemma start_interview_hands_out_question self sid w w' s a :
  _sessions w !! sid = Some s ->
  session_id s = sid ->
  state s = SETUP ->
  (total_core_questions_asked s < max_questions (setup s))%Z ->
  start_interview self sid w = (w', Returned a) ->
  is_question_action a = true.
Proof.
  intros Hs Hid Hst Hlt Hrun.
  unfold start_interview, start_interview_trace, bind at 1, get_session in Hrun.
  rewrite Hs in Hrun. unfold bind at 1 in Hrun.
  assert (exists w0, (if is_some (ai_reasoning self)
                      then emit (TraceStarted sid) else ret tt) w
                     = (w0, Returned tt)
                     /\ _sessions w0 = _sessions w) as (w0 & E0 & Es0).
  { destruct (is_some (ai_reasoning self)); eexists; split; reflexivity. }
  rewrite E0 in Hrun.
  destruct (transition_state_run self sid READY None w0 s) as (now & w1 & E1 & Es1).
  { rewrite Es0. exact Hs. }
  { exact Hid. }
  { rewrite Hst. simpl. left. }
  rewrite (bind_eq_returned _ _ _ _ _ E1) in Hrun.
  unfold ask_next_question, bind at 1, get_session in Hrun.
  rewrite Es1, lookup_insert_eq in Hrun.
  assert (should_end_interview (after_transition READY None now s) = false) as Hend.
  { unfold should_end_interview.
    destruct (after_transition_fields READY None now s) as (-> & _ & -> & _).
    rewrite after_transition_state. apply orb_false_iff. split.
    - apply Z.leb_gt. exact Hlt.
    - reflexivity. }
  rewrite Hend in Hrun.
  match type of Hrun with
  | ?m w1 = _ =>
      assert (yields m (fun a => is_question_action a = true)) as Hy
  end.
  { do 5 (apply yields_skip; intros ?).
    destruct a4 as [audio record].
    do 5 (apply yields_skip; intros ?). apply yields_ret. reflexivity. }
  exact (Hy _ _ _ Hrun).
Qed.

(** X30. The [/start] endpoint.  A session that is not in [SETUP] is
    answered with status 400 naming its state, and nothing is touched, not
    even by the orchestrator.  For a session in [SETUP] with questions to
    ask, an answer that is not an error carries the first question, and
    the session is then [LISTENING], as the answer says, with that
    question as its current one. *)
Theorem start_endpoint_delivers_first_question :
  forall self calls clock entropy sid s,
    _sessions (run_calls self calls (initial_env clock entropy)) !! sid = Some s ->
    (state s <> SETUP ->
     InterviewApi.start_interview self sid
       (run_calls self calls (initial_env clock entropy))
     = (run_calls self calls (initial_env clock entropy),
        HTTPException 400
          ("Cannot start interview in state: " ++ state_str (state s))))
    /\ (state s = SETUP ->
        (total_core_questions_asked s < max_questions (setup s))%Z ->
        forall w' response,
          InterviewApi.start_interview self sid
            (run_calls self calls (initial_env clock entropy))
          = (w', Ok response) ->
          InterviewApi.start_session_id response = sid
          /\ InterviewApi.start_state response = "listening"
          /\ exists qid text n total d audio s' q,
               InterviewApi.first_question response
               = Some (ActQuestion qid text n total d audio)
               /\ _sessions w' !! sid = Some s'
               /\ state s' = LISTENING
               /\ get_current_question s' = Returned (Some q)
               /\ question_id q = qid /\ question_text q = text).
Proof.
  intros self calls clock entropy sid s Hs.
  set (w := run_calls self calls (initial_env clock entropy)) in *.
  assert (session_id s = sid) as Hid.
  { apply (reachable_well_keyed self calls clock entropy). exact Hs. }
  unfold InterviewApi.start_interview. rewrite Hs.
  split.
  - intros Hne. rewrite bool_decide_eq_false_2 by exact Hne. reflexivity.
  - intros Hst Hlt w' response.
    rewrite bool_decide_eq_true_2 by exact Hst.
    change (negb true) with false. cbv iota. unfold or_http.
    destruct (start_interview self sid w) as [w1 [a|e]] eqn:Erun; [|discriminate].
    intros [= -> <-]. simpl.
    split; [reflexivity|]. split; [reflexivity|].
    pose proof (start_interview_hands_out_question _ _ _ _ _ _ Hs Hid Hst Hlt Erun)
      as Hq.
    destruct (asks_action_as_stored self calls clock entropy (Start sid) w' a Erun)
      as (s' & Hs' & Hreach & Hact).
    destruct a as [message | qid text n total d audio | qid text reason audio | reason n];
      try discriminate Hq.
    destruct Hact as (Hlisten & _ & _ & _ & _ & l & q & Eq & _ & Hqid & Htext).
    exists qid, text, n, total, d, audio, s', q.
    split; [reflexivity|]. split; [exact Hs'|]. split; [exact Hlisten|].
    split; [exact (reachable_current_question _ _ _ _ _ _ _ _ Hreach Eq)|].
    split; assumption.
Qed.

Lemma start_endpoint_delivers_first_question_witness :
  (state (session_at "session-7" env_created) <> SETUP ->
   InterviewApi.start_interview bare_orchestrator "session-7"
     (run_calls bare_orchestrator [Create example_setup]
        (initial_env 100 example_entropy))
   = (run_calls bare_orchestrator [Create example_setup]
        (initial_env 100 example_entropy),
      HTTPException 400
        ("Cannot start interview in state: "
         ++ state_str (state (session_at "session-7" env_created)))))
  /\ (state (session_at "session-7" env_created) = SETUP ->
      (total_core_questions_asked (session_at "session-7" env_created)
       < max_questions (setup (session_at "session-7" env_created)))%Z ->
      forall w' response,
        InterviewApi.start_interview bare_orchestrator "session-7"
          (run_calls bare_orchestrator [Create example_setup]
             (initial_env 100 example_entropy))
        = (w', Ok response) ->
        InterviewApi.start_session_id response = "session-7"
        /\ InterviewApi.start_state response = "listening"
        /\ exists qid text n total d audio s' q,
             InterviewApi.first_question response
             = Some (ActQuestion qid text n total d audio)
             /\ _sessions w' !! "session-7" = Some s'
             /\ state s' = LISTENING
             /\ get_current_question s' = Returned (Some q)
             /\ question_id q = qid /\ question_text q = text).
Proof.
  apply (start_endpoint_delivers_first_question bare_orchestrator
           [Create example_setup] 100 example_entropy "session-7"
           (session_at "session-7" env_created)).
  vm_compute. reflexivity.
Defined.
